(** * LearningGoTheHardWay: the exercises and solutions of modules 01 and 02

    A shallow embedding of the Go functions of
    - [modules/01-basics/solutions/exercise1_fix_bugs.go],
    - [modules/02-types-interfaces/exercises/exercise1_shapes.go],
    - [modules/02-types-interfaces/exercises/exercise2_type_assertions.go],
    - [modules/02-types-interfaces/solutions/exercise2_type_assertions.go],
    and the properties the specification states about them.

    Conventions.
    - Go's [int] is the 64-bit two's complement integer of the amd64 and
      arm64 ports: a [Z] in the range of [GoInt.is_int], every arithmetic
      operation followed by [GoInt.wrap].
    - Go's [float64] is the kernel's binary64 float; operations are the
      IEEE 754 ones, rounded after each operation (no fused multiply-add).
    - Go's [string] is a sequence of bytes: [string].
    - A slice that is only read is the list of its elements; a slice
      that is written to is a window on an array kept in a heap, so that
      slices can share elements.
    - A map is a reference to a finite map kept in a heap.
    - A pointer to a struct that is only read is nil or the struct.
    - A value of type [interface{}] is a [value]: nil, or a dynamic type
      together with a value of that type.
    - A function returns an [outcome], a result or a panic, and the state
      it leaves: it is a computation in the monad [Go]. *)

From Stdlib Require Import ZArith Lia List Ascii String.
From Stdlib Require Import Floats.PrimFloat Floats.FloatOps Floats.SpecFloat.
From Stdlib Require Import QArith Qpower Lqa.
From stdpp Require Import gmap strings list fin_maps pretty.

Local Open Scope Z_scope.

(** ** Go's machine integers *)

Module GoInt.

Definition intSize : Z := 64.
Definition MaxInt : Z := 2 ^ (intSize - 1) - 1.
Definition MinInt : Z := - 2 ^ (intSize - 1).

Definition is_int (z : Z) : Prop := MinInt <= z <= MaxInt.

(** Reduction of a mathematical integer to the representable one that is
    congruent to it modulo [2 ^ intSize]. *)
Definition wrap (z : Z) : Z :=
  (z + 2 ^ (intSize - 1)) mod 2 ^ intSize - 2 ^ (intSize - 1).

Definition add (a b : Z) : Z := wrap (a + b).
Definition sub (a b : Z) : Z := wrap (a - b).

End GoInt.

(** ** Outcomes, and the monad of functions that touch a state *)

(** A call either returns or panics with a run-time error. *)
Inductive outcome (A : Type) : Type :=
  | Returns (a : A)
  | Panics (msg : string).
Arguments Returns {A} a.
Arguments Panics {A} msg.

(** Two outcomes that are the same result, or a panic both: the message
    of the panic is not compared. *)
Definition same_outcome {A} (r r' : outcome A) : Prop :=
  match r, r' with
  | Returns a, Returns a' => a = a'
  | Panics _, Panics _ => True
  | _, _ => False
  end.

(** A function that reads or writes a state [S] (the heap of maps, the
    standard output).  The state survives a panic: what was written stays
    written. *)
Definition Go (S A : Type) : Type := S -> outcome A * S.

#[global] Instance Go_ret {S} : MRet (Go S) := fun A a s => (Returns a, s).
#[global] Instance Go_bind {S} : MBind (Go S) := fun A B k m s =>
  match m s with
  | (Returns a, s') => k a s'
  | (Panics msg, s') => (Panics msg, s')
  end.

Definition panic {S A} (msg : string) : Go S A := fun s => (Panics msg, s).

(** A call of a method that reads its receiver and nothing else: the
    state is left as it is, whether the method returns or panics. *)
Definition call {S A} (result : outcome A) : Go S A := fun s => (result, s).

(** A computation that leaves the state as it is and whose outcome does
    not depend on the state. *)
Definition stateless {S A} (m : Go S A) : Prop :=
  forall s s' : S, m s = ((m s').1, s).

(** The statements of a loop body run for each element in turn. *)
Fixpoint for_each {S A} (l : list A) (body : A -> Go S unit) : Go S unit :=
  match l with
  | [] => mret tt
  | x :: l' => body x ≫= fun _ => for_each l' body
  end.

(** A [range] loop whose body assigns the variable [acc]. *)
Fixpoint fold_each {S A B} (l : list A) (body : A -> B -> Go S B) (acc : B) : Go S B :=
  match l with
  | [] => mret acc
  | x :: l' => body x acc ≫= fold_each l' body
  end.

(** [for i := lo; i < hi; i++ { body }], for a body that assigns neither
    [i] nor what [hi] is computed from: [i] takes the values [lo], ...,
    [hi - 1], none of them beyond the range of [int]. *)
Definition for_count {S} (lo hi : Z) (body : Z -> Go S unit) : Go S unit :=
  for_each (seqZ lo (hi - lo)) body.

Definition fold_count {S B} (lo hi : Z) (body : Z -> B -> Go S B) (acc : B) : Go S B :=
  fold_each (seqZ lo (hi - lo)) body acc.

(** [l[i]] on a slice that is only read: a panic when [i] is not an
    index of the slice. *)
Definition index_slice {S A} (l : list A) (i : Z) : Go S A :=
  if i <? 0 then panic "index out of range"
  else
    match l !! Z.to_nat i with
    | Some x => mret x
    | None => panic "index out of range"
    end.

(** ** Go's maps: references into a heap *)

Module GoMap.

Definition loc : Type := positive.

(** A value of a map type: the nil map, or a reference to an allocated
    map.  Copies of the value alias the same map. *)
Inductive ref : Type :=
  | nil
  | at_loc (l : loc).

Section Ops.
Context {V : Type}.

(** The order in which [range] visits the entries of a map is not
    specified by the language: it is some enumeration of the
    entries. *)
Variable range_order : gmap string V -> list (string * V).

(** What a map holds; the nil map reads as the empty map. *)
Definition contents (m : ref) (h : gmap loc (gmap string V)) : gmap string V :=
  match m with
  | nil => ∅
  | at_loc l => default ∅ (h !! l)
  end.

(** [make(map[string]V)] *)
Definition make : Go (gmap loc (gmap string V)) ref := fun h =>
  let l := fresh (dom h) in
  (Returns (at_loc l), <[l := ∅]> h).

(** [v, ok := m[key]] *)
Definition index (m : ref) (key : string) : Go (gmap loc (gmap string V)) (option V) :=
  fun h => (Returns (contents m h !! key), h).

(** [m[key] = v] *)
Definition store (m : ref) (key : string) (v : V) : Go (gmap loc (gmap string V)) unit :=
  fun h =>
    match m with
    | nil => (Panics "assignment to entry in nil map", h)
    | at_loc l => (Returns tt, <[l := <[key := v]> (contents m h)]> h)
    end.

(** [for k, v := range m { body }], for a body that does not write
    to [m]: the entries are those [m] has when the loop starts. *)
Definition range (m : ref) (body : string -> V -> Go (gmap loc (gmap string V)) unit)
  : Go (gmap loc (gmap string V)) unit :=
  fun h => for_each (range_order (contents m h)) (fun kv => body kv.1 kv.2) h.

End Ops.

(** The entries of a list written to a map one after the other. *)
Definition insert_all {V} (l : list (string * V)) (acc : gmap string V) : gmap string V :=
  foldl (fun a kv => <[kv.1 := kv.2]> a) acc l.

(** [for k, v := range m { body }] for a body that assigns the variable
    [acc] and does not write to [m]. *)
Definition range_fold {V B} (order : gmap string V -> list (string * V)) (m : ref)
    (body : string -> V -> B -> Go (gmap loc (gmap string V)) B) (acc : B)
  : Go (gmap loc (gmap string V)) B :=
  fun h => fold_each (order (contents m h)) (fun kv => body kv.1 kv.2) acc h.

(** A map value of a program refers to a map that has been made. *)
Definition valid {V} (m : ref) (h : gmap loc (gmap string V)) : Prop :=
  match m with
  | nil => True
  | at_loc l => l ∈ dom h
  end.

End GoMap.

(** ** Go's slices that are written to: windows on arrays in a heap *)

Module GoSlice.

Definition loc : Type := positive.

(** A value of a slice type: the nil slice, or a window on an array of
    the heap, [len] elements from the index [offset] on, of which [cap]
    can be reached by slicing again.  Copies of the value, and the
    slices made of it, share the array. *)
Inductive ref : Type :=
  | nil
  | window (array : loc) (offset len cap : nat).

Section Ops.
Context {V : Type}.

(** The elements of an array of the heap. *)
Definition elements (a : loc) (h : gmap loc (list V)) : list V :=
  default [] (h !! a).

(** The element at one index of an array. *)
Definition cell (a : loc) (i : nat) (h : gmap loc (list V)) : option V :=
  elements a h !! i.

(** The elements a slice shows. *)
Definition contents (s : ref) (h : gmap loc (list V)) : list V :=
  match s with
  | nil => []
  | window a off n _ => take n (drop off (elements a h))
  end.

(** A slice value of a program lies within its array. *)
Definition valid (s : ref) (h : gmap loc (list V)) : Prop :=
  match s with
  | nil => True
  | window a off n c => (n <= c)%nat /\ (off + c <= length (elements a h))%nat
  end.

(** [len(s)] *)
Definition len (s : ref) : Go (gmap loc (list V)) Z :=
  match s with
  | nil => mret 0
  | window _ _ n _ => mret (Z.of_nat n)
  end.

(** [s[i]] *)
Definition get (s : ref) (i : Z) : Go (gmap loc (list V)) V :=
  fun h =>
    match s with
    | nil => (Panics "index out of range", h)
    | window a off n _ =>
        if (0 <=? i) && (i <? Z.of_nat n)
        then
          match cell a (off + Z.to_nat i) h with
          | Some x => (Returns x, h)
          | None => (Panics "index out of range", h)
          end
        else (Panics "index out of range", h)
    end.

(** [s[i] = v] *)
Definition set (s : ref) (i : Z) (v : V) : Go (gmap loc (list V)) unit :=
  fun h =>
    match s with
    | nil => (Panics "index out of range", h)
    | window a off n _ =>
        if (0 <=? i) && (i <? Z.of_nat n)
        then (Returns tt, <[a := <[(off + Z.to_nat i)%nat := v]> (elements a h)]> h)
        else (Panics "index out of range", h)
    end.

End Ops.

(** [s[lo:hi]], for [lo <= hi <= cap(s)]: a window on the same array. *)
Definition reslice (s : ref) (lo hi : nat) : ref :=
  match s with
  | nil => nil
  | window a off _ c => window a (off + lo) (hi - lo) (c - lo)
  end.

(** The elements at two indices exchanged; nothing changes when an index
    is out of range. *)
Definition exchange {V} (c : list V) (i j : nat) : list V :=
  match c !! j, c !! i with
  | Some x, Some y => <[j := y]> (<[i := x]> c)
  | _, _ => c
  end.

(** Whether the index [i] of the array [a] is shown by the slice [s]. *)
Definition shows (s : ref) (a : loc) (i : nat) : bool :=
  match s with
  | nil => false
  | window a' off n _ =>
      bool_decide (a = a') && (off <=? i)%nat && (i <? off + n)%nat
  end.

(** The index that faces [i] in the slice [s]: the first index of [s]
    faces its last one, and so on; an index that [s] does not show faces
    itself. *)
Definition mirror (s : ref) (a : loc) (i : nat) : nat :=
  match s with
  | nil => i
  | window _ off n _ => if shows s a i then (off + (off + n - 1 - i))%nat else i
  end.

(** Two slices that show no index in common. *)
Definition disjoint (s t : ref) : Prop :=
  forall a i, shows s a i = true -> shows t a i = false.

End GoSlice.

(** ** Module 01, solutions: exercise1_fix_bugs.go *)

Module BasicsSolutions.

(** [func CalculateSum(a, b int) int { return a + b }] *)
Definition CalculateSum (a b : Z) : Z := GoInt.add a b.

(** [func SwapValues(a, b int) (int, int) { return b, a }] *)
Definition SwapValues (a b : Z) : Z * Z := (b, a).

(** [func IsEven(n int) bool { return n%2 == 0 }]; the remainder of Go
    has the sign of the dividend. *)
Definition IsEven (n : Z) : bool := Z.rem n 2 =? 0.

(** [func GetGrade(score int) string]: the chain of [if ... else if]. *)
Definition GetGrade (score : Z) : string :=
  if score >=? 90 then "A"
  else if score >=? 80 then "B"
  else if score >=? 70 then "C"
  else if score >=? 60 then "D"
  else "F".

(** [func FindMax(numbers []int) int].  The guard [len(numbers) == 0]
    is the [[]] case; otherwise [max] starts at [numbers[0]] and the
    [range] loop visits every element, the first one included. *)
Definition FindMax_step (max n : Z) : Z := if n >? max then n else max.

Definition FindMax (numbers : list Z) : Z :=
  match numbers with
  | [] => 0
  | first :: _ => foldl FindMax_step first numbers
  end.

(** [func CountVowels(s string) int].  [strings.ToLower] and the
    decoding of a string into the runes that [range] yields are
    parameters. *)
Section CountVowels.
Variable strings_ToLower : string -> string.
Variable range_runes : string -> list Z.

Definition is_vowel (char : Z) : bool :=
  (char =? 97) || (char =? 101) || (char =? 105) || (char =? 111) || (char =? 117).

Definition CountVowels (s : string) : Z :=
  let lower := strings_ToLower s in
  foldl (fun count char => if is_vowel char then GoInt.add count 1 else count)
    0 (range_runes lower).
End CountVowels.

(** What the two parameters are on a string of ASCII characters, the
    bytes below 128: [strings.ToLower] turns the letters [A] to [Z] into
    [a] to [z] and keeps the other bytes, and [range] yields the bytes
    themselves. *)
Definition is_ASCII (s : string) : Prop :=
  Forall (fun c => Z.of_N (N_of_ascii c) < 128) (list_ascii_of_string s).

Definition ASCII_lower (c : ascii) : ascii :=
  let n := Z.of_N (N_of_ascii c) in
  if (65 <=? n) && (n <=? 90) then ascii_of_N (Z.to_N (n + 32)) else c.

Definition ASCII_ToLower (s : string) : string :=
  string_of_list_ascii (map ASCII_lower (list_ascii_of_string s)).

Definition ASCII_runes (s : string) : list Z :=
  map (fun c => Z.of_N (N_of_ascii c)) (list_ascii_of_string s).

(** The letters that count, in both cases. *)
Definition vowel_letter (c : ascii) : bool :=
  existsb (Ascii.eqb c) (list_ascii_of_string "aeiouAEIOU").

(** [func ReverseSlice(numbers []int) []int]: the elements are exchanged
    in place and the slice itself is returned.  In
    [numbers[i], numbers[j] = numbers[j], numbers[i]] both elements are
    read before either is written. *)
Definition ReverseSlice_body (numbers : GoSlice.ref) (i : Z)
  : Go (gmap GoSlice.loc (list Z)) unit :=
  n ← GoSlice.len numbers;
  let j := GoInt.sub (GoInt.sub n 1) i in
  x ← GoSlice.get numbers j;
  y ← GoSlice.get numbers i;
  GoSlice.set numbers i x;;
  GoSlice.set numbers j y.

Definition ReverseSlice (numbers : GoSlice.ref)
  : Go (gmap GoSlice.loc (list Z)) GoSlice.ref :=
  n ← GoSlice.len numbers;
  for_count 0 (Z.quot n 2) (ReverseSlice_body numbers);;
  mret numbers.

(** The slice [[]int{1, 2, 3, 4, 5}] of [DemonstrateSolutions], in a
    heap of its own. *)
Definition demo_numbers : GoSlice.ref := GoSlice.window 1%positive 0 5 5.
Definition demo_slices : gmap GoSlice.loc (list Z) :=
  <[1%positive := [1; 2; 3; 4; 5]]> ∅.

(** [func FilterEvens(numbers []int) []int]: [result] starts as the empty
    slice [[]int{}] and [append] adds at its end. *)
Definition FilterEvens (numbers : list Z) : list Z :=
  foldl (fun result n => if Z.rem n 2 =? 0 then result ++ [n] else result) [] numbers.

(** [func MergeMaps(map1, map2 map[string]int) map[string]int] *)
Section MergeMaps.
(** The orders in which the two [range] loops visit their map. *)
Variables order1 order2 : gmap string Z -> list (string * Z).

Definition MergeMaps (map1 map2 : GoMap.ref)
  : Go (gmap GoMap.loc (gmap string Z)) GoMap.ref :=
  result ← GoMap.make;
  GoMap.range order1 map1 (fun k v => GoMap.store result k v);;
  GoMap.range order2 map2 (fun k v => GoMap.store result k v);;
  mret result.
End MergeMaps.

(** The maps of [DemonstrateSolutions],
    [m1 := map[string]int{"a": 1, "b": 2}] and
    [m2 := map[string]int{"b": 3, "c": 4}], in a heap of their own. *)
Definition demo_m1 : GoMap.ref := GoMap.at_loc 1%positive.
Definition demo_m2 : GoMap.ref := GoMap.at_loc 2%positive.
Definition demo_heap : gmap GoMap.loc (gmap string Z) :=
  <[1%positive := <["a" := 1]> (<["b" := 2]> ∅)]>
    (<[2%positive := <["b" := 3]> (<["c" := 4]> ∅)]> ∅).

(** [func Fibonacci(n int) int].  The loop
    [for i := 2; i <= n; i++ { prev, curr = curr, prev+curr }]
    runs on fuel: one unit for each evaluation of its condition. *)
Fixpoint Fibonacci_loop (fuel : nat) (n i prev curr : Z) : option Z :=
  match fuel with
  | O => None
  | S fuel' =>
      if i <=? n
      then Fibonacci_loop fuel' n (GoInt.add i 1) curr (GoInt.add prev curr)
      else Some curr
  end.

Definition Fibonacci (fuel : nat) (n : Z) : option Z :=
  if n =? 0 then Some 0
  else if n =? 1 then Some 1
  else Fibonacci_loop fuel n 2 0 1.

(** [func AlternativeFibonacciRecursive(n int) int]; the fuel bounds
    the depth of the recursion. *)
Fixpoint AlternativeFibonacciRecursive (fuel : nat) (n : Z) : option Z :=
  match fuel with
  | O => None
  | S fuel' =>
      if n <=? 1 then Some n
      else
        match AlternativeFibonacciRecursive fuel' (GoInt.sub n 1),
              AlternativeFibonacciRecursive fuel' (GoInt.sub n 2) with
        | Some a, Some b => Some (GoInt.add a b)
        | _, _ => None
        end
  end.

(** The sequence of the comment of [Fibonacci]:
    0, 1, 1, 2, 3, 5, 8, 13, 21, ... over the mathematical integers. *)
Fixpoint fib_sequence (n : nat) : Z :=
  match n with
  | O => 0
  | S n' =>
      match n' with
      | O => 1
      | S n'' => fib_sequence n' + fib_sequence n''
      end
  end.

(** The same sequence, two consecutive terms at a time. *)
Fixpoint fib_pair (n : nat) : Z * Z :=
  match n with
  | O => (0, 1)
  | S n' => let '(a, b) := fib_pair n' in (b, a + b)
  end.

End BasicsSolutions.

(** ** Values of type [interface{}] *)

(** The dynamic types the exercises distinguish, [VSlice] being
    [[]interface{}], and [VOther] for a value of any other dynamic type,
    which carries the name [%T] prints. *)
#[warnings="-register-all"] Inductive value : Type :=
  | VNil
  | VInt (n : Z)
  | VFloat64 (f : float)
  | VString (s : string)
  | VBool (b : bool)
  | VIntSlice (l : list Z)
  | VFloat64Slice (l : list float)
  | VSlice (l : list value)
  | VOther (type_name : string).

(** Whether the dynamic type is one of [int], [float64], [string] and
    [bool]. *)
Definition int_float64_string_or_bool (v : value) : bool :=
  match v with
  | VInt _ | VFloat64 _ | VString _ | VBool _ => true
  | _ => false
  end.

(** [v.(int)]: panics unless the dynamic type of [v] is [int]. *)
Definition assert_int {S} (v : value) : Go S Z :=
  match v with
  | VInt n => mret n
  | VNil => panic "interface conversion: interface {} is nil, not int"
  | _ => panic "interface conversion: interface {} is not int"
  end.

(** [n, ok := v.(int)]: never panics; the zero value and [false] when the
    dynamic type of [v] is not [int]. *)
Definition assert_int_ok (v : value) : Z * bool :=
  match v with
  | VInt n => (n, true)
  | _ => (0, false)
  end.

(** [s, ok := v.(string)] *)
Definition assert_string_ok (v : value) : string * bool :=
  match v with
  | VString s => (s, true)
  | _ => ("", false)
  end.

(** [v.(string)]: panics unless the dynamic type of [v] is [string]. *)
Definition assert_string {S} (v : value) : Go S string :=
  match v with
  | VString s => mret s
  | VNil => panic "interface conversion: interface {} is nil, not string"
  | _ => panic "interface conversion: interface {} is not string"
  end.

(** [f, ok := v.(float64)] *)
Definition assert_float64_ok (v : value) : float * bool :=
  match v with
  | VFloat64 f => (f, true)
  | _ => (0%float, false)
  end.

(** [v.(float64)]: panics unless the dynamic type of [v] is
    [float64]. *)
Definition assert_float64 {S} (v : value) : Go S float :=
  match v with
  | VFloat64 f => mret f
  | VNil => panic "interface conversion: interface {} is nil, not float64"
  | _ => panic "interface conversion: interface {} is not float64"
  end.

(** [b, ok := v.(bool)] *)
Definition assert_bool_ok (v : value) : bool * bool :=
  match v with
  | VBool b => (b, true)
  | _ => (false, false)
  end.

(** ** The parts of Go's standard library the exercises call *)

Module unicode.

Definition byte (z : Z) : ascii := ascii_of_N (Z.to_N z).

Definition MaxRune : Z := 0x10FFFF.
Definition RuneError : Z := 0xFFFD.

Definition valid_rune (r : Z) : bool :=
  (0 <=? r) && (r <=? MaxRune) && negb ((0xD800 <=? r) && (r <=? 0xDFFF)).

(** The UTF-8 encoding of a valid code point. *)
Definition encode (r : Z) : string :=
  if r <=? 0x7F then
    String (byte r) ""
  else if r <=? 0x7FF then
    String (byte (Z.lor 0xC0 (Z.shiftr r 6)))
      (String (byte (Z.lor 0x80 (Z.land r 0x3F))) "")
  else if r <=? 0xFFFF then
    String (byte (Z.lor 0xE0 (Z.shiftr r 12)))
      (String (byte (Z.lor 0x80 (Z.land (Z.shiftr r 6) 0x3F)))
        (String (byte (Z.lor 0x80 (Z.land r 0x3F))) ""))
  else
    String (byte (Z.lor 0xF0 (Z.shiftr r 18)))
      (String (byte (Z.lor 0x80 (Z.land (Z.shiftr r 12) 0x3F)))
        (String (byte (Z.lor 0x80 (Z.land (Z.shiftr r 6) 0x3F)))
          (String (byte (Z.lor 0x80 (Z.land r 0x3F))) ""))).

(** The conversion [string(n)] of an integer: the UTF-8 encoding of the
    code point [n], of U+FFFD when [n] is not a valid code point. *)
Definition string_of_int (n : Z) : string :=
  if valid_rune n then encode n else encode RuneError.

End unicode.

Module math.

(** [math.Pi] as a [float64]. *)
Definition Pi : float := 0x1.921fb54442d18p+1%float.

End math.

Module fmt.

(** The digits of a natural number, at least [width] of them. *)
Definition digits (width : nat) (n : Z) : string :=
  let s := pretty n in
  String.string_of_list_ascii (replicate (width - String.length s) "0"%char) +:+ s.

(** [m * 2 ^ e * 100] rounded to the nearest integer, ties to even. *)
Definition hundredths (m e : Z) : Z :=
  if 0 <=? e then m * 2 ^ e * 100
  else
    let d := 2 ^ (- e) in
    let q := (m * 100) / d in
    let r := (m * 100) mod d in
    if 2 * r <? d then q
    else if d <? 2 * r then q + 1
    else if Z.even q then q else q + 1.

(** The verb [%.2f] of [fmt.Sprintf] and [fmt.Printf] on a [float64]. *)
Definition float_2f (f : float) : string :=
  match Prim2SF f with
  | S754_nan => "NaN"
  | S754_infinity false => "+Inf"
  | S754_infinity true => "-Inf"
  | S754_zero false => "0.00"
  | S754_zero true => "-0.00"
  | S754_finite s m e =>
      let h := hundredths (Z.pos m) e in
      (if s then "-" else "") +:+ digits 1 (h / 100) +:+ "." +:+ digits 2 (h mod 100)
  end.

End fmt.

Module strconv.

Inductive Err : Type := ErrSyntax | ErrRange.

(** [*strconv.NumError] *)
Record NumError : Type := { Func : string; Num : string; Cause : Err }.

Definition digit (c : ascii) : option Z :=
  let n := Z.of_N (N_of_ascii c) in
  if (48 <=? n) && (n <=? 57) then Some (n - 48) else None.

Definition maxUint64 : Z := 2 ^ 64 - 1.

(** The digit loop of [ParseUint(s, 10, 64)]: a character that is not a
    decimal digit is a syntax error; a value that leaves the range of
    [uint64] is a range error, reported where it is met. *)
Fixpoint ParseUint_loop (n : Z) (s : string) : Z * option Err :=
  match s with
  | EmptyString => (n, None)
  | String c s' =>
      match digit c with
      | None => (0, Some ErrSyntax)
      | Some d =>
          if n >=? maxUint64 / 10 + 1 then (maxUint64, Some ErrRange)
          else
            let n1 := n * 10 + d in
            if n1 >? maxUint64 then (maxUint64, Some ErrRange)
            else ParseUint_loop n1 s'
      end
  end.

Definition ParseUint (s : string) : Z * option Err :=
  match s with
  | EmptyString => (0, Some ErrSyntax)
  | _ => ParseUint_loop 0 s
  end.

(** [strconv.Atoi(s)], which is [ParseInt(s, 10, 0)] with the error
    renamed (its fast path for short strings computes the same): an
    optional sign, then decimal digits; the value is clamped on a range
    error. *)
Definition Atoi (s : string) : Z * option NumError :=
  let fail e := Some {| Func := "Atoi"; Num := s; Cause := e |} in
  match s with
  | EmptyString => (0, fail ErrSyntax)
  | String c rest =>
      let neg := if Ascii.eqb c "-" then true else false in
      let body := if Ascii.eqb c "+" || Ascii.eqb c "-" then rest else s in
      match ParseUint body with
      | (_, Some ErrSyntax) => (0, fail ErrSyntax)
      | (un, _) =>
          if negb neg && (un >=? 2 ^ (GoInt.intSize - 1)) then
            (GoInt.MaxInt, fail ErrRange)
          else if neg && (un >? 2 ^ (GoInt.intSize - 1)) then
            (GoInt.MinInt, fail ErrRange)
          else
            (if neg then - un else un, None)
      end
  end.

(** [strconv.Itoa(n)], also the verb [%d] of [fmt.Sprintf] on an [int]:
    the decimal digits of [n], after a minus sign when [n] is
    negative. *)
Definition Itoa (n : Z) : string := pretty n.

(** What it is for a string to parse as an integer, in words: the string
    is an optional sign followed by at least one decimal digit, and the
    number it denotes is an [int]. *)
Fixpoint decimal (acc : Z) (s : string) : option Z :=
  match s with
  | EmptyString => Some acc
  | String c s' =>
      match digit c with
      | Some d => decimal (acc * 10 + d) s'
      | None => None
      end
  end.

Definition denoted_integer (s : string) : option Z :=
  match s with
  | EmptyString => None
  | String c rest =>
      let body := if Ascii.eqb c "+" || Ascii.eqb c "-" then rest else s in
      match body with
      | EmptyString => None
      | _ =>
          match decimal 0 body with
          | Some n => Some (if Ascii.eqb c "-" then - n else n)
          | None => None
          end
      end
  end.

Definition parses_as_int (s : string) : option Z :=
  match denoted_integer s with
  | Some z => if (GoInt.MinInt <=? z) && (z <=? GoInt.MaxInt) then Some z else None
  | None => None
  end.

End strconv.

(** The conversion [int(f)] of a [float64]: the fraction is discarded
    (truncation towards zero).  When the truncated value is not an [int],
    or [f] is an infinity or a NaN, the language leaves the result to the
    implementation; amd64 gives the least [int]. *)
Definition truncate (f : float) : option Z :=
  match Prim2SF f with
  | S754_zero _ => Some 0
  | S754_finite s m e =>
      let a := if 0 <=? e then Z.pos m * 2 ^ e else Z.pos m / 2 ^ (- e) in
      Some (if s then - a else a)
  | _ => None
  end.

Definition int_of_float64 (f : float) : Z :=
  match truncate f with
  | Some z => if (GoInt.MinInt <=? z) && (z <=? GoInt.MaxInt) then z else GoInt.MinInt
  | None => GoInt.MinInt
  end.

(** The conversion [float64(n)] of an [int]: the [float64] nearest to
    [n], the one with an even significand when two are as near. *)
Definition float64_of_int (n : Z) : float :=
  SF2Prim (binary_normalize prec emax n 0 false).

(** What it is for an integer to be a [float64] truncated, in words.
    The number a [float64] denotes is the rational [m * 2 ^ e], with its
    sign; a NaN and the infinities denote none.  The truncation of a
    rational is the integer next to it on the side of 0: its fraction is
    discarded. *)
Definition float64_value (f : float) : option Q :=
  match Prim2SF f with
  | S754_zero _ => Some 0%Q
  | S754_finite s m e =>
      let a := (inject_Z (Z.pos m) * 2 ^ e)%Q in
      Some (if s then - a else a)%Q
  | _ => None
  end.

Definition is_truncation (q : Q) (z : Z) : Prop :=
  ((0 <= q)%Q -> (inject_Z z <= q)%Q /\ (q < inject_Z z + 1)%Q) /\
  ((q <= 0)%Q -> (inject_Z z - 1 < q)%Q /\ (q <= inject_Z z)%Q).

(** ** Module 02, exercises: exercise1_shapes.go and
       exercise2_type_assertions.go (package [exercises]) *)

Module Exercises.

(** The state the package writes to: the bytes sent to the standard
    output so far. *)
Definition stdout : Type := string.

(** [fmt.Printf], its text already formatted. *)
Definition Printf (text : string) : Go stdout unit :=
  fun out => (Returns tt, out +:+ text).

(** A pointer to a value that the package only reads: the nil pointer, or
    the address of the value. *)
Inductive pointer (T : Type) : Type :=
  | null
  | address_of (v : T).
Arguments null {T}.
Arguments address_of {T} v.

(** The run-time error of a method call on the nil interface and of a
    field read through a nil pointer. *)
Definition nil_dereference : string :=
  "invalid memory address or nil pointer dereference".

(** [type Shape interface { Area() float64; Perimeter() float64;
    Name() string }]: a type is a [Shape] when it has the three
    methods.  A method returns or panics; the methods of the package
    read their receiver and nothing else. *)
Class Shape (T : Type) : Type := {
  Area : T -> outcome float;
  Perimeter : T -> outcome float;
  Name : T -> outcome string
}.

(** [Circle] has no method [Name] in the exercise, so it is not a
    [Shape]; its two methods stand alone. *)
Record Circle : Type := { Radius : float }.

Definition Circle_Area (c : Circle) : float := (math.Pi * Radius c)%float.
Definition Circle_Perimeter (c : Circle) : float := (2 * math.Pi * Radius c)%float.

Record Square : Type := { Side : float }.

#[global] Instance Square_Shape : Shape Square := {|
  Area s := Returns (Side s * Side s)%float;
  Perimeter s := Returns (2 * Side s)%float;
  Name _ := Returns "Square"
|}.

Record Triangle : Type := { Base : float; Height : float }.

#[global] Instance Triangle_Shape : Shape Triangle := {|
  Area t := Returns (0.5 * Base t * Height t)%float;
  Perimeter t := Returns (Base t + Height t)%float;
  Name _ := Returns "Triangle"
|}.

(** The methods of [T] are methods of [*T] as well: the call copies the
    receiver, which panics on the nil pointer.  So [*Square] and
    [*Triangle] are [Shape]s. *)
#[global] Instance Pointer_Shape `{Shape T} : Shape (pointer T) := {|
  Area p :=
    match p with
    | address_of v => Area v
    | null => Panics nil_dereference
    end;
  Perimeter p :=
    match p with
    | address_of v => Perimeter v
    | null => Panics nil_dereference
    end;
  Name p :=
    match p with
    | address_of v => Name v
    | null => Panics nil_dereference
    end
|}.

Record Ellipse : Type := { MajorAxis : float; MinorAxis : float }.

(** The methods of [*Ellipse]: [Area] and [Perimeter] read the fields
    of the receiver, which panics on the nil pointer; [Name] does not
    read it.  [Ellipse] itself has no method.  [math.Pow] is a
    parameter. *)
Section Ellipse.
Variable math_Pow : float -> float -> float.

Definition Ellipse_Shape : Shape (pointer Ellipse) := {|
  Area e :=
    match e with
    | address_of e => Returns (math.Pi * MajorAxis e * MinorAxis e)%float
    | null => Panics nil_dereference
    end;
  Perimeter e :=
    match e with
    | address_of e =>
        let h := (math_Pow (MajorAxis e - MinorAxis e) 2
                  / math_Pow (MajorAxis e + MinorAxis e) 2)%float in
        Returns (math.Pi * (MajorAxis e + MinorAxis e)
                 * (1 + 3 * h / (10 + PrimFloat.sqrt (4 - 3 * h))))%float
    | null => Panics nil_dereference
    end;
  Name _ := Returns "Ellipse"
|}.
End Ellipse.

(** A value of the interface type [Shape]: nil, or a value of a type
    that has the three methods.  A method call on the nil interface
    panics; on any other value it is the method of the type the value
    has. *)
Record AnyShape : Type := PackShape {
  shape_type : Type;
  shape_methods : Shape shape_type;
  shape_value : shape_type
}.

#[global] Instance Interface_Shape : Shape (option AnyShape) := {|
  Area s :=
    match s with
    | Some p => @Area (shape_type p) (shape_methods p) (shape_value p)
    | None => Panics nil_dereference
    end;
  Perimeter s :=
    match s with
    | Some p => @Perimeter (shape_type p) (shape_methods p) (shape_value p)
    | None => Panics nil_dereference
    end;
  Name s :=
    match s with
    | Some p => @Name (shape_type p) (shape_methods p) (shape_value p)
    | None => Panics nil_dereference
    end
|}.

(** [func PrintShapeInfo(s Shape)]: the three methods are called, from
    left to right, before anything is written. *)
Definition PrintShapeInfo `{Shape T} (s : T) : Go stdout unit :=
  name ← call (Name s);
  area ← call (Area s);
  perimeter ← call (Perimeter s);
  Printf (name +:+ ": Area = " +:+ fmt.float_2f area
          +:+ ", Perimeter = " +:+ fmt.float_2f perimeter
          +:+ String (unicode.byte 10) "").

(** [func CompareShapes(s1, s2 Shape) int], as the exercise has it. *)
Definition CompareShapes {S} `{Shape T1} `{Shape T2} (s1 : T1) (s2 : T2) : Go S Z :=
  area1 ← call (Area s1);
  area2 ← call (Area s2);
  if PrimFloat.ltb area1 area2 then mret 1
  else if PrimFloat.ltb area2 area1 then mret (-1)
  else mret 0.

(** [func Stringify(v interface{}) string], as the exercise has it:
    the [int] case converts with [string(val)]. *)
Definition Stringify {S} (v : value) : Go S string :=
  match v with
  | VString val => mret val
  | VInt val => mret (unicode.string_of_int val)
  | VFloat64 val => mret (fmt.float_2f val)
  | VBool val => if val then mret "true" else mret "false"
  | _ => mret "unknown"
  end.

(** [func GetIntValue(v interface{}) int], as the exercise has it:
    [value := v.(int); return value]. *)
Definition GetIntValue {S} (v : value) : Go S Z :=
  value ← assert_int v;
  mret value.

(** [func TotalArea(shapes []Shape) float64] *)
Definition TotalArea_body {S} (shape : option AnyShape) (total : float) : Go S float :=
  area ← call (Area shape);
  mret (total + area)%float.

Definition TotalArea {S} (shapes : list (option AnyShape)) : Go S float :=
  fold_each shapes TotalArea_body 0%float.

(** [func FindLargestShape(shapes []Shape) Shape], as the exercise has
    it: the loop tests [i > 0], not the areas. *)
Definition FindLargestShape_body {S} (shapes : list (option AnyShape)) (i : Z)
    (largest : option AnyShape) : Go S (option AnyShape) :=
  if i >? 0 then index_slice shapes i else mret largest.

Definition FindLargestShape {S} (shapes : list (option AnyShape))
  : Go S (option AnyShape) :=
  match shapes with
  | [] => mret None
  | first :: _ =>
      fold_count 1 (Z.of_nat (length shapes)) (FindLargestShape_body shapes) first
  end.

(** [type ShapeStats struct]; the zero [ShapeStats{}] has every field
    zero. *)
Record ShapeStats : Type := {
  stats_Count : Z;
  stats_TotalArea : float;
  stats_MinArea : float;
  stats_MaxArea : float;
  stats_AvgArea : float
}.

(** [func CalculateStats(shapes []Shape) ShapeStats], as the exercise
    has it: [MinArea] starts at [0.0]. *)
Definition CalculateStats_body {S} (shape : option AnyShape) (stats : ShapeStats)
  : Go S ShapeStats :=
  area ← call (Area shape);
  let stats :=
    {| stats_Count := stats_Count stats;
       stats_TotalArea := (stats_TotalArea stats + area)%float;
       stats_MinArea := stats_MinArea stats;
       stats_MaxArea := stats_MaxArea stats;
       stats_AvgArea := stats_AvgArea stats |} in
  let stats :=
    if PrimFloat.ltb area (stats_MinArea stats)
    then {| stats_Count := stats_Count stats;
            stats_TotalArea := stats_TotalArea stats;
            stats_MinArea := area;
            stats_MaxArea := stats_MaxArea stats;
            stats_AvgArea := stats_AvgArea stats |}
    else stats in
  let stats :=
    if PrimFloat.ltb (stats_MaxArea stats) area
    then {| stats_Count := stats_Count stats;
            stats_TotalArea := stats_TotalArea stats;
            stats_MinArea := stats_MinArea stats;
            stats_MaxArea := area;
            stats_AvgArea := stats_AvgArea stats |}
    else stats in
  mret stats.

Definition CalculateStats {S} (shapes : list (option AnyShape)) : Go S ShapeStats :=
  match shapes with
  | [] =>
      mret {| stats_Count := 0; stats_TotalArea := 0; stats_MinArea := 0;
              stats_MaxArea := 0; stats_AvgArea := 0 |}
  | _ =>
      stats ← fold_each shapes CalculateStats_body
                {| stats_Count := Z.of_nat (length shapes); stats_TotalArea := 0;
                   stats_MinArea := 0; stats_MaxArea := 0; stats_AvgArea := 0 |};
      mret {| stats_Count := stats_Count stats;
              stats_TotalArea := stats_TotalArea stats;
              stats_MinArea := stats_MinArea stats;
              stats_MaxArea := stats_MaxArea stats;
              stats_AvgArea :=
                (stats_TotalArea stats
                 / float64_of_int (Z.of_nat (length shapes)))%float |}
  end.

(** [func IsNumeric(v interface{}) bool], as the exercise has it. *)
Definition IsNumeric {S} (v : value) : Go S bool :=
  match v with
  | VInt _ => mret false
  | VFloat64 _ => mret false
  | _ => mret true
  end.

(** [func Sum(values interface{}) float64], as the exercise has it:
    there is no case for [[]float64], and the values of an
    [[]interface{}] are asserted to be [float64] without a check. *)
Definition Sum_body {S} (val : value) (total : float) : Go S float :=
  num ← assert_float64 val;
  mret (total + num)%float.

Definition Sum {S} (values : value) : Go S float :=
  match values with
  | VIntSlice v =>
      mret (foldl (fun total num => (total + float64_of_int num)%float) 0%float v)
  | VSlice v => fold_each v Sum_body 0%float
  | _ => mret 0%float
  end.

(** [func ProcessValue(v interface{}) string], as the exercise has it:
    both type assertions are unchecked. *)
Definition ProcessValue {S} (v : value) : Go S string :=
  str ← assert_string v;
  if negb (String.eqb str "") then mret ("String: " +:+ str)
  else
    num ← assert_int v;
    if negb (num =? 0) then mret ("Integer: " +:+ strconv.Itoa num)
    else mret "Unknown".

(** [func GetTypeName(v interface{}) string], as the exercise has it. *)
Definition GetTypeName {S} (v : value) : Go S string :=
  match v with
  | VInt _ => mret "int"
  | VString _ => mret "string"
  | _ => mret "unknown"
  end.

(** An error value, by its message; the nil error is [None]. *)
Definition error : Type := string.

(** [func ConvertToInt(v interface{}) (int, error)], as the exercise has
    it: the error of [strconv.Atoi] is dropped and every path returns a
    nil error. *)
Definition ConvertToInt {S} (v : value) : Go S (Z * option error) :=
  match v with
  | VInt val => mret (val, None)
  | VFloat64 val => mret (int_of_float64 val, None)
  | VString val =>
      let '(result, _) := strconv.Atoi val in
      mret (result, None)
  | VBool val => if val then mret (1, None) else mret (0, None)
  | _ => mret (0, None)
  end.

(** [func Filter(values []interface{}, typeName string) []interface{}],
    as the exercise has it. *)
Definition Filter_body {S} (typeName : string) (v : value) (result : list value)
  : Go S (list value) :=
  if String.eqb typeName "int" then
    val ← assert_int v;
    mret (result ++ [VInt val])
  else if String.eqb typeName "string" then
    val ← assert_string v;
    mret (result ++ [VString val])
  else mret result.

Definition Filter {S} (values : list value) (typeName : string) : Go S (list value) :=
  fold_each values (Filter_body typeName) [].

(** [func Max(values []interface{}) interface{}], as the exercise has
    it. *)
Definition Max_body {S} (values : list value) (i : Z) (max : Z) : Go S Z :=
  v ← index_slice values i;
  val ← assert_int v;
  if val >? max then mret val else mret max.

Definition Max {S} (values : list value) : Go S value :=
  match values with
  | [] => mret VNil
  | first :: _ =>
      max ← assert_int first;
      max ← fold_count 1 (Z.of_nat (length values)) (Max_body values) max;
      mret (VInt max)
  end.

(** [type TypeSafeMap struct { data map[string]interface{} }] and its
    methods, as the exercise has them.  [m.data[key]] with one result
    is the nil interface for a key that is not in the map. *)
Record TypeSafeMap : Type := { data : GoMap.ref }.

Definition NewTypeSafeMap : Go (gmap GoMap.loc (gmap string value)) TypeSafeMap :=
  d ← GoMap.make;
  mret {| data := d |}.

Definition TypeSafeMap_Set (m : TypeSafeMap) (key : string) (v : value)
  : Go (gmap GoMap.loc (gmap string value)) unit :=
  GoMap.store (data m) key v.

Definition TypeSafeMap_GetString (m : TypeSafeMap) (key : string)
  : Go (gmap GoMap.loc (gmap string value)) string :=
  r ← GoMap.index (data m) key;
  assert_string (default VNil r).

Definition TypeSafeMap_GetInt (m : TypeSafeMap) (key : string)
  : Go (gmap GoMap.loc (gmap string value)) Z :=
  r ← GoMap.index (data m) key;
  assert_int (default VNil r).

Definition TypeSafeMap_Contains (m : TypeSafeMap) (key : string)
  : Go (gmap GoMap.loc (gmap string value)) bool :=
  r ← GoMap.index (data m) key;
  mret (match default VNil r with VNil => false | _ => true end).

Definition Count_body (typeName : string) (v : value) (count : Z)
  : Go (gmap GoMap.loc (gmap string value)) Z :=
  if String.eqb typeName "string" then
    assert_string v;;
    mret (GoInt.add count 1)
  else if String.eqb typeName "int" then
    assert_int v;;
    mret (GoInt.add count 1)
  else mret count.

Section Count.
Variable order : gmap string value -> list (string * value).

Definition TypeSafeMap_Count (m : TypeSafeMap) (typeName : string)
  : Go (gmap GoMap.loc (gmap string value)) Z :=
  GoMap.range_fold order (data m) (fun _ v count => Count_body typeName v count) 0.
End Count.

(** The square and the triangle of [TestCalculateStats]. *)
Definition test_shapes : list (option AnyShape) :=
  [Some (PackShape Square Square_Shape {| Side := 10 |});
   Some (PackShape Triangle Triangle_Shape {| Base := 10; Height := 8 |})].

(** The nil [*Ellipse] as a [Shape]: an interface that is not nil and
    holds a nil pointer. *)
Definition nil_Ellipse (math_Pow : float -> float -> float) : option AnyShape :=
  Some (PackShape (pointer Ellipse) (Ellipse_Shape math_Pow) null).

(** *** The functions of the two files, as calls in one world

    What a function of the package can touch: the standard output and
    the maps in memory. *)
Record world : Type := { output : stdout; maps : gmap GoMap.loc (gmap string value) }.

(** A function on the standard output, and a function on the maps, in
    the world. *)
Definition on_output {A} (m : Go stdout A) : Go world A := fun w =>
  let '(r, out) := m (output w) in (r, {| output := out; maps := maps w |}).

Definition on_maps {A} (m : Go (gmap GoMap.loc (gmap string value)) A) : Go world A :=
  fun w =>
    let '(r, h) := m (maps w) in (r, {| output := output w; maps := h |}).

(** A call of a function or of a method of the two files, with its
    arguments; the methods of the shapes are called on a value of type
    [Shape].  [ScaleShape] is not among them: its case [Circle] is
    impossible as long as [Circle] has no method [Name], and the file is
    rejected by the compiler for it. *)
Inductive exercise_call : Type :=
  | call_Circle_Area (c : Circle)
  | call_Circle_Perimeter (c : Circle)
  | call_Area (s : option AnyShape)
  | call_Perimeter (s : option AnyShape)
  | call_Name (s : option AnyShape)
  | call_PrintShapeInfo (s : option AnyShape)
  | call_TotalArea (shapes : list (option AnyShape))
  | call_FindLargestShape (shapes : list (option AnyShape))
  | call_CalculateStats (shapes : list (option AnyShape))
  | call_CompareShapes (s1 s2 : option AnyShape)
  | call_Stringify (v : value)
  | call_GetIntValue (v : value)
  | call_IsNumeric (v : value)
  | call_Sum (values : value)
  | call_ProcessValue (v : value)
  | call_GetTypeName (v : value)
  | call_ConvertToInt (v : value)
  | call_Filter (values : list value) (typeName : string)
  | call_Max (values : list value)
  | call_NewTypeSafeMap
  | call_Set (m : pointer TypeSafeMap) (key : string) (v : value)
  | call_GetString (m : pointer TypeSafeMap) (key : string)
  | call_GetInt (m : pointer TypeSafeMap) (key : string)
  | call_Contains (m : pointer TypeSafeMap) (key : string)
  | call_Count (m : pointer TypeSafeMap) (typeName : string).

(** What a call returns. *)
Inductive result : Type :=
  | no_result
  | float64_result (f : float)
  | string_result (s : string)
  | int_result (n : Z)
  | bool_result (b : bool)
  | int_error_result (n : Z) (err : option error)
  | value_result (v : value)
  | values_result (l : list value)
  | shape_result (s : option AnyShape)
  | stats_result (stats : ShapeStats)
  | map_result (m : pointer TypeSafeMap).

Definition returning {S A} (as_result : A -> result) (m : Go S A) : Go S result :=
  a ← m;
  mret (as_result a).

(** A method of [*TypeSafeMap]: each of them reads the field [data] of
    its receiver first, which panics on the nil pointer. *)
Definition on_receiver {S A} (m : pointer TypeSafeMap) (method : TypeSafeMap -> Go S A)
  : Go S A :=
  match m with
  | null => panic nil_dereference
  | address_of m => method m
  end.

(** The call in the world; [order] is the order in which [range] visits
    a map. *)
Definition run (order : gmap string value -> list (string * value)) (c : exercise_call)
  : Go world result :=
  match c with
  | call_Circle_Area c => mret (float64_result (Circle_Area c))
  | call_Circle_Perimeter c => mret (float64_result (Circle_Perimeter c))
  | call_Area s => returning float64_result (call (Area s))
  | call_Perimeter s => returning float64_result (call (Perimeter s))
  | call_Name s => returning string_result (call (Name s))
  | call_PrintShapeInfo s => on_output (returning (fun _ => no_result) (PrintShapeInfo s))
  | call_TotalArea shapes => returning float64_result (TotalArea shapes)
  | call_FindLargestShape shapes => returning shape_result (FindLargestShape shapes)
  | call_CalculateStats shapes => returning stats_result (CalculateStats shapes)
  | call_CompareShapes s1 s2 => returning int_result (CompareShapes s1 s2)
  | call_Stringify v => returning string_result (Stringify v)
  | call_GetIntValue v => returning int_result (GetIntValue v)
  | call_IsNumeric v => returning bool_result (IsNumeric v)
  | call_Sum values => returning float64_result (Sum values)
  | call_ProcessValue v => returning string_result (ProcessValue v)
  | call_GetTypeName v => returning string_result (GetTypeName v)
  | call_ConvertToInt v => returning (fun r => int_error_result r.1 r.2) (ConvertToInt v)
  | call_Filter values typeName => returning values_result (Filter values typeName)
  | call_Max values => returning value_result (Max values)
  | call_NewTypeSafeMap =>
      on_maps (returning (fun m => map_result (address_of m)) NewTypeSafeMap)
  | call_Set m key v =>
      on_receiver m (fun m =>
        on_maps (returning (fun _ => no_result) (TypeSafeMap_Set m key v)))
  | call_GetString m key =>
      on_receiver m (fun m =>
        on_maps (returning string_result (TypeSafeMap_GetString m key)))
  | call_GetInt m key =>
      on_receiver m (fun m =>
        on_maps (returning int_result (TypeSafeMap_GetInt m key)))
  | call_Contains m key =>
      on_receiver m (fun m =>
        on_maps (returning bool_result (TypeSafeMap_Contains m key)))
  | call_Count m typeName =>
      on_receiver m (fun m =>
        on_maps (returning int_result (TypeSafeMap_Count order m typeName)))
  end.

(** What a call does besides computing its result from its arguments:
    nothing; or it reads a map; or it writes to a map; or it makes a
    map; or it writes to the standard output. *)
Inductive effect : Type :=
  | no_effect
  | reads_map (m : GoMap.ref)
  | writes_map (m : GoMap.ref)
  | makes_map
  | prints.

Definition effect_of (c : exercise_call) : effect :=
  match c with
  | call_PrintShapeInfo _ => prints
  | call_NewTypeSafeMap => makes_map
  | call_Set (address_of m) _ _ => writes_map (data m)
  | call_GetString (address_of m) _ | call_GetInt (address_of m) _
  | call_Contains (address_of m) _ | call_Count (address_of m) _ =>
      reads_map (data m)
  | _ => no_effect
  end.

End Exercises.

(** ** Module 02, solutions: exercise2_type_assertions.go *)

Module Solutions.

(** [func GetIntValue(v interface{}) int] *)
Definition GetIntValue {S} (v : value) : Go S Z :=
  let '(value, ok) := assert_int_ok v in
  if ok then mret value else mret 0.

(** An error made by [fmt.Errorf]: the format, the operand, and the
    error wrapped by [%w], if any. *)
Record error : Type := {
  format : string;
  operand : value;
  wrapped : option strconv.NumError
}.

(** [func ConvertToInt(v interface{}) (int, error)]; a nil error is
    [None]. *)
Definition ConvertToInt {S} (v : value) : Go S (Z * option error) :=
  match v with
  | VInt val => mret (val, None)
  | VFloat64 val => mret (int_of_float64 val, None)
  | VString val =>
      let '(result, err) := strconv.Atoi val in
      match err with
      | Some e =>
          mret (0, Some {| format := "cannot convert string %q to int: %w";
                           operand := VString val; wrapped := Some e |})
      | None => mret (result, None)
      end
  | VBool val => if val then mret (1, None) else mret (0, None)
  | _ =>
      mret (0, Some {| format := "cannot convert type %T to int";
                       operand := v; wrapped := None |})
  end.

(** [type TypeSafeMap struct { data map[string]interface{} }].  The
    methods have pointer receivers and never assign to the field, so a
    [*TypeSafeMap] is modelled by the struct it points to; the map it
    refers to lives in the heap. *)
Record TypeSafeMap : Type := { data : GoMap.ref }.

(** [func NewTypeSafeMap() *TypeSafeMap] *)
Definition NewTypeSafeMap : Go (gmap GoMap.loc (gmap string value)) TypeSafeMap :=
  d ← GoMap.make;
  mret {| data := d |}.

(** [func (m *TypeSafeMap) Set(key string, value interface{})] *)
Definition TypeSafeMap_Set (m : TypeSafeMap) (key : string) (v : value)
  : Go (gmap GoMap.loc (gmap string value)) unit :=
  GoMap.store (data m) key v.

(** [func (m *TypeSafeMap) GetString(key string) string] *)
Definition TypeSafeMap_GetString (m : TypeSafeMap) (key : string)
  : Go (gmap GoMap.loc (gmap string value)) string :=
  r ← GoMap.index (data m) key;
  match r with
  | None => mret ""
  | Some v =>
      let '(str, ok) := assert_string_ok v in
      if ok then mret str else mret ""
  end.

(** [func (m *TypeSafeMap) GetInt(key string) int] *)
Definition TypeSafeMap_GetInt (m : TypeSafeMap) (key : string)
  : Go (gmap GoMap.loc (gmap string value)) Z :=
  r ← GoMap.index (data m) key;
  match r with
  | None => mret 0
  | Some v =>
      let '(num, ok) := assert_int_ok v in
      if ok then mret num else mret 0
  end.

(** [func (m *TypeSafeMap) Contains(key string) bool] *)
Definition TypeSafeMap_Contains (m : TypeSafeMap) (key : string)
  : Go (gmap GoMap.loc (gmap string value)) bool :=
  r ← GoMap.index (data m) key;
  mret (bool_decide (is_Some r)).

(** [func Stringify(v interface{}) string] *)
Definition Stringify {S} (v : value) : Go S string :=
  match v with
  | VNil => mret "<nil>"
  | VString val => mret val
  | VInt val => mret (strconv.Itoa val)
  | VFloat64 val => mret (fmt.float_2f val)
  | VBool val => if val then mret "true" else mret "false"
  | _ => mret "unknown"
  end.

(** [func IsNumeric(v interface{}) bool] *)
Definition IsNumeric {S} (v : value) : Go S bool :=
  match v with
  | VInt _ => mret true
  | VFloat64 _ => mret true
  | _ => mret false
  end.

(** [func Sum(values interface{}) float64]; in an [[]interface{}] the
    values that are neither [int] nor [float64] are skipped. *)
Definition Sum_step (total : float) (val : value) : float :=
  match val with
  | VInt num => (total + float64_of_int num)%float
  | VFloat64 num => (total + num)%float
  | _ => total
  end.

Definition Sum {S} (values : value) : Go S float :=
  match values with
  | VIntSlice v =>
      mret (foldl (fun total num => (total + float64_of_int num)%float) 0%float v)
  | VFloat64Slice v => mret (foldl (fun total num => (total + num)%float) 0%float v)
  | VSlice v => mret (foldl Sum_step 0%float v)
  | _ => mret 0%float
  end.

(** [func ProcessValue(v interface{}) string] *)
Definition ProcessValue {S} (v : value) : Go S string :=
  let '(str, ok) := assert_string_ok v in
  if ok then mret ("String: " +:+ str)
  else
    let '(num, ok) := assert_int_ok v in
    if ok then mret ("Integer: " +:+ strconv.Itoa num)
    else mret "Unknown".

(** [func GetTypeName(v interface{}) string] *)
Definition GetTypeName {S} (v : value) : Go S string :=
  match v with
  | VInt _ => mret "int"
  | VString _ => mret "string"
  | VFloat64 _ => mret "float64"
  | VBool _ => mret "bool"
  | VIntSlice _ => mret "[]int"
  | _ => mret "unknown"
  end.

(** [func Filter(values []interface{}, typeName string) []interface{}];
    the body of its loop is the [switch] on [typeName]. *)
Definition Filter_body {S} (typeName : string) (v : value) (result : list value)
  : Go S (list value) :=
  if String.eqb typeName "int" then
    let '(val, ok) := assert_int_ok v in
    if ok then mret (result ++ [VInt val]) else mret result
  else if String.eqb typeName "string" then
    let '(val, ok) := assert_string_ok v in
    if ok then mret (result ++ [VString val]) else mret result
  else if String.eqb typeName "float64" then
    let '(val, ok) := assert_float64_ok v in
    if ok then mret (result ++ [VFloat64 val]) else mret result
  else if String.eqb typeName "bool" then
    let '(val, ok) := assert_bool_ok v in
    if ok then mret (result ++ [VBool val]) else mret result
  else mret result.

Definition Filter {S} (values : list value) (typeName : string) : Go S (list value) :=
  fold_each values (Filter_body typeName) [].

(** [func Max(values []interface{}) interface{}] *)
Definition Max_body {S} (values : list value) (i : Z) (max : Z) : Go S Z :=
  v ← index_slice values i;
  let '(val, ok) := assert_int_ok v in
  if ok then
    if val >? max then mret val else mret max
  else mret max.

Definition Max {S} (values : list value) : Go S value :=
  match values with
  | [] => mret VNil
  | first :: _ =>
      let '(max, ok) := assert_int_ok first in
      if negb ok then mret VNil
      else
        max ← fold_count 1 (Z.of_nat (length values)) (Max_body values) max;
        mret (VInt max)
  end.

(** [func (m *TypeSafeMap) Count(typeName string) int] *)
Definition Count_body (typeName : string) (v : value) (count : Z)
  : Go (gmap GoMap.loc (gmap string value)) Z :=
  if String.eqb typeName "string" then
    if (assert_string_ok v).2 then mret (GoInt.add count 1) else mret count
  else if String.eqb typeName "int" then
    if (assert_int_ok v).2 then mret (GoInt.add count 1) else mret count
  else if String.eqb typeName "float64" then
    if (assert_float64_ok v).2 then mret (GoInt.add count 1) else mret count
  else if String.eqb typeName "bool" then
    if (assert_bool_ok v).2 then mret (GoInt.add count 1) else mret count
  else mret count.

Section Count.
Variable order : gmap string value -> list (string * value).

Definition TypeSafeMap_Count (m : TypeSafeMap) (typeName : string)
  : Go (gmap GoMap.loc (gmap string value)) Z :=
  GoMap.range_fold order (data m) (fun _ v count => Count_body typeName v count) 0.
End Count.

(** What the [switch] of [Filter] and of [Count] tests of a value: the
    type name is one of the four cases and the assertion of that case
    succeeds. *)
Definition switch_matches (typeName : string) (v : value) : bool :=
  if String.eqb typeName "int" then (assert_int_ok v).2
  else if String.eqb typeName "string" then (assert_string_ok v).2
  else if String.eqb typeName "float64" then (assert_float64_ok v).2
  else if String.eqb typeName "bool" then (assert_bool_ok v).2
  else false.

(** What one round of the loop of [Max] leaves in [max]. *)
Definition greater_int (max : Z) (v : value) : Z :=
  match v with
  | VInt val => if val >? max then val else max
  | _ => max
  end.

(** The map of [TestTypeSafeMapCount], in a heap of its own, and the
    slice of [TestFilter]. *)
Definition test_map : TypeSafeMap := {| data := GoMap.at_loc 1%positive |}.
Definition test_heap : gmap GoMap.loc (gmap string value) :=
  <[1%positive :=
      <["name" := VString "Alice"]> (<["city" := VString "NYC"]>
        (<["age" := VInt 30]> (<["score" := VInt 95]> ∅)))]> ∅.
Definition test_values : list value :=
  [VInt 1; VString "hello"; VInt 2; VString "world";
   VFloat64 0x1.91eb851eb851fp+1; VBool true; VInt 3].

End Solutions.

(** * Properties *)

(** ** Machine integers *)

Section GoIntFacts.
Import GoInt.

Lemma wrap_id (z : Z) : is_int z -> wrap z = z.
Proof.
  unfold is_int, MinInt, MaxInt, wrap, intSize. intros Hz.
  rewrite Z.mod_small; lia.
Qed.

Lemma wrap_is_int (z : Z) : is_int (wrap z).
Proof.
  unfold is_int, MinInt, MaxInt, wrap, intSize.
  pose proof (Z.mod_pos_bound (z + 2 ^ (64 - 1)) (2 ^ 64) ltac:(lia)). lia.
Qed.

Lemma wrap_mod (z : Z) : wrap z mod 2 ^ intSize = z mod 2 ^ intSize.
Proof.
  unfold wrap. rewrite Zminus_mod_idemp_l. f_equal. lia.
Qed.

Lemma wrap_eqm (a b : Z) : a mod 2 ^ intSize = b mod 2 ^ intSize -> wrap a = wrap b.
Proof.
  intros E. unfold wrap. f_equal.
  rewrite (Zplus_mod a), (Zplus_mod b), E. reflexivity.
Qed.

Lemma wrap_add_wrap (a b : Z) : wrap (wrap a + wrap b) = wrap (a + b).
Proof.
  apply wrap_eqm.
  rewrite Zplus_mod, !wrap_mod, <- Zplus_mod. reflexivity.
Qed.

Lemma add_in_range (a b : Z) : is_int (a + b) -> add a b = a + b.
Proof. apply wrap_id. Qed.

Lemma sub_in_range (a b : Z) : is_int (a - b) -> sub a b = a - b.
Proof. apply wrap_id. Qed.

End GoIntFacts.

(** ** CalculateSum *)

Section CalculateSumFacts.
Import BasicsSolutions.

(** C6, as stated, fails where the sum leaves the range of [int]:
    [CalculateSum(MaxInt, 1)] is [MinInt], not [MaxInt + 1]. *)
Lemma CalculateSum_overflow :
  GoInt.is_int GoInt.MaxInt /\ GoInt.is_int 1 /\
  CalculateSum GoInt.MaxInt 1 = GoInt.MinInt /\
  CalculateSum GoInt.MaxInt 1 <> GoInt.MaxInt + 1.
Proof. vm_compute. repeat split; congruence. Qed.

(** C6, amended: [CalculateSum(3, 5)] returns 8; for all [int]s [a] and
    [b], [CalculateSum(a, b)] is the [int] congruent to [a + b] modulo
    [2 ^ 64], and it is [a + b] whenever [a + b] is an [int]. *)
Theorem CalculateSum_spec :
  CalculateSum 3 5 = 8 /\
  forall a b : Z, GoInt.is_int a -> GoInt.is_int b ->
    GoInt.is_int (CalculateSum a b) /\
    CalculateSum a b mod 2 ^ GoInt.intSize = (a + b) mod 2 ^ GoInt.intSize /\
    (GoInt.is_int (a + b) -> CalculateSum a b = a + b).
Proof.
  split; [reflexivity|]. intros a b _ _. unfold CalculateSum, GoInt.add.
  split; [apply wrap_is_int|]. split; [apply wrap_mod|apply wrap_id].
Qed.

Lemma CalculateSum_spec_witness :
  CalculateSum 3 5 = 8 /\ GoInt.is_int 40 /\ GoInt.is_int 2 /\
  (GoInt.is_int (CalculateSum 40 2) /\
   CalculateSum 40 2 mod 2 ^ GoInt.intSize = (40 + 2) mod 2 ^ GoInt.intSize /\
   (GoInt.is_int (40 + 2) -> CalculateSum 40 2 = 40 + 2)).
Proof.
  assert (GoInt.is_int 40) as H40 by (vm_compute; split; discriminate).
  assert (GoInt.is_int 2) as H2 by (vm_compute; split; discriminate).
  split; [exact (proj1 CalculateSum_spec)|]. split; [exact H40|]. split; [exact H2|].
  exact (proj2 CalculateSum_spec 40 2 H40 H2).
Defined.

End CalculateSumFacts.

(** ** GetGrade *)

Section GetGradeFacts.
Import BasicsSolutions.

(** C5: [GetGrade(85)] returns "B"; for every score, [GetGrade] returns
    "A" when [score >= 90], "B" when [80 <= score < 90], "C" when
    [70 <= score < 80], "D" when [60 <= score < 70], "F" otherwise. *)
Theorem GetGrade_spec :
  GetGrade 85 = "B" /\
  forall score : Z,
    (90 <= score -> GetGrade score = "A") /\
    (80 <= score < 90 -> GetGrade score = "B") /\
    (70 <= score < 80 -> GetGrade score = "C") /\
    (60 <= score < 70 -> GetGrade score = "D") /\
    (score < 60 -> GetGrade score = "F").
Proof.
  split; [reflexivity|]. intros score. unfold GetGrade.
  destruct (Z.geb_spec score 90), (Z.geb_spec score 80),
    (Z.geb_spec score 70), (Z.geb_spec score 60);
    repeat split; intros; first [reflexivity | lia].
Qed.

Lemma GetGrade_spec_witness :
  GetGrade 95 = "A" /\ GetGrade 80 = "B" /\ GetGrade 79 = "C" /\
  GetGrade 60 = "D" /\ GetGrade 59 = "F" /\ GetGrade (-3) = "F".
Proof.
  pose proof (proj2 GetGrade_spec) as H.
  split; [apply (H 95); lia|]. split; [apply (H 80); lia|].
  split; [apply (H 79); lia|]. split; [apply (H 60); lia|].
  split; [apply (H 59); lia|apply (H (-3)); lia].
Defined.

End GetGradeFacts.

(** ** FindMax *)

Section FindMaxFacts.
Import BasicsSolutions.

Lemma FindMax_step_ge (max n : Z) : max <= FindMax_step max n /\ n <= FindMax_step max n.
Proof. unfold FindMax_step. destruct (Z.gtb_spec n max); lia. Qed.

Lemma FindMax_step_cases (max n : Z) :
  FindMax_step max n = max \/ FindMax_step max n = n.
Proof. unfold FindMax_step. destruct (n >? max); auto. Qed.

Lemma foldl_FindMax_lower (l : list Z) (init : Z) :
  init <= foldl FindMax_step init l.
Proof.
  revert init. induction l as [|x l IH]; intros init; simpl; [lia|].
  specialize (IH (FindMax_step init x)).
  pose proof (FindMax_step_ge init x). lia.
Qed.

Lemma foldl_FindMax_upper (l : list Z) (init : Z) :
  Forall (fun x => x <= foldl FindMax_step init l) l.
Proof.
  revert init. induction l as [|x l IH]; intros init; simpl; constructor.
  - pose proof (foldl_FindMax_lower l (FindMax_step init x)).
    pose proof (FindMax_step_ge init x). lia.
  - apply IH.
Qed.

Lemma foldl_FindMax_elem (l : list Z) (init : Z) :
  foldl FindMax_step init l = init \/ In (foldl FindMax_step init l) l.
Proof.
  revert init. induction l as [|x l IH]; intros init; simpl; [auto|].
  destruct (IH (FindMax_step init x)) as [E|E]; [|auto].
  rewrite E. destruct (FindMax_step_cases init x) as [-> | ->]; auto.
Qed.

(** C10: [FindMax] returns 0 for the empty slice, as it does for the
    slice [[0]]; for every non-empty slice it returns an element of the
    slice that is greater than or equal to every element. *)
Theorem FindMax_spec :
  FindMax [] = 0 /\ FindMax [0] = 0 /\
  forall numbers : list Z, numbers <> [] ->
    In (FindMax numbers) numbers /\
    Forall (fun x => x <= FindMax numbers) numbers.
Proof.
  split; [reflexivity|]. split; [reflexivity|].
  intros [|first rest] Hne; [congruence|]. unfold FindMax. split.
  - destruct (foldl_FindMax_elem (first :: rest) first) as [E|E]; [|exact E].
    rewrite E. left. reflexivity.
  - apply foldl_FindMax_upper.
Qed.

Lemma FindMax_spec_witness :
  [-5; -2; -10] <> [] /\
  In (FindMax [-5; -2; -10]) [-5; -2; -10] /\
  Forall (fun x => x <= FindMax [-5; -2; -10]) [-5; -2; -10].
Proof.
  split; [discriminate|].
  apply (proj2 (proj2 FindMax_spec) [-5; -2; -10]). discriminate.
Defined.

Example FindMax_negatives : FindMax [-5; -2; -10] = -2.
Proof. reflexivity. Qed.

End FindMaxFacts.

(** ** Fibonacci *)

Section FibonacciFacts.
Import BasicsSolutions.

Lemma fib_sequence_step (n : nat) :
  fib_sequence (S (S n)) = fib_sequence (S n) + fib_sequence n.
Proof. reflexivity. Qed.

Lemma fib_pair_spec (n : nat) : fib_pair n = (fib_sequence n, fib_sequence (S n)).
Proof.
  induction n as [|n IH]; [reflexivity|].
  cbn [fib_pair]. rewrite IH, fib_sequence_step. f_equal. lia.
Qed.

Lemma fib_sequence_nonneg (n : nat) : 0 <= fib_sequence n /\ 0 <= fib_sequence (S n).
Proof.
  induction n as [|n [IH1 IH2]]; [simpl; lia|].
  split; [exact IH2|]. rewrite fib_sequence_step. lia.
Qed.

Lemma fib_sequence_mono (n m : nat) : (n <= m)%nat -> fib_sequence n <= fib_sequence m.
Proof.
  induction 1 as [|m _ IH]; [lia|].
  etransitivity; [exact IH|]. destruct m as [|m]; [simpl; lia|].
  rewrite fib_sequence_step. pose proof (fib_sequence_nonneg m). lia.
Qed.

Lemma fib_sequence_92_93 :
  fib_sequence 92 = 7540113804746346429 /\
  fib_sequence 93 = 12200160415121876738.
Proof.
  assert (fib_pair 92 = (7540113804746346429, 12200160415121876738)) as E
    by (vm_compute; reflexivity).
  rewrite fib_pair_spec in E. split; congruence.
Qed.

Lemma fib_sequence_is_int (n : nat) : (n <= 92)%nat -> GoInt.is_int (fib_sequence n).
Proof.
  intros Hn. pose proof (fib_sequence_mono n 92 Hn) as Hle.
  rewrite (proj1 fib_sequence_92_93) in Hle. pose proof (fib_sequence_nonneg n).
  unfold GoInt.is_int, GoInt.MinInt, GoInt.MaxInt, GoInt.intSize. lia.
Qed.

(** The loop invariant: on entry to the test with counter [i], [prev]
    and [curr] are terms [i - 2] and [i - 1] of the sequence, reduced
    to [int]. *)
Lemma Fibonacci_loop_spec (k : nat) :
  forall (fuel j : nat) (n : Z),
    n < GoInt.MaxInt ->
    Z.of_nat j + Z.of_nat k = n - 1 ->
    (k < fuel)%nat ->
    Fibonacci_loop fuel n (Z.of_nat j + 2)
      (GoInt.wrap (fib_sequence j)) (GoInt.wrap (fib_sequence (S j)))
    = Some (GoInt.wrap (fib_sequence (Z.to_nat n))).
Proof.
  induction k as [|k IH]; intros fuel j n Hn Hj Hfuel;
    (destruct fuel as [|fuel]; [lia|]); cbn [Fibonacci_loop].
  - destruct (Z.leb_spec (Z.of_nat j + 2) n); [lia|].
    do 3 f_equal. lia.
  - destruct (Z.leb_spec (Z.of_nat j + 2) n); [|lia].
    rewrite add_in_range.
    2:{ unfold GoInt.is_int, GoInt.MinInt, GoInt.MaxInt, GoInt.intSize in *. lia. }
    unfold GoInt.add at 1. rewrite wrap_add_wrap.
    replace (fib_sequence j + fib_sequence (S j)) with (fib_sequence (S (S j)))
      by (rewrite fib_sequence_step; lia).
    replace (Z.of_nat j + 2 + 1) with (Z.of_nat (S j) + 2) by lia.
    apply IH; lia.
Qed.

Lemma Fibonacci_returns (n : Z) (fuel : nat) :
  0 <= n < GoInt.MaxInt -> (Z.to_nat n < fuel)%nat ->
  Fibonacci fuel n = Some (GoInt.wrap (fib_sequence (Z.to_nat n))).
Proof.
  intros Hn Hfuel. unfold Fibonacci.
  destruct (Z.eqb_spec n 0) as [->|]; [reflexivity|].
  destruct (Z.eqb_spec n 1) as [->|]; [reflexivity|].
  apply (Fibonacci_loop_spec (Z.to_nat (n - 1)) fuel 0 n); lia.
Qed.

Lemma AlternativeFibonacciRecursive_returns (fuel : nat) :
  forall n : Z, 0 <= n <= GoInt.MaxInt -> (Z.to_nat n < fuel)%nat ->
    AlternativeFibonacciRecursive fuel n = Some (GoInt.wrap (fib_sequence (Z.to_nat n))).
Proof.
  induction fuel as [|fuel IH]; intros n Hn Hfuel; [lia|].
  cbn [AlternativeFibonacciRecursive].
  destruct (Z.leb_spec n 1).
  - assert (n = 0 \/ n = 1) as [-> | ->] by lia; reflexivity.
  - assert (GoInt.is_int (n - 1) /\ GoInt.is_int (n - 2)) as [H1 H2]
      by (unfold GoInt.is_int, GoInt.MinInt, GoInt.MaxInt, GoInt.intSize in *; lia).
    rewrite !sub_in_range by assumption.
    rewrite !IH by (unfold GoInt.MaxInt, GoInt.intSize in *; lia).
    unfold GoInt.add. rewrite wrap_add_wrap. do 2 f_equal.
    replace (Z.to_nat n) with (S (S (Z.to_nat (n - 2)))) by lia.
    replace (Z.to_nat (n - 1)) with (S (Z.to_nat (n - 2))) by lia.
    rewrite fib_sequence_step. reflexivity.
Qed.

(** The counter of the loop cannot pass the greatest [int]: for that
    argument the iterative function never returns. *)
Lemma Fibonacci_loop_MaxInt (fuel : nat) :
  forall i prev curr : Z, i <= GoInt.MaxInt ->
    Fibonacci_loop fuel GoInt.MaxInt i prev curr = None.
Proof.
  induction fuel as [|fuel IH]; intros i prev curr Hi; [reflexivity|].
  cbn [Fibonacci_loop]. destruct (Z.leb_spec i GoInt.MaxInt); [|lia].
  apply IH. apply wrap_is_int.
Qed.

Lemma Fibonacci_MaxInt_diverges (fuel : nat) : Fibonacci fuel GoInt.MaxInt = None.
Proof.
  unfold Fibonacci. change (GoInt.MaxInt =? 0) with false.
  change (GoInt.MaxInt =? 1) with false. cbv iota.
  apply Fibonacci_loop_MaxInt. unfold GoInt.MaxInt, GoInt.intSize. lia.
Qed.

(** More fuel does not change a result. *)
Lemma Fibonacci_loop_fuel_mono (fuel : nat) :
  forall (fuel' : nat) (n i prev curr r : Z), (fuel <= fuel')%nat ->
    Fibonacci_loop fuel n i prev curr = Some r ->
    Fibonacci_loop fuel' n i prev curr = Some r.
Proof.
  induction fuel as [|fuel IH]; intros fuel' n i prev curr r Hle; [discriminate|].
  destruct fuel' as [|fuel']; [lia|]. cbn [Fibonacci_loop].
  destruct (i <=? n); [|trivial]. apply IH. lia.
Qed.

Lemma Fibonacci_result_unique (n r : Z) (fuel : nat) :
  0 <= n < GoInt.MaxInt -> Fibonacci fuel n = Some r ->
  r = GoInt.wrap (fib_sequence (Z.to_nat n)).
Proof.
  intros Hn Hr.
  assert (Fibonacci (fuel + S (Z.to_nat n)) n = Some r) as Hr'.
  { revert Hr. unfold Fibonacci. destruct (n =? 0); [trivial|].
    destruct (n =? 1); [trivial|]. apply Fibonacci_loop_fuel_mono. lia. }
  rewrite Fibonacci_returns in Hr' by lia. congruence.
Qed.

(** C8, as stated, fails from [n = 93] on: the 93rd term of the
    sequence is not an [int]; [Fibonacci(93)] is negative, whatever the
    fuel. *)
Lemma Fibonacci_93_overflows :
  Fibonacci 100 93 = Some (-6246583658587674878) /\
  fib_sequence 93 = 12200160415121876738 /\
  ~ (exists fuel : nat, Fibonacci fuel 93 = Some (fib_sequence 93)).
Proof.
  split; [vm_compute; reflexivity|]. split; [apply fib_sequence_92_93|].
  intros [fuel H]. apply Fibonacci_result_unique in H.
  - change (Z.to_nat 93) with 93%nat in H.
    rewrite (proj2 fib_sequence_92_93) in H. vm_compute in H. discriminate.
  - vm_compute. split; [discriminate|reflexivity].
Qed.

(** C8, amended: for every [n] with [0 <= n < MaxInt], and fuel above
    [n], [Fibonacci(n)] and [AlternativeFibonacciRecursive(n)] return
    the same [int], the term [n] of the sequence 0, 1, 1, 2, 3, 5, 8,
    13, 21, ... reduced modulo [2 ^ 64]; for [n <= 92] it is that term
    itself. *)
Theorem Fibonacci_agree (n : Z) (fuel : nat) :
  0 <= n < GoInt.MaxInt -> (Z.to_nat n < fuel)%nat ->
  Fibonacci fuel n = Some (GoInt.wrap (fib_sequence (Z.to_nat n))) /\
  AlternativeFibonacciRecursive fuel n = Some (GoInt.wrap (fib_sequence (Z.to_nat n))) /\
  (n <= 92 -> GoInt.wrap (fib_sequence (Z.to_nat n)) = fib_sequence (Z.to_nat n)).
Proof.
  intros Hn Hfuel. split; [apply Fibonacci_returns; assumption|].
  split; [apply AlternativeFibonacciRecursive_returns; [lia|assumption]|].
  intros H92. apply wrap_id, fib_sequence_is_int. lia.
Qed.

Lemma Fibonacci_agree_witness :
  0 <= 8 < GoInt.MaxInt /\ (Z.to_nat 8 < 9)%nat /\
  Fibonacci 9 8 = Some (GoInt.wrap (fib_sequence (Z.to_nat 8))) /\
  AlternativeFibonacciRecursive 9 8 = Some (GoInt.wrap (fib_sequence (Z.to_nat 8))) /\
  (8 <= 92 -> GoInt.wrap (fib_sequence (Z.to_nat 8)) = fib_sequence (Z.to_nat 8)).
Proof.
  assert (0 <= 8 < GoInt.MaxInt) as H1 by (vm_compute; split; reflexivity || discriminate).
  assert (Z.to_nat 8 < 9)%nat as H2 by (vm_compute; lia).
  split; [exact H1|]. split; [exact H2|].
  exact (Fibonacci_agree 8 9 H1 H2).
Defined.

Example Fibonacci_first_terms :
  map (Fibonacci 9) [0; 1; 2; 3; 4; 5; 6; 7; 8]
  = map Some [0; 1; 1; 2; 3; 5; 8; 13; 21] /\
  map (AlternativeFibonacciRecursive 9) [0; 1; 2; 3; 4; 5; 6; 7; 8]
  = map Some [0; 1; 1; 2; 3; 5; 8; 13; 21].
Proof. split; vm_compute; reflexivity. Qed.

End FibonacciFacts.

(** ** MergeMaps *)

Section MapFacts.
Import GoMap.
Context {V : Type}.

Lemma lookup_insert_all (l : list (string * V)) :
  forall (acc : gmap string V) (k : string), NoDup (l.*1) ->
    insert_all l acc !! k
    = match (list_to_map l : gmap string V) !! k with
      | Some v => Some v
      | None => acc !! k
      end.
Proof.
  unfold insert_all.
  induction l as [|[k0 v0] l IH]; intros acc k Hnd.
  - simpl. rewrite lookup_empty. reflexivity.
  - cbn [fmap list_fmap fst] in Hnd. apply NoDup_cons in Hnd as [Hk0 Hnd].
    cbn [foldl fst snd]. rewrite IH by assumption.
    change (list_to_map ((k0, v0) :: l) : gmap string V)
      with (<[k0 := v0]> (list_to_map l : gmap string V)).
    destruct (decide (k0 = k)) as [->|Hne].
    + rewrite !lookup_insert_eq.
      rewrite (not_elem_of_list_to_map_1 _ _ Hk0). reflexivity.
    + rewrite !lookup_insert_ne by assumption. reflexivity.
Qed.

Lemma list_to_map_order (order : gmap string V -> list (string * V)) (m : gmap string V) :
  order m ≡ₚ map_to_list m ->
  NoDup ((order m).*1) /\ (list_to_map (order m) : gmap string V) = m.
Proof.
  intros Hperm.
  assert (NoDup ((order m).*1)) as Hnd.
  { rewrite Hperm. apply NoDup_fst_map_to_list. }
  split; [exact Hnd|].
  rewrite (list_to_map_proper _ _ Hnd Hperm). apply list_to_map_to_list.
Qed.

(** A loop that stores every entry of a list in an allocated map. *)
Lemma for_each_store (l : list (string * V)) :
  forall (r : GoMap.loc) (h : gmap GoMap.loc (gmap string V)) (acc : gmap string V),
    h !! r = Some acc ->
    for_each l (fun kv => GoMap.store (GoMap.at_loc r) kv.1 kv.2) h
    = (Returns tt, <[r := insert_all l acc]> h).
Proof.
  induction l as [|[k v] l IH]; intros r h acc Hr.
  - simpl. rewrite insert_id by assumption. reflexivity.
  - cbn [for_each]. unfold mbind, Go_bind. cbn [GoMap.store GoMap.contents fst snd].
    rewrite Hr. cbn [default from_option id].
    rewrite (IH r _ (<[k := v]> acc)) by apply lookup_insert_eq.
    rewrite insert_insert_eq. reflexivity.
Qed.

Lemma contents_insert_fresh (m : GoMap.ref) (h : gmap GoMap.loc (gmap string V))
    (l : GoMap.loc) (x : gmap string V) :
  GoMap.valid m h -> l ∉ dom h ->
  GoMap.contents m (<[l := x]> h) = GoMap.contents m h.
Proof.
  destruct m as [|l0]; [reflexivity|]. cbn [GoMap.valid GoMap.contents].
  intros Hin Hout. rewrite lookup_insert_ne by set_solver. reflexivity.
Qed.

End MapFacts.

Section MergeMapsFacts.
Import BasicsSolutions.
Import GoMap.

Variables order1 order2 : gmap string Z -> list (string * Z).
Hypothesis order1_enumerates : forall m, order1 m ≡ₚ map_to_list m.
Hypothesis order2_enumerates : forall m, order2 m ≡ₚ map_to_list m.

Lemma MergeMaps_run (map1 map2 : GoMap.ref) (h : gmap GoMap.loc (gmap string Z)) :
  GoMap.valid map1 h -> GoMap.valid map2 h ->
  MergeMaps order1 order2 map1 map2 h
  = (Returns (GoMap.at_loc (fresh (dom h))),
     <[fresh (dom h) :=
         insert_all (order2 (GoMap.contents map2 h))
           (insert_all (order1 (GoMap.contents map1 h)) ∅)]> h).
Proof.
  intros Hv1 Hv2. pose proof (is_fresh (dom h)) as Hfresh.
  unfold MergeMaps, mbind, Go_bind, GoMap.make, GoMap.range.
  rewrite contents_insert_fresh by assumption.
  rewrite (for_each_store _ _ _ ∅) by apply lookup_insert_eq.
  rewrite insert_insert_eq.
  rewrite contents_insert_fresh by assumption.
  rewrite (for_each_store _ _ _ (insert_all (order1 (GoMap.contents map1 h)) ∅))
    by apply lookup_insert_eq.
  rewrite insert_insert_eq. reflexivity.
Qed.

(** C4: [MergeMaps] returns a new map; a key is in the result if and
    only if it is in [map1] or in [map2]; the value of the result at a
    key is that of [map2] when the key is in [map2] and that of [map1]
    otherwise; [map1], [map2] and every other map of the heap are
    unchanged. *)
Theorem MergeMaps_spec (map1 map2 : GoMap.ref) (h : gmap GoMap.loc (gmap string Z)) :
  GoMap.valid map1 h -> GoMap.valid map2 h ->
  exists (l : GoMap.loc) (h' : gmap GoMap.loc (gmap string Z)),
    MergeMaps order1 order2 map1 map2 h = (Returns (GoMap.at_loc l), h') /\
    (l ∉ dom h) /\
    (forall l0, l0 ∈ dom h -> h' !! l0 = h !! l0) /\
    GoMap.contents map1 h' = GoMap.contents map1 h /\
    GoMap.contents map2 h' = GoMap.contents map2 h /\
    forall k : string,
      (is_Some (GoMap.contents (GoMap.at_loc l) h' !! k) <->
       is_Some (GoMap.contents map1 h !! k) \/ is_Some (GoMap.contents map2 h !! k)) /\
      GoMap.contents (GoMap.at_loc l) h' !! k
      = match GoMap.contents map2 h !! k with
        | Some v => Some v
        | None => GoMap.contents map1 h !! k
        end.
Proof.
  intros Hv1 Hv2. pose proof (is_fresh (dom h)) as Hfresh.
  eexists _, _. split; [apply MergeMaps_run; assumption|].
  split; [exact Hfresh|].
  split; [intros l0 Hl0; apply lookup_insert_ne; set_solver|].
  split; [apply contents_insert_fresh; assumption|].
  split; [apply contents_insert_fresh; assumption|].
  intros k. cbn [GoMap.contents]. rewrite lookup_insert_eq. cbn [default from_option id].
  destruct (list_to_map_order order1 _ (order1_enumerates (GoMap.contents map1 h)))
    as [Hnd1 E1].
  destruct (list_to_map_order order2 _ (order2_enumerates (GoMap.contents map2 h)))
    as [Hnd2 E2].
  rewrite !lookup_insert_all by assumption. rewrite E1, E2, lookup_empty.
  destruct (GoMap.contents map2 h !! k) as [v2|], (GoMap.contents map1 h !! k) as [v1|];
    (split; [|reflexivity]); rewrite ?is_Some_alt; tauto.
Qed.

End MergeMapsFacts.

Section MergeMapsExample.
Import BasicsSolutions.

Example MergeMaps_demo :
  exists l h',
    MergeMaps map_to_list map_to_list demo_m1 demo_m2 demo_heap
    = (Returns (GoMap.at_loc l), h') /\
    GoMap.contents (GoMap.at_loc l) h' = <["a" := 1]> (<["b" := 3]> (<["c" := 4]> ∅)) /\
    GoMap.contents demo_m1 h' = <["a" := 1]> (<["b" := 2]> ∅) /\
    GoMap.contents demo_m2 h' = <["b" := 3]> (<["c" := 4]> ∅).
Proof. eexists _, _. repeat split; vm_compute; reflexivity. Qed.

Lemma MergeMaps_spec_witness :
  GoMap.valid demo_m1 demo_heap /\ GoMap.valid demo_m2 demo_heap /\
  exists (l : GoMap.loc) (h' : gmap GoMap.loc (gmap string Z)),
    MergeMaps map_to_list map_to_list demo_m1 demo_m2 demo_heap
    = (Returns (GoMap.at_loc l), h') /\
    (l ∉ dom demo_heap) /\
    (forall l0, l0 ∈ dom demo_heap -> h' !! l0 = demo_heap !! l0) /\
    GoMap.contents demo_m1 h' = GoMap.contents demo_m1 demo_heap /\
    GoMap.contents demo_m2 h' = GoMap.contents demo_m2 demo_heap /\
    forall k : string,
      (is_Some (GoMap.contents (GoMap.at_loc l) h' !! k) <->
       is_Some (GoMap.contents demo_m1 demo_heap !! k) \/
       is_Some (GoMap.contents demo_m2 demo_heap !! k)) /\
      GoMap.contents (GoMap.at_loc l) h' !! k
      = match GoMap.contents demo_m2 demo_heap !! k with
        | Some v => Some v
        | None => GoMap.contents demo_m1 demo_heap !! k
        end.
Proof.
  assert (GoMap.valid demo_m1 demo_heap) as H1
    by (apply elem_of_dom; eexists; vm_compute; reflexivity).
  assert (GoMap.valid demo_m2 demo_heap) as H2
    by (apply elem_of_dom; eexists; vm_compute; reflexivity).
  split; [exact H1|]. split; [exact H2|].
  exact (MergeMaps_spec map_to_list map_to_list
           (fun m => reflexivity _) (fun m => reflexivity _)
           demo_m1 demo_m2 demo_heap H1 H2).
Defined.

End MergeMapsExample.

(** ** strconv.Atoi *)

Section AtoiFacts.
Import strconv.

Lemma digit_range (c : ascii) (d : Z) : digit c = Some d -> 0 <= d <= 9.
Proof.
  unfold digit. destruct (Z.leb_spec 48 (Z.of_N (N_of_ascii c))); cbn [andb];
    [|discriminate].
  destruct (Z.leb_spec (Z.of_N (N_of_ascii c)) 57); [|discriminate].
  intros [= <-]. lia.
Qed.

Lemma decimal_ge (s : string) :
  forall acc v : Z, 0 <= acc -> decimal acc s = Some v -> acc <= v.
Proof.
  induction s as [|c s IH]; intros acc v Hacc; cbn [decimal].
  - intros [= <-]. lia.
  - destruct (digit c) as [d|] eqn:Hd; [|discriminate].
    apply digit_range in Hd. intros Hv. apply IH in Hv; lia.
Qed.

(** The digit loop returns the number the digits denote when it is a
    [uint64]; otherwise it reports an error, and the greatest [uint64]
    with a range error. *)
Lemma ParseUint_loop_spec (s : string) :
  forall n : Z, 0 <= n <= maxUint64 ->
    match decimal n s with
    | Some v =>
        if v <=? maxUint64 then ParseUint_loop n s = (v, None)
        else ParseUint_loop n s = (maxUint64, Some ErrRange)
    | None =>
        ParseUint_loop n s = (0, Some ErrSyntax) \/
        ParseUint_loop n s = (maxUint64, Some ErrRange)
    end.
Proof.
  induction s as [|c s IH]; intros n Hn; cbn [decimal ParseUint_loop].
  - destruct (Z.leb_spec n maxUint64); [reflexivity|lia].
  - destruct (digit c) as [d|] eqn:Hd; [|left; reflexivity].
    pose proof (digit_range _ _ Hd) as Hd'.
    assert (maxUint64 / 10 + 1 = 1844674407370955162) as Hcut by reflexivity.
    assert (maxUint64 = 18446744073709551615) as Hmax by reflexivity.
    destruct (Z.geb_spec n (maxUint64 / 10 + 1)) as [Hbig|Hsmall].
    { destruct (decimal (n * 10 + d) s) as [v|] eqn:Hv; [|right; reflexivity].
      apply decimal_ge in Hv; [|lia].
      destruct (Z.leb_spec v maxUint64); [lia|reflexivity]. }
    cbv zeta. destruct (Z.gtb_spec (n * 10 + d) maxUint64) as [Hover|Hfits].
    { destruct (decimal (n * 10 + d) s) as [v|] eqn:Hv; [|right; reflexivity].
      apply decimal_ge in Hv; [|lia].
      destruct (Z.leb_spec v maxUint64); [lia|reflexivity]. }
    apply IH. lia.
Qed.

(** [strconv.Atoi] returns the [int] a string parses as, without an
    error, and returns an error for every other string. *)
Lemma Atoi_spec (s : string) :
  match parses_as_int s with
  | Some z => Atoi s = (z, None)
  | None => (Atoi s).2 <> None
  end.
Proof.
  unfold parses_as_int, denoted_integer, Atoi.
  destruct s as [|c rest]; [discriminate|].
  set (body := if Ascii.eqb c "+" || Ascii.eqb c "-" then rest else String c rest).
  assert (2 ^ (GoInt.intSize - 1) = 9223372036854775808) as H63 by reflexivity.
  assert (GoInt.MinInt = -9223372036854775808) as Hmin by reflexivity.
  assert (GoInt.MaxInt = 9223372036854775807) as Hmaxi by reflexivity.
  assert (maxUint64 = 18446744073709551615) as Hmax by reflexivity.
  rewrite H63, Hmin, Hmaxi.
  destruct body as [|c0 body0] eqn:Hbody; [discriminate|].
  unfold ParseUint.
  pose proof (ParseUint_loop_spec (String c0 body0) 0 ltac:(lia)) as Hloop.
  pose proof (decimal_ge (String c0 body0) 0) as Hge.
  destruct (decimal 0 (String c0 body0)) as [v|].
  - specialize (Hge v ltac:(lia) eq_refl).
    destruct (Z.leb_spec v maxUint64) as [Hv|Hv]; rewrite Hloop; clear Hloop;
      destruct (Ascii.eqb c "-"); cbn [negb andb];
      repeat match goal with
        | |- context [Z.leb ?a ?b] => destruct (Z.leb_spec a b)
        | |- context [Z.geb ?a ?b] => destruct (Z.geb_spec a b)
        | |- context [Z.gtb ?a ?b] => destruct (Z.gtb_spec a b)
        end; cbn [andb snd]; first [reflexivity | discriminate | lia].
  - destruct Hloop as [-> | ->]; [discriminate|].
    destruct (Ascii.eqb c "-"); cbn [negb andb];
      repeat match goal with
        | |- context [Z.geb ?a ?b] => destruct (Z.geb_spec a b)
        | |- context [Z.gtb ?a ?b] => destruct (Z.gtb_spec a b)
        end; cbn [andb snd]; first [discriminate | lia].
Qed.

Example parses_as_int_examples :
  map parses_as_int
    ["123"; "-45"; "+7"; "007"; ""; "+"; "not a number"; "12a"; "1_000";
     "9223372036854775807"; "9223372036854775808"; "-9223372036854775808"]
  = [Some 123; Some (-45); Some 7; Some 7; None; None; None; None; None;
     Some GoInt.MaxInt; None; Some GoInt.MinInt].
Proof. vm_compute. reflexivity. Qed.

End AtoiFacts.

(** ** The conversion of a float64 to an int *)

Section TruncationFacts.

Lemma Qpower_2_nonneg (e : Z) : 0 <= e -> (2 ^ e == inject_Z (2 ^ e))%Q.
Proof. intros He. symmetry. apply (Zpower_Qpower 2 e He). Qed.

Lemma Qpower_2_neg (e : Z) : e < 0 -> (2 ^ e == / inject_Z (2 ^ (- e)))%Q.
Proof.
  intros He. replace e with (- (- e)) at 1 by lia.
  rewrite Qpower_opp, Qpower_2_nonneg by lia. reflexivity.
Qed.

Lemma inject_Z_pos (d : Z) : 0 < d -> (0 < inject_Z d)%Q.
Proof. intros Hd. change 0%Q with (inject_Z 0). rewrite <- Zlt_Qlt. exact Hd. Qed.

(** The quotient of the division by a power of 2 is the truncation of
    the fraction. *)
Lemma div_truncates (m d : Z) :
  0 < d ->
  (inject_Z (m / d) <= inject_Z m * / inject_Z d)%Q /\
  (inject_Z m * / inject_Z d < inject_Z (m / d) + 1)%Q.
Proof.
  intros Hd.
  pose proof (inject_Z_pos d Hd) as HdQ.
  split.
  - apply Qle_shift_div_l; [exact HdQ|].
    rewrite <- inject_Z_mult, <- Zle_Qle. rewrite Z.mul_comm. apply Z.mul_div_le. exact Hd.
  - apply Qlt_shift_div_r; [exact HdQ|].
    change 1%Q with (inject_Z 1).
    rewrite <- inject_Z_plus, <- inject_Z_mult, <- Zlt_Qlt.
    rewrite Z.mul_comm. apply Z.mul_succ_div_gt. exact Hd.
Qed.

(** The magnitude [truncate] computes, against the rational
    [m * 2 ^ e]. *)
Lemma magnitude_truncates (m : positive) (e : Z) :
  let a := if 0 <=? e then Z.pos m * 2 ^ e else Z.pos m / 2 ^ (- e) in
  let q := (inject_Z (Z.pos m) * 2 ^ e)%Q in
  0 <= a /\ (0 < q)%Q /\ (inject_Z a <= q)%Q /\ (q < inject_Z a + 1)%Q.
Proof.
  cbv zeta. destruct (Z.leb_spec 0 e) as [He|He].
  - assert (0 < 2 ^ e) by (apply Z.pow_pos_nonneg; lia).
    assert (inject_Z (Z.pos m) * 2 ^ e == inject_Z (Z.pos m * 2 ^ e))%Q as ->
      by (rewrite Qpower_2_nonneg, inject_Z_mult by exact He; reflexivity).
    split; [lia|]. split; [|split].
    + apply inject_Z_pos. lia.
    + apply Qle_refl.
    + lra.
  - assert (0 < 2 ^ (- e)) as Hd by (apply Z.pow_pos_nonneg; lia).
    assert (inject_Z (Z.pos m) * 2 ^ e == inject_Z (Z.pos m) * / inject_Z (2 ^ (- e)))%Q as ->
      by (rewrite Qpower_2_neg by exact He; reflexivity).
    destruct (div_truncates (Z.pos m) (2 ^ (- e)) Hd) as [Hlo Hhi].
    split; [apply Z.div_pos; lia|]. split; [|split; assumption].
    apply Qmult_lt_0_compat; [reflexivity|].
    apply Qinv_lt_0_compat. apply inject_Z_pos. exact Hd.
Qed.

(** [truncate] computes the truncation of the number a [float64]
    denotes, and nothing for a [float64] that denotes none. *)
Lemma truncate_spec (f : float) :
  match float64_value f with
  | Some q => exists z, truncate f = Some z /\ is_truncation q z
  | None => truncate f = None
  end.
Proof.
  unfold float64_value, truncate. destruct (Prim2SF f) as [sg|sg| |sg m e].
  - exists 0. split; [reflexivity|]. split; intros _; split; vm_compute; congruence.
  - reflexivity.
  - reflexivity.
  - cbv zeta. destruct (magnitude_truncates m e) as (Ha & Hq & Hlo & Hhi).
    cbv zeta in Ha, Hq, Hlo, Hhi.
    set (a := if 0 <=? e then Z.pos m * 2 ^ e else Z.pos m / 2 ^ (- e)) in *.
    set (q := (inject_Z (Z.pos m) * 2 ^ e)%Q) in *.
    eexists. split; [reflexivity|]. destruct sg; split; intros Hsign.
    + exfalso. lra.
    + rewrite inject_Z_opp. split; lra.
    + split; lra.
    + exfalso. lra.
Qed.

(** A rational has at most one truncation. *)
Lemma is_truncation_unique (q : Q) (z z' : Z) :
  is_truncation q z -> is_truncation q z' -> z = z'.
Proof.
  intros [Hpos Hneg] [Hpos' Hneg'].
  assert (inject_Z z < inject_Z z' + 1 /\ inject_Z z' < inject_Z z + 1)%Q as [H1 H2].
  { destruct (Qlt_le_dec q 0) as [Hq|Hq].
    - destruct (Hneg ltac:(lra)), (Hneg' ltac:(lra)). split; lra.
    - destruct (Hpos Hq), (Hpos' Hq). split; lra. }
  change 1%Q with (inject_Z 1) in H1, H2.
  rewrite <- inject_Z_plus, <- Zlt_Qlt in H1, H2. lia.
Qed.

(** The conversion [int(f)]: the truncation of [f] when that is an
    [int]. *)
Lemma int_of_float64_truncation (f : float) (q : Q) (z : Z) :
  float64_value f = Some q -> is_truncation q z -> GoInt.is_int z ->
  int_of_float64 f = z.
Proof.
  intros Hq Hz Hint. pose proof (truncate_spec f) as Hspec. rewrite Hq in Hspec.
  destruct Hspec as (z0 & Htr & Hz0).
  rewrite (is_truncation_unique q z z0 Hz Hz0) in *.
  unfold int_of_float64. rewrite Htr. unfold GoInt.is_int in Hint.
  destruct (Z.leb_spec GoInt.MinInt z0), (Z.leb_spec z0 GoInt.MaxInt); try lia.
  reflexivity.
Qed.

(** A [float64] with no truncation in the range of [int]: a NaN, an
    infinity, or a number beyond the range. *)
Lemma int_of_float64_out_of_range (f : float) :
  (forall q z, float64_value f = Some q -> is_truncation q z -> ~ GoInt.is_int z) ->
  int_of_float64 f = GoInt.MinInt.
Proof.
  intros Hout. pose proof (truncate_spec f) as Hspec. unfold int_of_float64.
  destruct (float64_value f) as [q|] eqn:Hq.
  - destruct Hspec as (z0 & -> & Hz0). specialize (Hout q z0 eq_refl Hz0).
    unfold GoInt.is_int in Hout.
    destruct (Z.leb_spec GoInt.MinInt z0), (Z.leb_spec z0 GoInt.MaxInt); try reflexivity.
    exfalso. apply Hout. lia.
  - rewrite Hspec. reflexivity.
Qed.

End TruncationFacts.

(** ** Type assertions: GetIntValue and ConvertToInt *)

Section TypeAssertionFacts.
Context {S : Type}.

Lemma Exercises_GetIntValue_int (n : Z) (s : S) :
  Exercises.GetIntValue (VInt n) s = (Returns n, s).
Proof. reflexivity. Qed.

Lemma Exercises_GetIntValue_panics (v : value) (s : S) :
  (forall n, v <> VInt n) ->
  exists msg, Exercises.GetIntValue v s = (Panics msg, s).
Proof.
  intros Hv. destruct v; try (eexists; reflexivity).
  exfalso. eapply Hv. reflexivity.
Qed.

Lemma Solutions_GetIntValue_total (v : value) (s : S) :
  Solutions.GetIntValue v s
  = (Returns (match v with VInt n => n | _ => 0 end), s).
Proof. destruct v; reflexivity. Qed.

(** C2: the exercise version of [GetIntValue] panics for every input
    that is not an [int] (and returns the [int] otherwise); the solution
    version returns for every input, the [int] when the input is one and
    0 otherwise, and never panics. *)
Theorem GetIntValue_exercise_and_solution (v : value) (s : S) :
  (forall n, v = VInt n ->
     Exercises.GetIntValue v s = (Returns n, s) /\
     Solutions.GetIntValue v s = (Returns n, s)) /\
  ((forall n, v <> VInt n) ->
     (exists msg, Exercises.GetIntValue v s = (Panics msg, s)) /\
     Solutions.GetIntValue v s = (Returns 0, s)) /\
  (exists r, Solutions.GetIntValue v s = (Returns r, s)).
Proof.
  split; [|split].
  - intros n ->. split; reflexivity.
  - intros Hv. split; [apply Exercises_GetIntValue_panics; assumption|].
    rewrite Solutions_GetIntValue_total. destruct v; try reflexivity.
    exfalso. eapply Hv. reflexivity.
  - eexists. apply Solutions_GetIntValue_total.
Qed.

(** C3, amended: the solution version of [ConvertToInt] returns (it
    does not panic); the error is non-nil exactly when the input is a
    string that does not parse as an [int] or its type is none of [int],
    [float64], [string], [bool]; with an error the [int] result is 0;
    without one it is the [int] itself, the [int] the string parses as,
    1 and 0 for [true] and [false], and for a [float64] its truncation
    towards zero when that is an [int].  For a [float64] that has no
    truncation in the range of [int], a NaN, an infinity or a number
    beyond the range, there is no error either and the result is the
    least [int]. *)
Theorem ConvertToInt_spec (v : value) (s : S) :
  exists (n : Z) (err : option Solutions.error),
    Solutions.ConvertToInt v s = (Returns (n, err), s) /\
    (err <> None <->
       (exists str, v = VString str /\ strconv.parses_as_int str = None) \/
       int_float64_string_or_bool v = false) /\
    (err <> None -> n = 0) /\
    (err = None ->
       match v with
       | VInt i => n = i
       | VFloat64 f =>
           (forall q z, float64_value f = Some q -> is_truncation q z ->
                        GoInt.is_int z -> n = z) /\
           ((forall q z, float64_value f = Some q -> is_truncation q z ->
                         ~ GoInt.is_int z) -> n = GoInt.MinInt)
       | VString str => strconv.parses_as_int str = Some n
       | VBool b => n = if b then 1 else 0
       | _ => False
       end).
Proof.
  destruct v as [|i|f|str|b|l|l|l|t]; cbn [Solutions.ConvertToInt].
  1, 6, 7, 8, 9: eexists _, _; split; [reflexivity|];
    split; [split; [intros _; right; reflexivity|intros _; discriminate]|];
    split; [reflexivity|discriminate].
  - eexists _, _. split; [reflexivity|]. split; [|split; [congruence|reflexivity]].
    split; [congruence|]. intros [(str & E & _)|E]; discriminate.
  - eexists _, _. split; [reflexivity|]. split; [|split; [congruence|]].
    + split; [congruence|]. intros [(str & E & _)|E]; discriminate.
    + intros _. split.
      * intros q z Hq Hz Hint. apply (int_of_float64_truncation f q z Hq Hz Hint).
      * apply int_of_float64_out_of_range.
  - pose proof (Atoi_spec str) as Hatoi.
    destruct (strconv.parses_as_int str) as [z|] eqn:Hparse.
    + rewrite Hatoi. eexists _, _. split; [reflexivity|].
      split; [|split; [congruence|intros _; reflexivity]].
      split; [congruence|]. intros [(str' & E' & Herr)|E']; [|discriminate].
      injection E' as <-. congruence.
    + destruct (strconv.Atoi str) as [result [e|]]; [|exfalso; apply Hatoi; reflexivity].
      eexists _, _. split; [reflexivity|].
      split; [|split; [reflexivity|discriminate]].
      split; [|discriminate]. intros _. left. exists str. split; [reflexivity|exact Hparse].
  - destruct b; eexists _, _; (split; [reflexivity|]);
      (split; [|split; [congruence|reflexivity]]);
      (split; [congruence|]); intros [(str & E & _)|E]; discriminate.
Qed.

End TypeAssertionFacts.

Section TypeAssertionExamples.

(** The two calls of [TestGetIntValue]. *)
Lemma GetIntValue_exercise_and_solution_witness :
  (Exercises.GetIntValue (VInt 42) tt = (Returns 42, tt) /\
   Solutions.GetIntValue (VInt 42) tt = (Returns 42, tt)) /\
  ((exists msg, Exercises.GetIntValue (VString "not an int") tt = (Panics msg, tt)) /\
   Solutions.GetIntValue (VString "not an int") tt = (Returns 0, tt)).
Proof.
  split.
  - exact (proj1 (GetIntValue_exercise_and_solution (VInt 42) tt) 42 eq_refl).
  - apply (proj1 (proj2 (GetIntValue_exercise_and_solution (VString "not an int") tt))).
    intros n. discriminate.
Defined.

(** C3, as stated, fails for a [float64] beyond the range of [int]:
    [1e19] denotes the integer 10000000000000000000, which is its own
    truncation; [ConvertToInt] returns the least [int], without an
    error.  It does the same for a NaN and for an infinity, which have
    no truncation. *)
Lemma ConvertToInt_float64_out_of_range :
  float64_value 1e19 = Some (inject_Z (10 ^ 19)) /\
  is_truncation (inject_Z (10 ^ 19)) (10 ^ 19) /\
  Solutions.ConvertToInt (VFloat64 1e19) tt = (Returns (GoInt.MinInt, None), tt) /\
  GoInt.MinInt <> 10 ^ 19 /\
  float64_value nan = None /\
  Solutions.ConvertToInt (VFloat64 nan) tt = (Returns (GoInt.MinInt, None), tt) /\
  float64_value infinity = None /\
  Solutions.ConvertToInt (VFloat64 infinity) tt = (Returns (GoInt.MinInt, None), tt).
Proof.
  split; [vm_compute; reflexivity|]. split.
  { split; intros _; split; vm_compute; congruence. }
  repeat split; vm_compute; congruence.
Qed.

(** The truncation at some [float64]s: 3.14 and 3.99 give 3, -3.99
    gives -3, 0.5 and -0.5 give 0, and 2 ^ 62 gives itself. *)
Example ConvertToInt_truncates :
  Solutions.ConvertToInt (VFloat64 0x1.91eb851eb851fp+1) tt = (Returns (3, None), tt) /\
  Solutions.ConvertToInt (VFloat64 0x1.feb851eb851ecp+1) tt = (Returns (3, None), tt) /\
  Solutions.ConvertToInt (VFloat64 (-0x1.feb851eb851ecp+1)) tt = (Returns (-3, None), tt) /\
  Solutions.ConvertToInt (VFloat64 0.5) tt = (Returns (0, None), tt) /\
  Solutions.ConvertToInt (VFloat64 (-0.5)) tt = (Returns (0, None), tt) /\
  Solutions.ConvertToInt (VFloat64 0x1p+62) tt = (Returns (2 ^ 62, None), tt) /\
  is_truncation (7070651414971679 # 2251799813685248) 3 /\
  float64_value 0x1.91eb851eb851fp+1 = Some (7070651414971679 # 2251799813685248).
Proof.
  do 6 (split; [vm_compute; reflexivity|]).
  split; [|vm_compute; reflexivity].
  split; [intros _; split; vm_compute; congruence|].
  intros Hneg. exfalso. vm_compute in Hneg. apply Hneg. reflexivity.
Qed.

(** The table of [TestConvertToInt]. *)
Example ConvertToInt_table :
  Solutions.ConvertToInt (VInt 42) tt = (Returns (42, None), tt) /\
  Solutions.ConvertToInt (VFloat64 0x1.91eb851eb851fp+1) tt = (Returns (3, None), tt) /\
  Solutions.ConvertToInt (VString "123") tt = (Returns (123, None), tt) /\
  Solutions.ConvertToInt (VBool true) tt = (Returns (1, None), tt) /\
  Solutions.ConvertToInt (VBool false) tt = (Returns (0, None), tt) /\
  (exists e, Solutions.ConvertToInt (VString "not a number") tt = (Returns (0, Some e), tt)) /\
  (exists e, Solutions.ConvertToInt (VIntSlice []) tt = (Returns (0, Some e), tt)) /\
  (exists e, Solutions.ConvertToInt VNil tt = (Returns (0, Some e), tt)).
Proof. repeat split; try (eexists; vm_compute; reflexivity); vm_compute; reflexivity. Qed.

End TypeAssertionExamples.

(** ** TypeSafeMap *)

(** Runs the first statement of a sequence. *)
Ltac run_bind := unfold mbind at 1, Go_bind at 1.

Section TypeSafeMapFacts.
Import Solutions.

Lemma Set_run (m : TypeSafeMap) (l : GoMap.loc) (k : string) (v : value)
    (h : gmap GoMap.loc (gmap string value)) :
  data m = GoMap.at_loc l ->
  TypeSafeMap_Set m k v h
  = (Returns tt, <[l := <[k := v]> (GoMap.contents (data m) h)]> h) /\
  GoMap.contents (data m) (<[l := <[k := v]> (GoMap.contents (data m) h)]> h)
  = <[k := v]> (GoMap.contents (data m) h).
Proof.
  intros E. unfold TypeSafeMap_Set, GoMap.store. rewrite E. split; [reflexivity|].
  cbn [GoMap.contents]. rewrite lookup_insert_eq. reflexivity.
Qed.

Lemma Contains_run (m : TypeSafeMap) (k : string) (h : gmap GoMap.loc (gmap string value)) :
  TypeSafeMap_Contains m k h
  = (Returns (bool_decide (is_Some (GoMap.contents (data m) h !! k))), h).
Proof. reflexivity. Qed.

Lemma GetInt_run (m : TypeSafeMap) (k : string) (h : gmap GoMap.loc (gmap string value)) :
  TypeSafeMap_GetInt m k h
  = (Returns (match GoMap.contents (data m) h !! k with
              | Some (VInt n) => n
              | _ => 0
              end), h).
Proof.
  unfold TypeSafeMap_GetInt, mbind, Go_bind, GoMap.index.
  destruct (GoMap.contents (data m) h !! k) as [[]|]; reflexivity.
Qed.

Lemma GetString_run (m : TypeSafeMap) (k : string) (h : gmap GoMap.loc (gmap string value)) :
  TypeSafeMap_GetString m k h
  = (Returns (match GoMap.contents (data m) h !! k with
              | Some (VString str) => str
              | _ => ""
              end), h).
Proof.
  unfold TypeSafeMap_GetString, mbind, Go_bind, GoMap.index.
  destruct (GoMap.contents (data m) h !! k) as [[]|]; reflexivity.
Qed.

(** A sequence of calls of [Set] on a map that has been made. *)
Lemma Set_sequence (sets : list (string * value)) :
  forall (m : TypeSafeMap) (l : GoMap.loc) (h : gmap GoMap.loc (gmap string value)),
    data m = GoMap.at_loc l ->
    exists h',
      for_each sets (fun kv => TypeSafeMap_Set m kv.1 kv.2) h = (Returns tt, h') /\
      forall k, k ∉ sets.*1 ->
        GoMap.contents (data m) h' !! k = GoMap.contents (data m) h !! k.
Proof.
  induction sets as [|[k0 v0] sets IH]; intros m l h E.
  - exists h. split; [reflexivity|]. reflexivity.
  - destruct (Set_run m l k0 v0 h E) as [Hrun Hcontents].
    destruct (IH m l (<[l := <[k0 := v0]> (GoMap.contents (data m) h)]> h) E)
      as (h' & Hrest & Hother).
    exists h'. split.
    + cbn [for_each]. unfold mbind, Go_bind. cbn [fst snd].
      rewrite Hrun. exact Hrest.
    + intros k Hk. cbn [fmap list_fmap fst] in Hk.
      apply not_elem_of_cons in Hk as [Hne Hk].
      rewrite (Hother k Hk), Hcontents. apply lookup_insert_ne. congruence.
Qed.

(** C9: on a [TypeSafeMap] whose map has been made, [Set(k, v)] with an
    [int] [v] returns, and then [Contains(k)] is true and [GetInt(k)] is
    [v]; on a new [TypeSafeMap], after any calls of [Set] on other keys,
    [Contains(k)] is false and [GetInt(k)] is 0; when the value stored
    at [k] is not an [int], [GetInt(k)] returns 0, and when it is not a
    [string], [GetString(k)] returns the empty string: neither
    panics. *)
Theorem TypeSafeMap_round_trip :
  (forall (m : TypeSafeMap) (l : GoMap.loc) (h : gmap GoMap.loc (gmap string value))
          (k : string) (v : Z),
      data m = GoMap.at_loc l ->
      exists h',
        TypeSafeMap_Set m k (VInt v) h = (Returns tt, h') /\
        TypeSafeMap_Contains m k h' = (Returns true, h') /\
        TypeSafeMap_GetInt m k h' = (Returns v, h')) /\
  (forall (h : gmap GoMap.loc (gmap string value)) (sets : list (string * value))
          (k : string),
      k ∉ sets.*1 ->
      exists h',
        (m ← NewTypeSafeMap;
         for_each sets (fun kv => TypeSafeMap_Set m kv.1 kv.2);;
         present ← TypeSafeMap_Contains m k;
         number ← TypeSafeMap_GetInt m k;
         mret (present, number)) h
        = (Returns (false, 0), h')) /\
  (forall (m : TypeSafeMap) (l : GoMap.loc) (h : gmap GoMap.loc (gmap string value))
          (k : string) (v : value),
      data m = GoMap.at_loc l ->
      exists h',
        TypeSafeMap_Set m k v h = (Returns tt, h') /\
        ((forall n, v <> VInt n) -> TypeSafeMap_GetInt m k h' = (Returns 0, h')) /\
        ((forall str, v <> VString str) ->
           TypeSafeMap_GetString m k h' = (Returns "", h'))).
Proof.
  split; [|split].
  - intros m l h k v E. destruct (Set_run m l k (VInt v) h E) as [Hrun Hcontents].
    eexists. split; [exact Hrun|].
    rewrite Contains_run, GetInt_run, Hcontents, lookup_insert_eq.
    split; reflexivity.
  - intros h sets k Hk.
    set (l := fresh (dom h)). set (m := {| data := GoMap.at_loc l |}).
    destruct (Set_sequence sets m l (<[l := ∅]> h) eq_refl) as (h' & Hrun & Hother).
    exists h'. run_bind. unfold NewTypeSafeMap.
    run_bind. unfold GoMap.make. cbn [mret Go_ret]. fold l. fold m.
    run_bind. rewrite Hrun.
    run_bind. rewrite Contains_run.
    run_bind. rewrite GetInt_run.
    rewrite (Hother k Hk). subst m. cbn [GoMap.contents data].
    rewrite lookup_insert_eq. cbn [default from_option id]. rewrite lookup_empty. reflexivity.
  - intros m l h k v E. destruct (Set_run m l k v h E) as [Hrun Hcontents].
    eexists. split; [exact Hrun|].
    rewrite GetInt_run, GetString_run, Hcontents, lookup_insert_eq.
    split; intros Hv; destruct v; try reflexivity; exfalso; eapply Hv; reflexivity.
Qed.

End TypeSafeMapFacts.

Section TypeSafeMapExamples.
Import Solutions.

Lemma TypeSafeMap_round_trip_witness :
  exists h',
    TypeSafeMap_Set {| data := GoMap.at_loc 1%positive |} "age" (VInt 30) ∅
    = (Returns tt, h') /\
    TypeSafeMap_Contains {| data := GoMap.at_loc 1%positive |} "age" h'
    = (Returns true, h') /\
    TypeSafeMap_GetInt {| data := GoMap.at_loc 1%positive |} "age" h'
    = (Returns 30, h').
Proof.
  exact (proj1 TypeSafeMap_round_trip
           {| data := GoMap.at_loc 1%positive |} 1%positive ∅ "age" 30 eq_refl).
Defined.

(** The calls of [TestTypeSafeMapInt], [TestTypeSafeMapWrongType] and
    [TestTypeSafeMapContains], in one run. *)
Example TypeSafeMap_tests :
  exists h',
    (m ← NewTypeSafeMap;
     TypeSafeMap_Set m "age" (VInt 30);;
     TypeSafeMap_Set m "key2" VNil;;
     age ← TypeSafeMap_GetInt m "age";
     text ← TypeSafeMap_GetString m "age";
     key2 ← TypeSafeMap_Contains m "key2";
     key3 ← TypeSafeMap_Contains m "key3";
     mret (age, text, key2, key3)) ∅
    = (Returns (30, "", true, false), h').
Proof. eexists. vm_compute. reflexivity. Qed.

(** The zero [TypeSafeMap] has a nil map: [Set] panics on it. *)
Example TypeSafeMap_zero_value_Set :
  exists msg, TypeSafeMap_Set {| data := GoMap.nil |} "age" (VInt 30) ∅ = (Panics msg, ∅).
Proof. eexists. reflexivity. Qed.

End TypeSafeMapExamples.

(** ** Shapes: CompareShapes and PrintShapeInfo *)

Section ShapeFacts.
Import Exercises.
Context {S : Type}.
Context `{Shape T1} `{Shape T2}.

(** What the exercise's [CompareShapes] returns, by the order of the
    areas: its first two results are exchanged with respect to its
    comment. *)
Lemma CompareShapes_smaller (s1 : T1) (s2 : T2) (area1 area2 : float) (s : S) :
  Area s1 = Returns area1 -> Area s2 = Returns area2 ->
  PrimFloat.ltb area1 area2 = true ->
  CompareShapes s1 s2 s = (Returns 1, s).
Proof.
  intros H1 H2 Hlt. unfold CompareShapes, call, mbind, Go_bind.
  rewrite H1, H2, Hlt. reflexivity.
Qed.

Lemma CompareShapes_larger (s1 : T1) (s2 : T2) (area1 area2 : float) (s : S) :
  Area s1 = Returns area1 -> Area s2 = Returns area2 ->
  PrimFloat.ltb area1 area2 = false ->
  PrimFloat.ltb area2 area1 = true ->
  CompareShapes s1 s2 s = (Returns (-1), s).
Proof.
  intros H1 H2 Hge Hgt. unfold CompareShapes, call, mbind, Go_bind.
  rewrite H1, H2, Hge, Hgt. reflexivity.
Qed.

Lemma CompareShapes_otherwise (s1 : T1) (s2 : T2) (area1 area2 : float) (s : S) :
  Area s1 = Returns area1 -> Area s2 = Returns area2 ->
  PrimFloat.ltb area1 area2 = false ->
  PrimFloat.ltb area2 area1 = false ->
  CompareShapes s1 s2 s = (Returns 0, s).
Proof.
  intros H1 H2 Hge Hle. unfold CompareShapes, call, mbind, Go_bind.
  rewrite H1, H2, Hge, Hle. reflexivity.
Qed.

(** A shape whose [Area] panics makes [CompareShapes] panic. *)
Lemma CompareShapes_panics (s1 : T1) (s2 : T2) (s : S) :
  (exists msg, Area s1 = Panics msg) \/ (exists msg, Area s2 = Panics msg) ->
  exists msg, CompareShapes s1 s2 s = (Panics msg, s).
Proof.
  unfold CompareShapes, call, mbind, Go_bind.
  intros [[msg H1]|[msg H2]].
  - rewrite H1. eexists. reflexivity.
  - rewrite H2. destruct (Area s1); eexists; reflexivity.
Qed.

End ShapeFacts.

Section ShapeExamples.
Import Exercises.

(** C1 fails on the exercise's code: for a square of side 1 (area 1)
    and a square of side 2 (area 4), [CompareShapes] returns 1 where its
    contract says -1, and -1 for the exchanged arguments where its
    contract says 1; equal areas give 0. *)
Theorem CompareShapes_reversed :
  Area {| Side := 1 |} = Returns 1%float /\ Area {| Side := 2 |} = Returns 4%float /\
  PrimFloat.ltb 1 4 = true /\
  CompareShapes {| Side := 1 |} {| Side := 2 |} tt = (Returns 1, tt) /\
  CompareShapes {| Side := 2 |} {| Side := 1 |} tt = (Returns (-1), tt) /\
  CompareShapes {| Side := 1 |} {| Side := 1 |} tt = (Returns 0, tt).
Proof. repeat split; vm_compute; reflexivity. Qed.


(** The planted defect of [Stringify]: [string(val)] of an [int] is the
    character with that code point, not its decimal digits. *)
Example Stringify_exercise_int : Stringify (VInt 65) "" = (Returns "A", "").
Proof. vm_compute. reflexivity. Qed.

End ShapeExamples.

(** * Further properties of the code *)

(** ** IsEven and FilterEvens *)

Section ParityFacts.
Import BasicsSolutions.

Lemma IsEven_even (n : Z) : IsEven n = Z.even n.
Proof.
  unfold IsEven. destruct (Z.even n) eqn:E.
  - apply Z.even_spec in E as [k ->]. apply Z.eqb_eq.
    rewrite Z.mul_comm. apply Z.rem_mul. lia.
  - apply Z.eqb_neq. intros Hrem. apply Z.rem_divide in Hrem as [k ->]; [|lia].
    rewrite Z.even_mul in E. cbn in E. rewrite Bool.orb_true_r in E. discriminate.
Qed.

Lemma even_wrap (z : Z) : Z.even (GoInt.wrap z) = Z.even z.
Proof.
  unfold GoInt.wrap. rewrite Z.mod_eq by (unfold GoInt.intSize; lia).
  replace (z + 2 ^ (GoInt.intSize - 1)
           - 2 ^ GoInt.intSize * ((z + 2 ^ (GoInt.intSize - 1)) / 2 ^ GoInt.intSize)
           - 2 ^ (GoInt.intSize - 1))
    with (z - 2 ^ GoInt.intSize * ((z + 2 ^ (GoInt.intSize - 1)) / 2 ^ GoInt.intSize))
    by lia.
  rewrite Z.even_sub, Z.even_mul.
  change (Z.even (2 ^ GoInt.intSize)) with true. cbn [orb].
  destruct (Z.even z); reflexivity.
Qed.

(** X1: [IsEven(n)] is true exactly when [n] is twice an integer, for
    negative [n] as well; and [CalculateSum(a, b)] is even exactly when
    [a] and [b] have the same parity, also when the sum overflows. *)
Theorem IsEven_spec :
  (forall n : Z, IsEven n = true <-> exists k : Z, n = 2 * k) /\
  (forall a b : Z, IsEven (CalculateSum a b) = Bool.eqb (IsEven a) (IsEven b)).
Proof.
  split.
  - intros n. rewrite IsEven_even. apply Z.even_spec.
  - intros a b. rewrite !IsEven_even. unfold CalculateSum, GoInt.add.
    rewrite even_wrap. apply Z.even_add.
Qed.

Lemma FilterEvens_acc (numbers acc : list Z) :
  foldl (fun result n => if Z.rem n 2 =? 0 then result ++ [n] else result) acc numbers
  = acc ++ List.filter IsEven numbers.
Proof.
  revert acc. induction numbers as [|n numbers IH]; intros acc; cbn [foldl List.filter].
  - rewrite app_nil_r. reflexivity.
  - rewrite IH. unfold IsEven at 2. destruct (Z.rem n 2 =? 0); [|reflexivity].
    rewrite <- app_assoc. reflexivity.
Qed.

Lemma FilterEvens_filter (numbers : list Z) :
  FilterEvens numbers = List.filter IsEven numbers.
Proof. unfold FilterEvens. apply FilterEvens_acc. Qed.

(** X2: [FilterEvens] returns, in their order, exactly the elements of
    the slice for which [IsEven] holds: a number is in the result if and
    only if it is in the slice and even; filtering a second time changes
    nothing, and the result of a concatenation is the concatenation of
    the results. *)
Theorem FilterEvens_spec (numbers : list Z) :
  FilterEvens numbers = List.filter IsEven numbers /\
  (forall x : Z, In x (FilterEvens numbers) <-> In x numbers /\ IsEven x = true) /\
  FilterEvens (FilterEvens numbers) = FilterEvens numbers /\
  (forall more : list Z,
      FilterEvens (numbers ++ more) = FilterEvens numbers ++ FilterEvens more).
Proof.
  split; [apply FilterEvens_filter|]. split; [|split].
  - intros x. rewrite FilterEvens_filter. apply List.filter_In.
  - rewrite !FilterEvens_filter.
    induction numbers as [|n numbers IH]; [reflexivity|]. cbn [List.filter].
    destruct (IsEven n) eqn:E; cbn [List.filter]; rewrite ?E, IH; reflexivity.
  - intros more. rewrite !FilterEvens_filter. apply List.filter_app.
Qed.

Example FilterEvens_demo : FilterEvens [1; 2; 3; 4; 5; 6; -8; -7] = [2; 4; 6; -8].
Proof. reflexivity. Qed.

End ParityFacts.

(** ** ReverseSlice *)

Section ReverseSliceFacts.
Import BasicsSolutions.

Lemma length_exchange {V} (c : list V) (i j : nat) :
  length (GoSlice.exchange c i j) = length c.
Proof.
  unfold GoSlice.exchange. destruct (c !! j), (c !! i); try reflexivity.
  rewrite !length_insert. reflexivity.
Qed.

(** An exchange within a part of a list. *)
Lemma exchange_app {V} (pre c post : list V) (i j : nat) :
  (i < length c)%nat -> (j < length c)%nat ->
  GoSlice.exchange (pre ++ c ++ post) (length pre + i) (length pre + j)
  = pre ++ GoSlice.exchange c i j ++ post.
Proof.
  intros Hi Hj. unfold GoSlice.exchange.
  assert (forall k, (k < length c)%nat ->
            (pre ++ c ++ post) !! (length pre + k)%nat = c !! k) as Hlook.
  { intros k Hk. rewrite lookup_app_r by lia.
    replace (length pre + k - length pre)%nat with k by lia.
    apply lookup_app_l. exact Hk. }
  rewrite !Hlook by assumption.
  destruct (c !! j) as [x|]; [|reflexivity].
  destruct (c !! i) as [y|]; [|reflexivity].
  rewrite insert_app_r, (insert_app_l _ _ i) by lia.
  rewrite insert_app_r, (insert_app_l _ _ j) by (rewrite length_insert; lia).
  reflexivity.
Qed.

Lemma elements_insert {V} (a a' : GoSlice.loc) (c : list V) (h : gmap GoSlice.loc (list V)) :
  GoSlice.elements a' (<[a := c]> h)
  = if decide (a' = a) then c else GoSlice.elements a' h.
Proof.
  unfold GoSlice.elements. destruct (decide (a' = a)) as [->|Hne].
  - rewrite lookup_insert_eq. reflexivity.
  - rewrite lookup_insert_ne by congruence. reflexivity.
Qed.

(** One round of the loop, on a slice that lies within its array. *)
Lemma ReverseSlice_body_run (a : GoSlice.loc) (off n c : nat)
    (h : gmap GoSlice.loc (list Z)) (i : Z) :
  (off + n <= length (GoSlice.elements a h))%nat ->
  Z.of_nat n <= GoInt.MaxInt ->
  0 <= i < Z.of_nat n ->
  ReverseSlice_body (GoSlice.window a off n c) i h
  = (Returns tt,
     <[a := GoSlice.exchange (GoSlice.elements a h)
              (off + Z.to_nat i) (off + (n - 1 - Z.to_nat i))]> h).
Proof.
  intros Hin Hmax Hi. unfold ReverseSlice_body.
  assert (GoInt.MaxInt = 9223372036854775807) as HM by reflexivity.
  assert (GoInt.is_int (Z.of_nat n - 1)) as H1
    by (unfold GoInt.is_int, GoInt.MinInt, GoInt.intSize; lia).
  assert (GoInt.is_int (Z.of_nat n - 1 - i)) as H2
    by (unfold GoInt.is_int, GoInt.MinInt, GoInt.intSize; lia).
  run_bind. cbn [GoSlice.len mret Go_ret]. cbv zeta.
  rewrite (sub_in_range _ 1 H1), (sub_in_range _ i H2).
  set (j := Z.of_nat n - 1 - i).
  assert (Z.to_nat j = (n - 1 - Z.to_nat i)%nat) as Hj by lia.
  set (arr := GoSlice.elements a h) in *.
  destruct (lookup_lt_is_Some_2 arr (off + Z.to_nat j) ltac:(lia)) as [x Hx].
  destruct (lookup_lt_is_Some_2 arr (off + Z.to_nat i) ltac:(lia)) as [y Hy].
  assert (forall k : Z, 0 <= k < Z.of_nat n -> (0 <=? k) && (k <? Z.of_nat n) = true) as Hin_range.
  { intros k Hk. destruct (Z.leb_spec 0 k), (Z.ltb_spec k (Z.of_nat n)); try lia; reflexivity. }
  run_bind. unfold GoSlice.get at 1. rewrite Hin_range by lia.
  unfold GoSlice.cell. fold arr. rewrite Hx.
  run_bind. unfold GoSlice.get at 1. rewrite Hin_range by lia.
  unfold GoSlice.cell. fold arr. rewrite Hy.
  run_bind. unfold GoSlice.set at 1. rewrite Hin_range by lia. fold arr.
  unfold GoSlice.set. rewrite Hin_range by lia.
  rewrite elements_insert. destruct (decide (a = a)) as [_|Hne]; [|congruence].
  rewrite insert_insert_eq. unfold GoSlice.exchange.
  rewrite <- Hj, Hx, Hy. reflexivity.
Qed.

(** The rounds for a list of indices, as exchanges on the array. *)
Lemma ReverseSlice_loop_run (a : GoSlice.loc) (off n c : nat) (idxs : list Z) :
  forall h : gmap GoSlice.loc (list Z),
    (off + n <= length (GoSlice.elements a h))%nat ->
    Z.of_nat n <= GoInt.MaxInt ->
    Forall (fun i => 0 <= i < Z.of_nat n) idxs ->
    exists h',
      for_each idxs (ReverseSlice_body (GoSlice.window a off n c)) h = (Returns tt, h') /\
      GoSlice.elements a h'
      = foldl (fun arr i =>
                 GoSlice.exchange arr (off + Z.to_nat i) (off + (n - 1 - Z.to_nat i)))
          (GoSlice.elements a h) idxs /\
      forall a', a' <> a -> GoSlice.elements a' h' = GoSlice.elements a' h.
Proof.
  induction idxs as [|i idxs IH]; intros h Hin Hmax Hall.
  - exists h. cbn [for_each foldl]. split; [reflexivity|]. split; reflexivity.
  - apply Forall_cons in Hall as [Hi Hall]. cbn [for_each foldl].
    run_bind. rewrite (ReverseSlice_body_run a off n c h i Hin Hmax Hi).
    set (h1 := <[a := _]> h).
    assert (GoSlice.elements a h1
            = GoSlice.exchange (GoSlice.elements a h)
                (off + Z.to_nat i) (off + (n - 1 - Z.to_nat i))) as Hh1.
    { unfold h1. rewrite elements_insert.
      destruct (decide (a = a)); [reflexivity|congruence]. }
    destruct (IH h1) as (h' & Hrun & Harr & Hothers).
    + rewrite Hh1, length_exchange. exact Hin.
    + exact Hmax.
    + exact Hall.
    + exists h'. split; [exact Hrun|]. split.
      * rewrite Harr, Hh1. reflexivity.
      * intros a' Hne. rewrite (Hothers a' Hne). unfold h1.
        rewrite elements_insert. destruct (decide (a' = a)); [congruence|reflexivity].
Qed.

(** The exchanges within a window are exchanges on the elements the
    window shows. *)
Lemma exchanges_window {V} (pre post : list V) (n : nat) (idxs : list Z) :
  forall c : list V,
    length c = n ->
    Forall (fun i => 0 <= i < Z.of_nat n) idxs ->
    foldl (fun arr i =>
             GoSlice.exchange arr (length pre + Z.to_nat i)
               (length pre + (n - 1 - Z.to_nat i)))
      (pre ++ c ++ post) idxs
    = pre ++ foldl (fun c i =>
                      GoSlice.exchange c (Z.to_nat i) (length c - 1 - Z.to_nat i))
               c idxs ++ post.
Proof.
  induction idxs as [|i idxs IH]; intros c Hlen Hall; cbn [foldl].
  - reflexivity.
  - apply Forall_cons in Hall as [Hi Hall].
    rewrite exchange_app by lia. rewrite Hlen.
    apply IH; [rewrite length_exchange; exact Hlen|exact Hall].
Qed.

(** After [k] rounds the first [k] and the last [k] elements are those of
    the reversed slice, and the others are in place. *)
Lemma exchanges_lookup (c : list Z) (k : nat) :
  (2 * k <= length c)%nat ->
  let c' := foldl (fun c i =>
              GoSlice.exchange c (Z.to_nat i) (length c - 1 - Z.to_nat i))
              c (seqZ 0 (Z.of_nat k)) in
  length c' = length c /\
  forall idx : nat, (idx < length c)%nat ->
    c' !! idx
    = if decide (idx < k \/ length c - k <= idx)%nat
      then c !! (length c - 1 - idx)%nat else c !! idx.
Proof.
  induction k as [|k IH]; intros Hk.
  - cbn. split; [reflexivity|]. intros idx Hidx.
    destruct (decide _) as [[?|?]|?]; [lia|lia|reflexivity].
  - destruct (IH ltac:(lia)) as [Hlen Hlook]. cbv zeta.
    rewrite seqZ_S, foldl_snoc. rewrite Z.add_0_l, Nat2Z.id.
    set (prev := foldl _ c (seqZ 0 (Z.of_nat k))) in *.
    rewrite Hlen. split; [rewrite length_exchange; exact Hlen|].
    intros idx Hidx. unfold GoSlice.exchange.
    rewrite (Hlook (length c - 1 - k)%nat) by lia.
    rewrite (Hlook k) by lia.
    destruct (decide (length c - 1 - k < k \/ length c - k <= length c - 1 - k)%nat)
      as [[?|?]|_]; [lia|lia|].
    destruct (decide (k < k \/ length c - k <= k)%nat) as [[?|?]|_]; [lia|lia|].
    destruct (lookup_lt_is_Some_2 c (length c - 1 - k) ltac:(lia)) as [x Hx].
    destruct (lookup_lt_is_Some_2 c k ltac:(lia)) as [y Hy].
    rewrite Hx, Hy.
    destruct (decide (idx = length c - 1 - k)%nat) as [->|Hne1].
    { rewrite list_lookup_insert_eq by (rewrite length_insert; lia).
      destruct (decide _) as [_|Hn]; [|exfalso; apply Hn; lia].
      rewrite <- Hy. f_equal. lia. }
    rewrite list_lookup_insert_ne by lia.
    destruct (decide (idx = k)) as [->|Hne2].
    { rewrite list_lookup_insert_eq by lia.
      destruct (decide _) as [_|Hn]; [|exfalso; apply Hn; lia].
      symmetry. exact Hx. }
    rewrite list_lookup_insert_ne by lia. rewrite (Hlook idx Hidx).
    destruct (decide (idx < k \/ length c - k <= idx)%nat) as [Ha|Ha],
      (decide (idx < S k \/ length c - S k <= idx)%nat) as [Hb|Hb];
      try reflexivity; exfalso; lia.
Qed.

Lemma exchanges_reverse (c : list Z) :
  foldl (fun c i => GoSlice.exchange c (Z.to_nat i) (length c - 1 - Z.to_nat i))
    c (seqZ 0 (Z.quot (Z.of_nat (length c)) 2 - 0))
  = reverse c.
Proof.
  rewrite Z.sub_0_r, Z.quot_div_nonneg by lia.
  replace (Z.of_nat (length c) / 2) with (Z.of_nat (length c / 2))
    by (rewrite Nat2Z.inj_div; reflexivity).
  pose proof (Nat.div_mod_eq (length c) 2) as Hdiv.
  pose proof (Nat.mod_upper_bound (length c) 2 ltac:(lia)) as Hmod.
  destruct (exchanges_lookup c (length c / 2) ltac:(lia)) as [Hlen Hlook].
  apply (list_eq_same_length _ _ (length c)); [apply length_reverse|exact Hlen|].
  intros idx x y Hidx Hx Hy. rewrite Hlook in Hx by assumption.
  rewrite reverse_lookup in Hy by assumption.
  replace (length c - S idx)%nat with (length c - 1 - idx)%nat in Hy by lia.
  destruct (decide _) as [_|Hmid]; [congruence|].
  replace (length c - 1 - idx)%nat with idx in Hy by lia. congruence.
Qed.

(** What [ReverseSlice] leaves in the heap: the array of the slice with
    the part the slice shows reversed, and every other array as it
    was. *)
Lemma ReverseSlice_arrays (a : GoSlice.loc) (off n c : nat) (h : gmap GoSlice.loc (list Z)) :
  (off + n <= length (GoSlice.elements a h))%nat ->
  Z.of_nat n <= GoInt.MaxInt ->
  exists h',
    ReverseSlice (GoSlice.window a off n c) h = (Returns (GoSlice.window a off n c), h') /\
    GoSlice.elements a h'
    = take off (GoSlice.elements a h)
      ++ reverse (take n (drop off (GoSlice.elements a h)))
      ++ drop (off + n) (GoSlice.elements a h) /\
    forall a', a' <> a -> GoSlice.elements a' h' = GoSlice.elements a' h.
Proof.
  intros Hin Hmax. unfold ReverseSlice, for_count.
  run_bind. cbn [GoSlice.len mret Go_ret].
  assert (Forall (fun i => 0 <= i < Z.of_nat n) (seqZ 0 (Z.quot (Z.of_nat n) 2 - 0))) as Hall.
  { apply Forall_seqZ. intros i Hi.
    pose proof (Z.quot_div_nonneg (Z.of_nat n) 2 ltac:(lia) ltac:(lia)).
    assert (2 * (Z.of_nat n / 2) <= Z.of_nat n) by (apply Z.mul_div_le; lia).
    lia. }
  destruct (ReverseSlice_loop_run a off n c _ h Hin Hmax Hall) as (h' & Hrun & Harr & Hothers).
  run_bind. rewrite Hrun. exists h'. split; [reflexivity|]. split; [|exact Hothers].
  rewrite Harr. set (arr := GoSlice.elements a h) in *.
  assert (arr = take off arr ++ take n (drop off arr) ++ drop (off + n) arr) as Hsplit.
  { rewrite <- (take_drop off arr) at 1. f_equal.
    rewrite <- (take_drop n (drop off arr)) at 1. f_equal.
    rewrite drop_drop. reflexivity. }
  assert (length (take off arr) = off) as Hpre by (rewrite length_take; lia).
  assert (length (take n (drop off arr)) = n) as Hwin
    by (rewrite length_take, length_drop; lia).
  remember (take off arr) as pre eqn:Epre.
  remember (take n (drop off arr)) as win eqn:Ewin.
  remember (drop (off + n) arr) as post eqn:Epost.
  rewrite Hsplit, <- Hpre.
  rewrite (exchanges_window pre post n _ win Hwin Hall).
  rewrite <- Hwin at 1. rewrite exchanges_reverse. reflexivity.
Qed.

(** A cell of the array with a part reversed holds what the cell that
    faces it held. *)
Lemma lookup_reversed_part {V} (arr : list V) (off n i : nat) :
  (off + n <= length arr)%nat ->
  (take off arr ++ reverse (take n (drop off arr)) ++ drop (off + n) arr) !! i
  = arr !! (if ((off <=? i) && (i <? off + n))%nat then off + (off + n - 1 - i) else i)%nat.
Proof.
  intros Hin.
  assert (length (take off arr) = off) as Hpre by (rewrite length_take; lia).
  assert (length (take n (drop off arr)) = n) as Hwin
    by (rewrite length_take, length_drop; lia).
  destruct (Nat.leb_spec off i) as [Hlo|Hlo]; cbn [andb].
  - rewrite lookup_app_r by lia. rewrite Hpre.
    destruct (Nat.ltb_spec i (off + n)) as [Hhi|Hhi].
    + rewrite lookup_app_l by (rewrite length_reverse; lia).
      rewrite reverse_lookup by lia. rewrite Hwin.
      rewrite lookup_take_lt by lia. rewrite lookup_drop. f_equal. lia.
    + rewrite lookup_app_r by (rewrite length_reverse; lia).
      rewrite length_reverse, Hwin, lookup_drop. f_equal. lia.
  - rewrite lookup_app_l by lia. apply lookup_take_lt. exact Hlo.
Qed.

Lemma ReverseSlice_run (numbers : GoSlice.ref) (h : gmap GoSlice.loc (list Z)) :
  GoSlice.valid numbers h ->
  Z.of_nat (length (GoSlice.contents numbers h)) <= GoInt.MaxInt ->
  exists h',
    ReverseSlice numbers h = (Returns numbers, h') /\
    GoSlice.contents numbers h' = reverse (GoSlice.contents numbers h) /\
    (forall a i, GoSlice.cell a i h' = GoSlice.cell a (GoSlice.mirror numbers a i) h) /\
    (forall a, length (GoSlice.elements a h') = length (GoSlice.elements a h)).
Proof.
  intros Hvalid Hmax. destruct numbers as [|a off n c].
  - exists h. split; [reflexivity|]. split; [reflexivity|]. split; reflexivity.
  - cbn [GoSlice.valid GoSlice.contents] in *. destruct Hvalid as [Hcap Hin].
    rewrite length_take, length_drop in Hmax.
    destruct (ReverseSlice_arrays a off n c h ltac:(lia) ltac:(lia))
      as (h' & Hrun & Harr & Hothers).
    set (arr := GoSlice.elements a h) in *.
    assert (length (take off arr) = off) as Hpre by (rewrite length_take; lia).
    assert (length (take n (drop off arr)) = n) as Hwin
      by (rewrite length_take, length_drop; lia).
    exists h'. split; [exact Hrun|]. split; [|split].
    + rewrite Harr. rewrite drop_app_length' by (symmetry; exact Hpre).
      apply take_app_length'. rewrite length_reverse. symmetry. exact Hwin.
    + intros a' i. unfold GoSlice.cell, GoSlice.mirror, GoSlice.shows.
      destruct (decide (a' = a)) as [->|Hne].
      * rewrite bool_decide_eq_true_2 by reflexivity. cbn [andb]. fold arr.
        rewrite Harr. apply lookup_reversed_part. lia.
      * rewrite bool_decide_eq_false_2 by exact Hne. cbn [andb].
        rewrite (Hothers a' Hne). reflexivity.
    + intros a'. destruct (decide (a' = a)) as [->|Hne].
      * fold arr. rewrite Harr.
        rewrite !length_app, length_reverse, Hpre, Hwin, length_drop. lia.
      * rewrite (Hothers a' Hne). reflexivity.
Qed.

(** A slice that shares no index with the one written to shows what it
    showed. *)
Lemma contents_disjoint {V} (s numbers : GoSlice.ref) (h h' : gmap GoSlice.loc (list V)) :
  (forall a i, GoSlice.cell a i h' = GoSlice.cell a (GoSlice.mirror numbers a i) h) ->
  GoSlice.disjoint s numbers ->
  GoSlice.contents s h' = GoSlice.contents s h.
Proof.
  intros Hcells Hdis. destruct s as [|a off n c]; [reflexivity|].
  cbn [GoSlice.contents]. apply list_eq. intros k.
  rewrite !lookup_take. destruct (decide (k < n)%nat) as [Hk|Hk]; [|reflexivity].
  rewrite !lookup_drop. fold (GoSlice.cell a (off + k) h') (GoSlice.cell a (off + k) h).
  rewrite Hcells. f_equal. unfold GoSlice.mirror.
  destruct numbers as [|a' off' n' c']; [reflexivity|].
  rewrite (Hdis a (off + k)%nat); [reflexivity|].
  cbn [GoSlice.shows]. rewrite bool_decide_eq_true_2 by reflexivity.
  destruct (Nat.leb_spec off (off + k)), (Nat.ltb_spec (off + k) (off + n)); try lia; reflexivity.
Qed.

(** The index that faces the index that faces [i] is [i]. *)
Lemma mirror_mirror (s : GoSlice.ref) (a : GoSlice.loc) (i : nat) :
  GoSlice.mirror s a (GoSlice.mirror s a i) = i.
Proof.
  destruct s as [|a' off n c]; [reflexivity|].
  unfold GoSlice.mirror. destruct (GoSlice.shows _ a i) eqn:Hs.
  - cbn [GoSlice.shows] in *.
    apply andb_prop in Hs as [Hs Hhi]. apply andb_prop in Hs as [Ha Hlo].
    apply Nat.leb_le in Hlo. apply Nat.ltb_lt in Hhi.
    rewrite Ha. cbn [andb].
    destruct (Nat.leb_spec off (off + (off + n - 1 - i))),
      (Nat.ltb_spec (off + (off + n - 1 - i)) (off + n)); try lia.
    cbn [andb]. lia.
  - rewrite Hs. reflexivity.
Qed.

(** X3: [ReverseSlice] of a slice that lies within its array does not
    panic and returns the slice it was given, which then shows the
    elements it showed in the reverse order.  In memory, every cell
    holds what the cell that faces it in the slice held: the cells the
    slice does not show, and the other arrays, are as they were.  So
    every slice shows, at each of its indices, what the facing cell
    held: a slice that shares cells with the one reversed changes with
    it, and a slice that shares none shows what it showed. *)
Theorem ReverseSlice_reverses (numbers : GoSlice.ref) (h : gmap GoSlice.loc (list Z)) :
  GoSlice.valid numbers h ->
  Z.of_nat (length (GoSlice.contents numbers h)) <= GoInt.MaxInt ->
  exists h',
    ReverseSlice numbers h = (Returns numbers, h') /\
    GoSlice.contents numbers h' = reverse (GoSlice.contents numbers h) /\
    (forall a i, GoSlice.cell a i h' = GoSlice.cell a (GoSlice.mirror numbers a i) h) /\
    (forall s, GoSlice.valid s h -> GoSlice.valid s h') /\
    (forall a off n c k, (k < n)%nat ->
       GoSlice.contents (GoSlice.window a off n c) h' !! k
       = GoSlice.cell a (GoSlice.mirror numbers a (off + k)) h) /\
    (forall s, GoSlice.disjoint s numbers ->
               GoSlice.contents s h' = GoSlice.contents s h).
Proof.
  intros Hvalid Hmax.
  destruct (ReverseSlice_run numbers h Hvalid Hmax) as (h' & Hrun & Hrev & Hcells & Hlen).
  exists h'. split; [exact Hrun|]. split; [exact Hrev|]. split; [exact Hcells|].
  split; [|split].
  - intros [|a off n c]; [trivial|]. cbn [GoSlice.valid]. rewrite Hlen. trivial.
  - intros a off n c k Hk. cbn [GoSlice.contents].
    rewrite lookup_take_lt, lookup_drop by exact Hk. apply Hcells.
  - intros s Hdis. exact (contents_disjoint s numbers h h' Hcells Hdis).
Qed.

(** X4: reversing a slice twice gives back the elements it had, and
    every slice, those that share its array included, shows what it
    showed. *)
Theorem ReverseSlice_twice (numbers : GoSlice.ref) (h : gmap GoSlice.loc (list Z)) :
  GoSlice.valid numbers h ->
  Z.of_nat (length (GoSlice.contents numbers h)) <= GoInt.MaxInt ->
  exists h',
    (once ← ReverseSlice numbers; ReverseSlice once) h = (Returns numbers, h') /\
    GoSlice.contents numbers h' = GoSlice.contents numbers h /\
    forall s, GoSlice.contents s h' = GoSlice.contents s h.
Proof.
  intros Hvalid Hmax.
  destruct (ReverseSlice_run numbers h Hvalid Hmax) as (h1 & Hrun1 & Hc1 & Hcells1 & Hlen1).
  destruct (ReverseSlice_run numbers h1) as (h2 & Hrun2 & Hc2 & Hcells2 & Hlen2).
  { destruct numbers as [|a off n c]; [trivial|].
    cbn [GoSlice.valid] in *. rewrite Hlen1. exact Hvalid. }
  { rewrite Hc1, length_reverse. exact Hmax. }
  assert (forall a, GoSlice.elements a h2 = GoSlice.elements a h) as Hsame.
  { intros a. apply list_eq. intros i.
    fold (GoSlice.cell a i h2) (GoSlice.cell a i h).
    rewrite Hcells2, Hcells1, mirror_mirror. reflexivity. }
  exists h2. unfold mbind, Go_bind. rewrite Hrun1, Hrun2.
  split; [reflexivity|]. split.
  - rewrite Hc2, Hc1. apply reverse_involutive.
  - intros [|a off n c]; [reflexivity|]. cbn [GoSlice.contents].
    rewrite Hsame. reflexivity.
Qed.

End ReverseSliceFacts.

(** ** Loops over slices *)

Section LoopFacts.
Context {S A B : Type}.

Lemma Go_bind_run {C D : Type} (m : Go S C) (k : C -> Go S D) (s : S) :
  (m ≫= k) s
  = match m s with
    | (Returns a, s') => k a s'
    | (Panics msg, s') => (Panics msg, s')
    end.
Proof. reflexivity. Qed.

(** A loop whose body always returns and leaves the state as it is
    computes a left fold. *)
Lemma fold_each_pure (body : A -> B -> Go S B) (step : B -> A -> B) (l : list A) :
  (forall x acc s, body x acc s = (Returns (step acc x), s)) ->
  forall acc s, fold_each l body acc s = (Returns (foldl step acc l), s).
Proof.
  intros Hbody. induction l as [|x l IH]; intros acc s; cbn [fold_each foldl].
  - reflexivity.
  - unfold mbind, Go_bind. rewrite Hbody. apply IH.
Qed.

(** A counted loop that reads [l[i]] in round [i] visits the elements of
    [l] from the first index on, in their order. *)
Lemma fold_count_index (l : list A) (f : A -> B -> Go S B) (n : nat) :
  forall (k : nat) (acc : B) (s : S),
    (k + n = length l)%nat ->
    fold_count (Z.of_nat k) (Z.of_nat (length l))
      (fun i acc => index_slice l i ≫= fun v => f v acc) acc s
    = fold_each (drop k l) f acc s.
Proof.
  unfold fold_count. induction n as [|n IH]; intros k acc s Hk.
  - rewrite seqZ_nil by lia. rewrite drop_ge by lia. reflexivity.
  - rewrite seqZ_cons by lia.
    destruct (lookup_lt_is_Some_2 l k ltac:(lia)) as [x Hx].
    rewrite (drop_S l x k Hx). cbn [fold_each]. rewrite !Go_bind_run.
    unfold index_slice at 1. destruct (Z.ltb_spec (Z.of_nat k) 0); [lia|].
    rewrite Nat2Z.id, Hx. cbn [mret Go_ret].
    destruct (f x acc s) as [[acc'|msg] s']; [|reflexivity].
    replace (Z.succ (Z.of_nat k)) with (Z.of_nat (Datatypes.S k)) by lia.
    replace (Z.pred (Z.of_nat (length l) - Z.of_nat k))
      with (Z.of_nat (length l) - Z.of_nat (Datatypes.S k)) by lia.
    apply IH. lia.
Qed.

End LoopFacts.

(** ** Filter and Max *)

Section FilterFacts.
Context {S : Type}.

Lemma Solutions_Filter_body_run (typeName : string) (v : value) (result : list value)
    (s : S) :
  Solutions.Filter_body typeName v result s
  = (Returns (if Solutions.switch_matches typeName v then result ++ [v] else result), s).
Proof.
  unfold Solutions.Filter_body, Solutions.switch_matches.
  destruct (String.eqb typeName "int"); [destruct v; reflexivity|].
  destruct (String.eqb typeName "string"); [destruct v; reflexivity|].
  destruct (String.eqb typeName "float64"); [destruct v; reflexivity|].
  destruct (String.eqb typeName "bool"); [destruct v; reflexivity|].
  reflexivity.
Qed.

Lemma foldl_keep {A : Type} (keep : A -> bool) (l : list A) :
  forall acc : list A,
    foldl (fun acc x => if keep x then acc ++ [x] else acc) acc l
    = acc ++ List.filter keep l.
Proof.
  induction l as [|x l IH]; intros acc; cbn [foldl List.filter].
  - rewrite app_nil_r. reflexivity.
  - rewrite IH. destruct (keep x); [|reflexivity].
    rewrite <- app_assoc. reflexivity.
Qed.

Lemma Solutions_Filter_run (values : list value) (typeName : string) (s : S) :
  Solutions.Filter values typeName s
  = (Returns (List.filter (Solutions.switch_matches typeName) values), s).
Proof.
  unfold Solutions.Filter.
  rewrite (fold_each_pure _
             (fun acc x => if Solutions.switch_matches typeName x then acc ++ [x] else acc)).
  - rewrite foldl_keep. reflexivity.
  - intros x acc s'. apply Solutions_Filter_body_run.
Qed.

Lemma switch_matches_GetTypeName (typeName : string) (v : value) (s : S) :
  Solutions.switch_matches typeName v = true <->
  (typeName = "int" \/ typeName = "string" \/ typeName = "float64" \/ typeName = "bool") /\
  Solutions.GetTypeName v s = (Returns typeName, s).
Proof.
  unfold Solutions.switch_matches.
  destruct (String.eqb_spec typeName "int") as [->|H1].
  { destruct v; cbn; split; try discriminate; try (intros [_ [=]]); auto. }
  destruct (String.eqb_spec typeName "string") as [->|H2].
  { destruct v; cbn; split; try discriminate; try (intros [_ [=]]); auto. }
  destruct (String.eqb_spec typeName "float64") as [->|H3].
  { destruct v; cbn; split; try discriminate; try (intros [_ [=]]); auto 6. }
  destruct (String.eqb_spec typeName "bool") as [->|H4].
  { destruct v; cbn; split; try discriminate; try (intros [_ [=]]); auto 6. }
  split; [discriminate|]. intros [[?|[?|[?|?]]] _]; congruence.
Qed.

(** X5: the solution's [Filter] never panics and returns, in their
    order, exactly the values whose type name, as [GetTypeName] gives it,
    is [typeName], when [typeName] is one of "int", "string", "float64"
    and "bool"; for any other [typeName] it returns the empty slice. *)
Theorem Solutions_Filter_spec (values : list value) (typeName : string) (s : S) :
  Solutions.Filter values typeName s
  = (Returns (List.filter (Solutions.switch_matches typeName) values), s) /\
  (forall v : value,
      Solutions.switch_matches typeName v = true <->
      (typeName = "int" \/ typeName = "string" \/
       typeName = "float64" \/ typeName = "bool") /\
      Solutions.GetTypeName v s = (Returns typeName, s)) /\
  (typeName <> "int" -> typeName <> "string" ->
   typeName <> "float64" -> typeName <> "bool" ->
   Solutions.Filter values typeName s = (Returns [], s)).
Proof.
  split; [apply Solutions_Filter_run|]. split.
  - intros v. apply switch_matches_GetTypeName.
  - intros H1 H2 H3 H4. rewrite Solutions_Filter_run. do 2 f_equal.
    induction values as [|v values IH]; [reflexivity|]. cbn [List.filter].
    destruct (Solutions.switch_matches typeName v) eqn:E; [|exact IH].
    apply (switch_matches_GetTypeName typeName v s) in E as [[?|[?|[?|?]]] _];
      congruence.
Qed.

End FilterFacts.

Section MaxFacts.
Context {S : Type}.

Lemma greater_int_lower (l : list value) :
  forall init : Z, init <= foldl Solutions.greater_int init l.
Proof.
  induction l as [|v l IH]; intros init; cbn [foldl]; [lia|].
  etransitivity; [|apply IH]. destruct v; cbn; try lia.
  destruct (Z.gtb_spec n init); lia.
Qed.

Lemma greater_int_upper (l : list value) :
  forall (init n : Z), In (VInt n) l -> n <= foldl Solutions.greater_int init l.
Proof.
  induction l as [|v l IH]; intros init n Hin; [destruct Hin|].
  cbn [foldl]. destruct Hin as [->|Hin]; [|apply IH; exact Hin].
  etransitivity; [|apply greater_int_lower]. cbn.
  destruct (Z.gtb_spec n init); lia.
Qed.

Lemma greater_int_elem (l : list value) :
  forall init : Z,
    foldl Solutions.greater_int init l = init \/
    In (VInt (foldl Solutions.greater_int init l)) l.
Proof.
  induction l as [|v l IH]; intros init; cbn [foldl]; [left; reflexivity|].
  destruct (IH (Solutions.greater_int init v)) as [E|E]; [|right; right; exact E].
  rewrite E. destruct v; cbn; auto.
  destruct (n >? init); auto.
Qed.

Lemma Solutions_Max_loop (values : list value) (max : Z) (s : S) :
  (1 <= length values)%nat ->
  fold_count 1 (Z.of_nat (length values)) (Solutions.Max_body values) max s
  = (Returns (foldl Solutions.greater_int max (drop 1 values)), s).
Proof.
  intros Hlen.
  etransitivity;
    [apply (fold_count_index values
              (fun v max =>
                 let '(val, ok) := assert_int_ok v in
                 if ok then if val >? max then mret val else mret max
                 else mret max)
              (length values - 1) 1); lia|].
  apply fold_each_pure. intros v acc s'. destruct v; try reflexivity.
  cbn. destruct (n >? acc); reflexivity.
Qed.

Lemma Solutions_Max_run (n0 : Z) (rest : list value) (s : S) :
  Solutions.Max (VInt n0 :: rest) s
  = (Returns (VInt (foldl Solutions.greater_int n0 rest)), s).
Proof.
  unfold Solutions.Max. cbn [assert_int_ok negb]. rewrite Go_bind_run.
  rewrite Solutions_Max_loop by (cbn; lia). reflexivity.
Qed.

(** X6: the solution's [Max] never panics.  It returns nil for the empty
    slice and for a slice whose first value is not an [int]; when the
    first value is an [int] it returns an [int] of the slice that is
    greater than or equal to every [int] of the slice, the values of
    other types being skipped. *)
Theorem Solutions_Max_spec (s : S) :
  Solutions.Max [] s = (Returns VNil, s) /\
  (forall (first : value) (rest : list value),
      (forall n, first <> VInt n) ->
      Solutions.Max (first :: rest) s = (Returns VNil, s)) /\
  (forall (n0 : Z) (rest : list value),
      exists m : Z,
        Solutions.Max (VInt n0 :: rest) s = (Returns (VInt m), s) /\
        In (VInt m) (VInt n0 :: rest) /\
        forall n, In (VInt n) (VInt n0 :: rest) -> n <= m).
Proof.
  split; [reflexivity|]. split.
  - intros first rest Hfirst. destruct first; try reflexivity.
    exfalso. eapply Hfirst. reflexivity.
  - intros n0 rest. eexists. split; [apply Solutions_Max_run|]. split.
    + destruct (greater_int_elem rest n0) as [-> | E]; [left; reflexivity|right; exact E].
    + intros n [[= <-]|Hin]; [apply greater_int_lower|apply greater_int_upper; exact Hin].
Qed.

(** On [int]s alone the loop of [Max] is that of [FindMax]. *)
Lemma greater_int_FindMax (l : list Z) :
  forall init : Z,
    foldl Solutions.greater_int init (map VInt l)
    = foldl BasicsSolutions.FindMax_step init l.
Proof.
  induction l as [|x l IH]; intros init; [reflexivity|].
  cbn [map foldl]. rewrite IH. reflexivity.
Qed.

Lemma FindMax_from_first (first : Z) (rest : list Z) :
  BasicsSolutions.FindMax (first :: rest)
  = foldl BasicsSolutions.FindMax_step first rest.
Proof.
  unfold BasicsSolutions.FindMax. cbn [foldl].
  unfold BasicsSolutions.FindMax_step at 2.
  destruct (Z.gtb_spec first first); [lia|reflexivity].
Qed.

Lemma Exercises_Max_loop_ints (values : list value) (l : list Z) (max : Z) (s : S) :
  (1 <= length values)%nat -> drop 1 values = map VInt l ->
  fold_count 1 (Z.of_nat (length values)) (Exercises.Max_body values) max s
  = (Returns (foldl BasicsSolutions.FindMax_step max l), s).
Proof.
  intros Hlen Hdrop.
  etransitivity;
    [apply (fold_count_index values
              (fun v max =>
                 assert_int v ≫= fun val => if val >? max then mret val else mret max)
              (length values - 1) 1); lia|].
  rewrite Hdrop. clear. revert max.
  induction l as [|x l IH]; intros max; [reflexivity|].
  cbn [map fold_each foldl]. rewrite Go_bind_run. cbn [assert_int].
  rewrite Go_bind_run. cbn [mret Go_ret]. unfold BasicsSolutions.FindMax_step at 2.
  destruct (x >? max); apply IH.
Qed.

Lemma Exercises_loop_panics (g : Z -> Z -> Go S Z) (l : list value) :
  (exists v, In v l /\ forall n, v <> VInt n) ->
  forall (acc : Z) (s : S),
    (forall val max s', exists r, g val max s' = (Returns r, s')) ->
    exists msg,
      fold_each l (fun v max => assert_int v ≫= fun val => g val max) acc s
      = (Panics msg, s).
Proof.
  intros (v & Hin & Hv). induction l as [|x l IH]; intros acc s Hg; [destruct Hin|].
  cbn [fold_each]. rewrite Go_bind_run, Go_bind_run.
  destruct x as [|n| | | | | | |];
    try (eexists; reflexivity).
  cbn [assert_int mret Go_ret]. destruct (Hg n acc s) as [r ->].
  destruct Hin as [<-|Hin]; [exfalso; eapply Hv; reflexivity|].
  apply IH; assumption.
Qed.

(** X7: on a non-empty slice of [int]s the exercise's [Max] and the
    solution's [Max] both return what [FindMax] returns; the exercise's
    [Max] panics as soon as a value of the slice is not an [int]. *)
Theorem Max_agrees_with_FindMax (s : S) :
  (forall l : list Z, l <> [] ->
     Solutions.Max (map VInt l) s = (Returns (VInt (BasicsSolutions.FindMax l)), s) /\
     Exercises.Max (map VInt l) s = (Returns (VInt (BasicsSolutions.FindMax l)), s)) /\
  (forall values : list value,
     (exists v, In v values /\ forall n, v <> VInt n) ->
     exists msg, Exercises.Max values s = (Panics msg, s)).
Proof.
  split.
  - intros [|first rest] Hne; [congruence|]. cbn [map]. split.
    + rewrite Solutions_Max_run, greater_int_FindMax, FindMax_from_first. reflexivity.
    + unfold Exercises.Max. rewrite Go_bind_run. cbn [assert_int mret Go_ret].
      rewrite Go_bind_run.
      rewrite (Exercises_Max_loop_ints _ rest) by (cbn; (lia || reflexivity)).
      rewrite FindMax_from_first. reflexivity.
  - intros [|first rest] (v & Hin & Hv); [destruct Hin|].
    unfold Exercises.Max. rewrite Go_bind_run.
    destruct first as [|n0| | | | | | |]; try (eexists; reflexivity).
    cbn [assert_int mret Go_ret]. rewrite Go_bind_run.
    destruct Hin as [<-|Hin]; [exfalso; eapply Hv; reflexivity|].
    assert (exists msg,
              fold_count 1 (Z.of_nat (length (VInt n0 :: rest)))
                (Exercises.Max_body (VInt n0 :: rest)) n0 s = (Panics msg, s))
      as [msg ->]; [|eexists; reflexivity].
    assert (forall msg,
              fold_each (drop 1 (VInt n0 :: rest))
                (fun v max =>
                   assert_int v ≫= fun val => if val >? max then mret val else mret max)
                n0 s = (Panics msg, s) ->
              fold_count 1 (Z.of_nat (length (VInt n0 :: rest)))
                (Exercises.Max_body (VInt n0 :: rest)) n0 s = (Panics msg, s)) as Hloop.
    { intros msg <-.
      apply (fold_count_index (VInt n0 :: rest)
               (fun v max =>
                  assert_int v ≫= fun val => if val >? max then mret val else mret max)
               (length rest) 1). cbn. lia. }
    destruct (Exercises_loop_panics
                (fun val max => if val >? max then mret val else mret max) rest
                (ex_intro _ v (conj Hin Hv)) n0 s) as [msg Hmsg].
    { intros val max s'. destruct (val >? max); eexists; reflexivity. }
    exists msg. apply Hloop. exact Hmsg.
Qed.

End MaxFacts.

Section FilterMaxFacts.
Context {S : Type}.

(** X8: [Max] of what [Filter] keeps for "int" is nil when the slice
    holds no [int], and otherwise the greatest [int] of the slice,
    wherever the [int]s stand in it. *)
Theorem Max_of_Filter (values : list value) (s : S) :
  exists r : value,
    (ints ← Solutions.Filter values "int"; Solutions.Max ints) s = (Returns r, s) /\
    ((forall n, ~ In (VInt n) values) -> r = VNil) /\
    (forall n, In (VInt n) values ->
       exists m, r = VInt m /\ In (VInt m) values /\
                 forall n', In (VInt n') values -> n' <= m).
Proof.
  rewrite Go_bind_run, Solutions_Filter_run.
  assert (forall v, In v (List.filter (Solutions.switch_matches "int") values) <->
                    In v values /\ exists n, v = VInt n) as Hin.
  { intros v. rewrite List.filter_In. split; intros [Hv Hint]; (split; [exact Hv|]).
    - destruct v; try discriminate. eexists. reflexivity.
    - destruct Hint as [n ->]. reflexivity. }
  destruct (List.filter (Solutions.switch_matches "int") values) as [|first rest].
  - exists VNil. split; [reflexivity|]. split; [reflexivity|].
    intros n Hn. exfalso. apply (Hin (VInt n)). split; [exact Hn|eexists; reflexivity].
  - destruct (proj1 (Hin first) (or_introl eq_refl)) as [_ [n0 ->]].
    eexists. split; [apply Solutions_Max_run|]. split.
    + intros Hnone. exfalso. apply (Hnone n0).
      apply (Hin (VInt n0)). left. reflexivity.
    + intros n Hn. eexists. split; [reflexivity|]. split.
      * destruct (greater_int_elem rest n0) as [-> | E].
        -- apply (Hin (VInt n0)). left. reflexivity.
        -- apply (Hin _). right. exact E.
      * intros n' Hn'.
        assert (In (VInt n') (VInt n0 :: rest)) as [[= <-]|Hrest]
          by (apply Hin; split; [exact Hn'|eexists; reflexivity]).
        -- apply greater_int_lower.
        -- apply greater_int_upper. exact Hrest.
Qed.

(** A loop panics when its body panics on some element and returns,
    leaving the state as it is, on the others. *)
Lemma fold_each_panics {A B : Type} (body : A -> B -> Go S B) (bad : A -> bool)
    (l : list A) :
  (forall x acc s, bad x = true -> exists msg, body x acc s = (Panics msg, s)) ->
  (forall x acc s, bad x = false -> exists r, body x acc s = (Returns r, s)) ->
  (exists x, In x l /\ bad x = true) ->
  forall acc s, exists msg, fold_each l body acc s = (Panics msg, s).
Proof.
  intros Hbad Hgood (x & Hin & Hx).
  induction l as [|y l IH]; intros acc s; [destruct Hin|].
  cbn [fold_each]. rewrite Go_bind_run. destruct (bad y) eqn:Hy.
  - destruct (Hbad y acc s Hy) as [msg ->]. eexists. reflexivity.
  - destruct (Hgood y acc s Hy) as [r ->].
    destruct Hin as [->|Hin]; [congruence|]. apply IH. exact Hin.
Qed.

Lemma Exercises_Filter_ints (l : list Z) :
  forall (acc : list value) (s : S),
    fold_each (map VInt l) (Exercises.Filter_body "int") acc s
    = (Returns (acc ++ map VInt l), s).
Proof.
  induction l as [|x l IH]; intros acc s; cbn [map fold_each].
  - rewrite app_nil_r. reflexivity.
  - rewrite Go_bind_run.
    change (Exercises.Filter_body "int" (VInt x) acc s)
      with (Returns (acc ++ [VInt x]), s).
    cbv beta iota. rewrite IH, <- app_assoc. reflexivity.
Qed.

Lemma Exercises_Filter_strings (l : list string) :
  forall (acc : list value) (s : S),
    fold_each (map VString l) (Exercises.Filter_body "string") acc s
    = (Returns (acc ++ map VString l), s).
Proof.
  induction l as [|x l IH]; intros acc s; cbn [map fold_each].
  - rewrite app_nil_r. reflexivity.
  - rewrite Go_bind_run.
    change (Exercises.Filter_body "string" (VString x) acc s)
      with (Returns (acc ++ [VString x]), s).
    cbv beta iota. rewrite IH, <- app_assoc. reflexivity.
Qed.

(** X9: the exercise's [Filter] returns the slice as it is when every
    value has the type asked for, "int" or "string", as the solution's
    does; it panics when a value has another type; and for every other
    type name it returns the empty slice. *)
Theorem Exercises_Filter_spec (s : S) :
  (forall l : list Z,
      Exercises.Filter (map VInt l) "int" s = (Returns (map VInt l), s) /\
      Solutions.Filter (map VInt l) "int" s = (Returns (map VInt l), s)) /\
  (forall l : list string,
      Exercises.Filter (map VString l) "string" s = (Returns (map VString l), s) /\
      Solutions.Filter (map VString l) "string" s = (Returns (map VString l), s)) /\
  (forall values : list value,
      (exists v, In v values /\ forall n, v <> VInt n) ->
      exists msg, Exercises.Filter values "int" s = (Panics msg, s)) /\
  (forall values : list value,
      (exists v, In v values /\ forall str, v <> VString str) ->
      exists msg, Exercises.Filter values "string" s = (Panics msg, s)) /\
  (forall (values : list value) (typeName : string),
      typeName <> "int" -> typeName <> "string" ->
      Exercises.Filter values typeName s = (Returns [], s)).
Proof.
  split; [|split; [|split; [|split]]].
  - intros l. split; [apply Exercises_Filter_ints|].
    rewrite Solutions_Filter_run. do 2 f_equal.
    induction l as [|x l IH]; [reflexivity|]. cbn. rewrite IH. reflexivity.
  - intros l. split; [apply Exercises_Filter_strings|].
    rewrite Solutions_Filter_run. do 2 f_equal.
    induction l as [|x l IH]; [reflexivity|]. cbn. rewrite IH. reflexivity.
  - intros values (v & Hin & Hv).
    apply (fold_each_panics _ (fun v => negb (assert_int_ok v).2)).
    + intros x acc s' Hx. destruct x; try discriminate; eexists; reflexivity.
    + intros x acc s' Hx. destruct x; try discriminate. eexists. reflexivity.
    + exists v. split; [exact Hin|]. destruct v; try reflexivity.
      exfalso. eapply Hv. reflexivity.
  - intros values (v & Hin & Hv).
    apply (fold_each_panics _ (fun v => negb (assert_string_ok v).2)).
    + intros x acc s' Hx. destruct x; try discriminate; eexists; reflexivity.
    + intros x acc s' Hx. destruct x; try discriminate. eexists. reflexivity.
    + exists v. split; [exact Hin|]. destruct v; try reflexivity.
      exfalso. eapply Hv. reflexivity.
  - intros values typeName H1 H2. unfold Exercises.Filter.
    rewrite (fold_each_pure _ (fun acc _ => acc)).
    + induction values as [|v values IH]; [reflexivity|exact IH].
    + intros x acc s'. unfold Exercises.Filter_body.
      destruct (String.eqb_spec typeName "int"); [congruence|].
      destruct (String.eqb_spec typeName "string"); [congruence|]. reflexivity.
Qed.

End FilterMaxFacts.

(** ** ProcessValue and the exercise's ConvertToInt *)

Section ProcessValueFacts.
Context {S : Type}.

(** X10: the exercise's [ProcessValue] returns only for a non-empty
    string, with the text "String: " before it, and panics for every
    other value; the solution's never panics, returns the same wherever
    the exercise's returns, and returns "Unknown" exactly for the values
    that are neither a string nor an [int]. *)
Theorem ProcessValue_spec (s : S) :
  (forall str : string, str <> "" ->
      Exercises.ProcessValue (VString str) s = (Returns ("String: " +:+ str), s)) /\
  (forall v : value, (forall str, str <> "" -> v <> VString str) ->
      exists msg, Exercises.ProcessValue v s = (Panics msg, s)) /\
  (forall v : value,
      exists r : string,
        Solutions.ProcessValue v s = (Returns r, s) /\
        (forall r', Exercises.ProcessValue v s = (Returns r', s) -> r' = r) /\
        (r = "Unknown" <-> (forall str, v <> VString str) /\ (forall n, v <> VInt n))).
Proof.
  split; [|split].
  - intros str Hstr. unfold Exercises.ProcessValue. rewrite Go_bind_run. cbn [assert_string mret Go_ret].
    destruct (String.eqb_spec str ""); [congruence|]. reflexivity.
  - intros v Hv. unfold Exercises.ProcessValue. rewrite Go_bind_run.
    destruct v as [| | |str| | | | |]; try (eexists; reflexivity).
    cbn [assert_string mret Go_ret].
    destruct (String.eqb_spec str "") as [->|Hne].
    + cbn [negb]. eexists. reflexivity.
    + exfalso. apply (Hv str Hne). reflexivity.
  - intros v.
    assert (forall w : value, (forall str, w <> VString str) ->
              forall r', Exercises.ProcessValue w s = (Returns r', s) -> False) as Hpanic.
    { intros w Hw r'. unfold Exercises.ProcessValue. rewrite Go_bind_run.
      destruct w; try discriminate. exfalso. eapply Hw. reflexivity. }
    destruct v as [|n|f|str|b|l|l|l|t].
    1, 3, 5, 6, 7, 8, 9:
      exists "Unknown"; split; [reflexivity|]; split;
      [intros r' Hr'; exfalso; apply (Hpanic _ ltac:(discriminate) r' Hr')|];
      split; [intros _; split; intros; discriminate|reflexivity].
    + eexists. split; [reflexivity|]. split.
      * intros r' Hr'. exfalso. apply (Hpanic _ ltac:(discriminate) r' Hr').
      * split; [discriminate|]. intros [_ Hn]. exfalso. eapply Hn. reflexivity.
    + eexists. split; [reflexivity|]. split.
      * intros r'. unfold Exercises.ProcessValue. rewrite Go_bind_run.
        cbn [assert_string mret Go_ret].
        destruct (String.eqb_spec str "") as [->|Hne]; cbn [negb].
        -- rewrite Go_bind_run. discriminate.
        -- intros [= <-]. reflexivity.
      * split; [discriminate|]. intros [Hs _]. exfalso. eapply Hs. reflexivity.
Qed.

Lemma Atoi_error_value (str : string) :
  (strconv.Atoi str).2 <> None ->
  (strconv.Atoi str).1 = 0 \/ (strconv.Atoi str).1 = GoInt.MaxInt \/
  (strconv.Atoi str).1 = GoInt.MinInt.
Proof.
  unfold strconv.Atoi. destruct str as [|c rest]; [auto|].
  destruct (strconv.ParseUint _) as [un [[]|]]; cbn [fst snd]; auto;
    repeat match goal with
      | |- context [if ?b then _ else _] => destruct b; cbn [fst snd]; auto
      end; intros H; exfalso; apply H; reflexivity.
Qed.

(** X11: the exercise's [ConvertToInt] never reports an error.  Its
    [int] is that of the solution whenever the solution reports no
    error; where the solution reports one, the exercise returns 0, or
    the greatest or the least [int]. *)
Theorem Exercises_ConvertToInt_spec (v : value) (s : S) :
  exists n : Z,
    Exercises.ConvertToInt v s = (Returns (n, None), s) /\
    forall (n' : Z) (err : option Solutions.error),
      Solutions.ConvertToInt v s = (Returns (n', err), s) ->
      (err = None -> n = n') /\
      (err <> None -> n = 0 \/ n = GoInt.MaxInt \/ n = GoInt.MinInt).
Proof.
  destruct v as [|i|f|str|b|l|l|l|t];
    cbn [Exercises.ConvertToInt Solutions.ConvertToInt].
  1, 2, 3, 6, 7, 8, 9: eexists; split; [reflexivity|];
    intros n' err [= <- <-];
    (split;
     [first [discriminate | intros _; reflexivity]
     |first [intros H; exfalso; apply H; reflexivity | intros _; left; reflexivity]]).
  - pose proof (Atoi_error_value str) as Hval.
    destruct (strconv.Atoi str) as [result [e|]]; cbn [fst snd] in Hval.
    + eexists. split; [reflexivity|]. intros n' err [= <- <-].
      split; [discriminate|]. intros _. apply Hval. discriminate.
    + eexists. split; [reflexivity|]. intros n' err [= <- <-].
      split; [reflexivity|]. intros H. exfalso. apply H. reflexivity.
  - destruct b; eexists; (split; [reflexivity|]);
      intros n' err [= <- <-]; (split; [reflexivity|]); intros H;
      exfalso; apply H; reflexivity.
Qed.

Example Exercises_ConvertToInt_clamps :
  Exercises.ConvertToInt (VString "9223372036854775808") tt
  = (Returns (GoInt.MaxInt, None), tt) /\
  Exercises.ConvertToInt (VString "12a") tt = (Returns (0, None), tt).
Proof. split; vm_compute; reflexivity. Qed.

End ProcessValueFacts.

(** ** Itoa and Atoi *)

Section ItoaFacts.
Import strconv.

Lemma digit_pretty_N_char (d : N) :
  (d < 10)%N -> digit (pretty_N_char d) = Some (Z.of_N d).
Proof.
  intros Hd.
  assert (d = 0 \/ d = 1 \/ d = 2 \/ d = 3 \/ d = 4 \/ d = 5 \/ d = 6 \/ d = 7 \/
          d = 8 \/ d = 9)%N as H by lia.
  repeat (destruct H as [->|H]; [reflexivity|]). subst d. reflexivity.
Qed.

(** Reading back the digits written for [x] gives [x]. *)
Lemma decimal_pretty_N_go (x : N) :
  forall s : string, decimal 0 (pretty_N_go x s) = decimal (Z.of_N x) s.
Proof.
  induction (N.lt_wf_0 x) as [x _ IH]. intros s.
  destruct (N.eq_dec x 0%N) as [->|Hx]; [reflexivity|].
  rewrite pretty_N_go_step by lia.
  rewrite IH by (apply N.div_lt; lia).
  cbn [decimal]. rewrite digit_pretty_N_char by (apply N.mod_lt; lia).
  f_equal. pose proof (N.div_mod x 10%N ltac:(lia)). lia.
Qed.

Lemma digit_not_sign (c : ascii) (d : Z) :
  digit c = Some d -> Ascii.eqb c "+" = false /\ Ascii.eqb c "-" = false.
Proof.
  intros Hd. split.
  - destruct (Ascii.eqb_spec c "+") as [->|]; [discriminate|reflexivity].
  - destruct (Ascii.eqb_spec c "-") as [->|]; [discriminate|reflexivity].
Qed.

Lemma digits_of_positive (p : positive) :
  exists (c : ascii) (rest : string) (d : Z),
    pretty_N_go (N.pos p) "" = String c rest /\ digit c = Some d /\
    decimal 0 (String c rest) = Some (Z.pos p).
Proof.
  pose proof (decimal_pretty_N_go (N.pos p) "") as Hdec. cbn [decimal] in Hdec.
  destruct (pretty_N_go (N.pos p) "") as [|c rest]; [discriminate|].
  cbn [decimal] in Hdec. destruct (digit c) as [d|] eqn:Hd; [|discriminate].
  exists c, rest, d. split; [reflexivity|]. split; [exact Hd|].
  cbn [decimal]. rewrite Hd. exact Hdec.
Qed.

Lemma denoted_integer_Itoa (z : Z) : denoted_integer (Itoa z) = Some z.
Proof.
  unfold Itoa, pretty, pretty_Z. destruct z as [|p|p].
  - reflexivity.
  - unfold pretty, pretty_positive, pretty, pretty_N.
    destruct (decide (N.pos p = 0%N)) as [|_]; [discriminate|].
    destruct (digits_of_positive p) as (c & rest & d & -> & Hd & Hdec).
    destruct (digit_not_sign c d Hd) as [Hplus Hminus].
    unfold denoted_integer. rewrite Hplus, Hminus. cbn [orb]. rewrite Hdec. reflexivity.
  - unfold pretty, pretty_positive, pretty, pretty_N.
    destruct (decide (N.pos p = 0%N)) as [|_]; [discriminate|].
    destruct (digits_of_positive p) as (c & rest & d & -> & Hd & Hdec).
    change ("-" +:+ String c rest) with (String "-" (String c rest)).
    unfold denoted_integer.
    change (Ascii.eqb "-" "+") with false. change (Ascii.eqb "-" "-") with true.
    cbn [orb]. rewrite Hdec. reflexivity.
Qed.

Lemma Atoi_Itoa (z : Z) : GoInt.is_int z -> Atoi (Itoa z) = (z, None).
Proof.
  intros [Hlo Hhi]. pose proof (Atoi_spec (Itoa z)) as H.
  unfold parses_as_int in H. rewrite denoted_integer_Itoa in H.
  destruct (Z.leb_spec GoInt.MinInt z); [|lia].
  destruct (Z.leb_spec z GoInt.MaxInt); [|lia]. exact H.
Qed.

End ItoaFacts.

Section StringifyFacts.
Context {S : Type}.

(** X12: an [int] written by the solution's [Stringify] is read back by
    the solution's [ConvertToInt], without an error. *)
Theorem Stringify_ConvertToInt_round_trip (n : Z) (s : S) :
  GoInt.is_int n ->
  (text ← Solutions.Stringify (VInt n); Solutions.ConvertToInt (VString text)) s
  = (Returns (n, None), s).
Proof.
  intros Hn. rewrite Go_bind_run. cbn [Solutions.Stringify mret Go_ret].
  cbn [Solutions.ConvertToInt]. rewrite (Atoi_Itoa n Hn). reflexivity.
Qed.

End StringifyFacts.

Lemma Stringify_ConvertToInt_round_trip_witness :
  GoInt.is_int (-42) /\
  (text ← Solutions.Stringify (VInt (-42)); Solutions.ConvertToInt (VString text)) tt
  = (Returns (-42, None), tt).
Proof.
  assert (GoInt.is_int (-42)) as H by (vm_compute; split; discriminate).
  split; [exact H|]. exact (Stringify_ConvertToInt_round_trip (-42) tt H).
Defined.


(** ** TypeSafeMap: writes, reads and Count *)

Section TypeSafeMapLaws.
Import Solutions.

(** X13: on a [TypeSafeMap] whose map has been made, the last [Set] of a
    key wins; two [Set]s of different keys can be exchanged; a string
    stored with [Set] is what [GetString] returns; and a [Set] of one key
    leaves what [GetInt], [GetString] and [Contains] return for every
    other key as it was. *)
Theorem TypeSafeMap_Set_laws (m : TypeSafeMap) (l : GoMap.loc)
    (h : gmap GoMap.loc (gmap string value)) (k : string) :
  data m = GoMap.at_loc l ->
  (forall v1 v2 : value,
      (TypeSafeMap_Set m k v1;; TypeSafeMap_Set m k v2) h = TypeSafeMap_Set m k v2 h) /\
  (forall (k' : string) (v1 v2 : value), k <> k' ->
      (TypeSafeMap_Set m k v1;; TypeSafeMap_Set m k' v2) h
      = (TypeSafeMap_Set m k' v2;; TypeSafeMap_Set m k v1) h) /\
  (forall v : value,
      exists h',
        TypeSafeMap_Set m k v h = (Returns tt, h') /\
        (forall str, v = VString str ->
           TypeSafeMap_GetString m k h' = (Returns str, h')) /\
        (forall k' : string, k' <> k ->
           TypeSafeMap_GetInt m k' h' = ((TypeSafeMap_GetInt m k' h).1, h') /\
           TypeSafeMap_GetString m k' h' = ((TypeSafeMap_GetString m k' h).1, h') /\
           TypeSafeMap_Contains m k' h' = ((TypeSafeMap_Contains m k' h).1, h'))).
Proof.
  intros E. split; [|split].
  - intros v1 v2. rewrite Go_bind_run.
    destruct (Set_run m l k v1 h E) as [-> Hc1].
    destruct (Set_run m l k v2 h E) as [-> _].
    destruct (Set_run m l k v2 (<[l := <[k := v1]> (GoMap.contents (data m) h)]> h) E)
      as [-> _].
    rewrite Hc1, insert_insert_eq, insert_insert_eq. reflexivity.
  - intros k' v1 v2 Hne. rewrite !Go_bind_run.
    destruct (Set_run m l k v1 h E) as [-> Hc1].
    destruct (Set_run m l k' v2 h E) as [-> Hc2].
    destruct (Set_run m l k' v2 (<[l := <[k := v1]> (GoMap.contents (data m) h)]> h) E)
      as [-> _].
    destruct (Set_run m l k v1 (<[l := <[k' := v2]> (GoMap.contents (data m) h)]> h) E)
      as [-> _].
    rewrite Hc1, Hc2, !insert_insert_eq. do 2 f_equal.
    apply insert_insert_ne. congruence.
  - intros v. destruct (Set_run m l k v h E) as [Hrun Hc].
    eexists. split; [exact Hrun|]. split.
    + intros str ->. rewrite GetString_run, Hc, lookup_insert_eq. reflexivity.
    + intros k' Hne.
      rewrite !GetInt_run, !GetString_run, !Contains_run, Hc.
      rewrite lookup_insert_ne by congruence. repeat split; reflexivity.
Qed.

Lemma length_filter_Permutation {A : Type} (keep : A -> bool) (l1 l2 : list A) :
  l1 ≡ₚ l2 -> length (List.filter keep l1) = length (List.filter keep l2).
Proof.
  induction 1 as [|x l1 l2 _ IH|x y l|l1 l2 l3 _ IH1 _ IH2]; cbn [List.filter].
  - reflexivity.
  - destruct (keep x); cbn [length]; congruence.
  - destruct (keep x), (keep y); reflexivity.
  - congruence.
Qed.

Lemma Count_body_run (typeName : string) (v : value) (count : Z)
    (h : gmap GoMap.loc (gmap string value)) :
  Count_body typeName v count h
  = (Returns (if switch_matches typeName v then GoInt.add count 1 else count), h).
Proof.
  unfold Count_body, switch_matches.
  destruct (String.eqb_spec typeName "string") as [->|H1]; [destruct v; reflexivity|].
  destruct (String.eqb_spec typeName "int") as [->|H2]; [destruct v; reflexivity|].
  destruct (String.eqb_spec typeName "float64") as [->|H3]; [destruct v; reflexivity|].
  destruct (String.eqb_spec typeName "bool") as [->|H4]; [destruct v; reflexivity|].
  reflexivity.
Qed.

Lemma Count_foldl (typeName : string) (l : list (string * value)) :
  forall count : Z,
    0 <= count -> count + Z.of_nat (length l) <= GoInt.MaxInt ->
    foldl (fun count kv =>
             if switch_matches typeName kv.2 then GoInt.add count 1 else count)
      count l
    = count + Z.of_nat (length (List.filter (switch_matches typeName) (l.*2))).
Proof.
  assert (GoInt.MaxInt = 9223372036854775807) as HM by reflexivity.
  induction l as [|[k v] l IH]; intros count Hlo Hhi; cbn [foldl fmap list_fmap snd].
  - cbn. lia.
  - cbn [length] in Hhi. cbn [List.filter].
    destruct (switch_matches typeName v).
    + rewrite add_in_range
        by (unfold GoInt.is_int, GoInt.MinInt, GoInt.intSize; lia).
      rewrite IH by lia. cbn [length]. lia.
    + rewrite IH by lia. reflexivity.
Qed.

Variable order : gmap string value -> list (string * value).
Hypothesis order_enumerates : forall m, order m ≡ₚ map_to_list m.

(** X14: [Count] never panics and returns the number of keys whose value
    has the type named, whatever the order in which [range] visits the
    map: the number of values that [Filter] would keep. *)
Theorem Solutions_Count_spec (m : TypeSafeMap) (typeName : string)
    (h : gmap GoMap.loc (gmap string value)) :
  Z.of_nat (size (GoMap.contents (data m) h)) <= GoInt.MaxInt ->
  TypeSafeMap_Count order m typeName h
  = (Returns
       (Z.of_nat (length (List.filter (switch_matches typeName)
                            ((map_to_list (GoMap.contents (data m) h)).*2)))), h).
Proof.
  intros Hsize. unfold TypeSafeMap_Count, GoMap.range_fold.
  pose proof (order_enumerates (GoMap.contents (data m) h)) as Hperm.
  rewrite (fold_each_pure _
             (fun count kv =>
                if switch_matches typeName kv.2 then GoInt.add count 1 else count)).
  2:{ intros kv count s. apply Count_body_run. }
  rewrite Count_foldl.
  - rewrite Z.add_0_l. do 3 f_equal.
    apply length_filter_Permutation, fmap_Permutation, Hperm.
  - lia.
  - rewrite (Permutation_length Hperm), length_map_to_list. lia.
Qed.

End TypeSafeMapLaws.

Section ExerciseTypeSafeMapFacts.

(** X15: the exercise's getters against the solution's, on the same map.
    The exercise's [GetInt] returns exactly when the key holds an [int],
    and then what the solution's returns; for a missing key and for a
    value of another type it panics, where the solution's returns 0.
    The exercise's [Contains] is true exactly when the key holds a value
    that is not nil; the solution's is true for every key of the map, so
    the two differ exactly on the keys that hold nil. *)
Theorem Exercises_TypeSafeMap_spec (d : GoMap.ref) (k : string)
    (h : gmap GoMap.loc (gmap string value)) :
  (forall n : Z, GoMap.contents d h !! k = Some (VInt n) ->
      Exercises.TypeSafeMap_GetInt {| Exercises.data := d |} k h = (Returns n, h) /\
      Solutions.TypeSafeMap_GetInt {| Solutions.data := d |} k h = (Returns n, h)) /\
  ((forall n : Z, GoMap.contents d h !! k <> Some (VInt n)) ->
      (exists msg,
         Exercises.TypeSafeMap_GetInt {| Exercises.data := d |} k h = (Panics msg, h)) /\
      Solutions.TypeSafeMap_GetInt {| Solutions.data := d |} k h = (Returns 0, h)) /\
  (exists b b' : bool,
      Exercises.TypeSafeMap_Contains {| Exercises.data := d |} k h = (Returns b, h) /\
      Solutions.TypeSafeMap_Contains {| Solutions.data := d |} k h = (Returns b', h) /\
      (b = true <-> exists v, GoMap.contents d h !! k = Some v /\ v <> VNil) /\
      (b' = true <-> exists v, GoMap.contents d h !! k = Some v) /\
      (b <> b' <-> GoMap.contents d h !! k = Some VNil)).
Proof.
  split; [|split].
  - intros n Hk. rewrite GetInt_run. cbn [Solutions.data]. rewrite Hk.
    split; [|reflexivity].
    unfold Exercises.TypeSafeMap_GetInt, GoMap.index. rewrite Go_bind_run.
    cbn [Exercises.data]. rewrite Hk. reflexivity.
  - intros Hk. rewrite GetInt_run. cbn [Solutions.data].
    unfold Exercises.TypeSafeMap_GetInt, GoMap.index. rewrite Go_bind_run.
    cbn [Exercises.data].
    destruct (GoMap.contents d h !! k) as [[|n| | | | | | |]|];
      try (split; [eexists; reflexivity|reflexivity]).
    exfalso. apply (Hk n). reflexivity.
  - rewrite Contains_run. cbn [Solutions.data].
    unfold Exercises.TypeSafeMap_Contains, GoMap.index. rewrite Go_bind_run.
    cbn [Exercises.data mret Go_ret].
    destruct (GoMap.contents d h !! k) as [v|]; cbn [default from_option id].
    + eexists _, _. split; [reflexivity|]. split; [reflexivity|].
      rewrite bool_decide_eq_true. split; [|split].
      * destruct v; split; try discriminate;
          try (intros _; eexists; split; [reflexivity|discriminate]);
          try (intros _; reflexivity).
        intros (v & [= <-] & Hv). congruence.
      * split; [intros _; eexists; reflexivity|intros _; eexists; reflexivity].
      * rewrite (bool_decide_eq_true_2 (is_Some (Some v))) by (eexists; reflexivity).
        destruct v; split; try congruence; try discriminate; intros _; discriminate.
    + eexists _, _. split; [reflexivity|]. split; [reflexivity|].
      rewrite bool_decide_eq_true. split; [|split].
      * split; [discriminate|]. intros (v & Hv & _). discriminate.
      * split; [intros [v Hv]; discriminate|intros [v Hv]; discriminate].
      * rewrite (bool_decide_eq_false_2 (is_Some None))
          by (intros [v Hv]; discriminate).
        split; [congruence|discriminate].
Qed.

End ExerciseTypeSafeMapFacts.

(** ** Shapes: TotalArea, CalculateStats and FindLargestShape *)

Section ShapeSliceFacts.
Import Exercises.
Context {S : Type}.

Lemma fold_each_snoc {A B : Type} (body : A -> B -> Go S B) (l : list A) (x : A) :
  forall (acc : B) (s : S),
    fold_each (l ++ [x]) body acc s = (fold_each l body acc ≫= body x) s.
Proof.
  induction l as [|y l IH]; intros acc s; cbn [app fold_each].
  - rewrite !Go_bind_run. cbn [mret Go_ret].
    destruct (body x acc s) as [[r|msg] s']; reflexivity.
  - rewrite !Go_bind_run. destruct (body y acc s) as [[r|msg] s']; [|reflexivity].
    rewrite IH, Go_bind_run. reflexivity.
Qed.

Lemma fold_each_ext {A B : Type} (body1 body2 : A -> B -> Go S B) (l : list A) :
  (forall x acc s, In x l -> body1 x acc s = body2 x acc s) ->
  forall acc s, fold_each l body1 acc s = fold_each l body2 acc s.
Proof.
  induction l as [|y l IH]; intros Hext acc s; [reflexivity|].
  cbn [fold_each]. rewrite !Go_bind_run, (Hext y acc s (or_introl eq_refl)).
  destruct (body2 y acc s) as [[r|msg] s']; [|reflexivity].
  apply IH. intros x acc' s'' Hx. apply Hext. right. exact Hx.
Qed.

Lemma TotalArea_body_run (shape : option AnyShape) (total area : float) (s : S) :
  Area shape = Returns area ->
  TotalArea_body shape total s = (Returns (total + area)%float, s).
Proof. intros Harea. unfold TotalArea_body, call, mbind, Go_bind. rewrite Harea. reflexivity. Qed.

Lemma TotalArea_body_panics (shape : option AnyShape) (total : float) (msg : string) (s : S) :
  Area shape = Panics msg ->
  TotalArea_body shape total s = (Panics msg, s).
Proof. intros Harea. unfold TotalArea_body, call, mbind, Go_bind. rewrite Harea. reflexivity. Qed.

Lemma TotalArea_from (shapes : list (option AnyShape)) :
  Forall (fun shape => exists area, Area shape = Returns area) shapes ->
  forall (total : float) (s : S),
    exists total', fold_each shapes TotalArea_body total s = (Returns total', s).
Proof.
  induction shapes as [|shape shapes IH]; intros Hall total s.
  - eexists. reflexivity.
  - apply Forall_cons in Hall as [[area Harea] Hall].
    cbn [fold_each]. rewrite Go_bind_run, (TotalArea_body_run _ _ _ _ Harea).
    apply IH. exact Hall.
Qed.

(** The shapes of the package whose [Area] panics: the nil interface and
    the nil pointers; the [Area] of a [Square], of a [Triangle] and of
    an [*Ellipse] that is not nil returns. *)
Lemma Area_of_shapes (math_Pow : float -> float -> float) :
  Area (None : option AnyShape) = Panics nil_dereference /\
  Area (nil_Ellipse math_Pow) = Panics nil_dereference /\
  Area (Some (PackShape (pointer Square) _ null)) = Panics nil_dereference /\
  (forall sq : Square,
      Area (Some (PackShape Square _ sq)) = Returns (Side sq * Side sq)%float) /\
  (forall t : Triangle,
      Area (Some (PackShape Triangle _ t)) = Returns (0.5 * Base t * Height t)%float) /\
  (forall e : Ellipse,
      Area (Some (PackShape (pointer Ellipse) (Ellipse_Shape math_Pow) (address_of e)))
      = Returns (math.Pi * MajorAxis e * MinorAxis e)%float).
Proof. repeat split. Qed.

(** X16: [TotalArea] is 0 for the empty slice; it adds the areas from
    the first shape to the last, so the total of a slice with one more
    shape at its end is the total of the slice plus the area of that
    shape.  It returns when the [Area] of every shape of the slice
    returns and panics when the [Area] of one of them panics, as it does
    for a nil shape and for a shape that holds a nil [*Ellipse]. *)
Theorem TotalArea_spec (s : S) :
  TotalArea [] s = (Returns 0%float, s) /\
  (forall (shapes : list (option AnyShape)) (shape : option AnyShape) (total area : float),
      TotalArea shapes s = (Returns total, s) ->
      Area shape = Returns area ->
      TotalArea (shapes ++ [shape]) s = (Returns (total + area)%float, s)) /\
  (forall shapes : list (option AnyShape),
      Forall (fun shape => exists area, Area shape = Returns area) shapes ->
      exists total, TotalArea shapes s = (Returns total, s)) /\
  (forall shapes : list (option AnyShape),
      Exists (fun shape => exists msg, Area shape = Panics msg) shapes ->
      exists msg, TotalArea shapes s = (Panics msg, s)) /\
  (forall (shapes : list (option AnyShape)) (math_Pow : float -> float -> float),
      In None shapes \/ In (nil_Ellipse math_Pow) shapes ->
      exists msg, TotalArea shapes s = (Panics msg, s)).
Proof.
  assert (forall shapes : list (option AnyShape),
             Exists (fun shape => exists msg, Area shape = Panics msg) shapes ->
             exists msg, TotalArea shapes s = (Panics msg, s)) as Hpanics.
  { intros shapes Hex. unfold TotalArea. generalize 0%float.
    induction Hex as [shape shapes [msg Hmsg]|shape shapes Hex IH]; intros total;
      cbn [fold_each]; rewrite Go_bind_run.
    - rewrite (TotalArea_body_panics _ _ _ _ Hmsg). eexists. reflexivity.
    - destruct (Area shape) as [area|msg] eqn:Harea.
      + rewrite (TotalArea_body_run _ _ _ _ Harea). apply IH.
      + rewrite (TotalArea_body_panics _ _ _ _ Harea). eexists. reflexivity. }
  split; [reflexivity|]. split; [|split; [|split]].
  - intros shapes shape total area Hrun Harea. unfold TotalArea in *.
    rewrite fold_each_snoc, Go_bind_run, Hrun. apply TotalArea_body_run. exact Harea.
  - intros shapes Hall. apply TotalArea_from. exact Hall.
  - exact Hpanics.
  - intros shapes math_Pow Hin. apply Hpanics. apply List.Exists_exists.
    destruct Hin as [Hin|Hin]; eexists; (split; [exact Hin|]); eexists; reflexivity.
Qed.

(** The loop of [CalculateStats] keeps [Count], adds the areas as
    [TotalArea] does, and leaves [MinArea] at 0 when it is 0 and no area
    is below 0. *)
Lemma CalculateStats_loop (shapes : list (option AnyShape)) :
  Forall (fun shape => exists area, Area shape = Returns area) shapes ->
  forall (stats : ShapeStats) (s : S),
    exists stats',
      fold_each shapes CalculateStats_body stats s = (Returns stats', s) /\
      fold_each shapes TotalArea_body (stats_TotalArea stats) s
      = (Returns (stats_TotalArea stats'), s) /\
      stats_Count stats' = stats_Count stats /\
      stats_AvgArea stats' = stats_AvgArea stats /\
      (stats_MinArea stats = 0%float ->
       Forall (fun shape => forall area, Area shape = Returns area ->
                                         PrimFloat.ltb area 0 = false) shapes ->
       stats_MinArea stats' = 0%float).
Proof.
  induction shapes as [|shape shapes IH]; intros Hret stats s.
  - exists stats. repeat split; reflexivity || auto.
  - apply Forall_cons in Hret as [[area Harea] Hret].
    cbn [fold_each]. rewrite !Go_bind_run, (TotalArea_body_run _ _ _ _ Harea).
    unfold CalculateStats_body at 1. rewrite Go_bind_run. unfold call at 1.
    rewrite Harea.
    cbn [mret Go_ret stats_Count stats_TotalArea stats_MinArea
           stats_MaxArea stats_AvgArea].
    match goal with
    | |- context [fold_each shapes CalculateStats_body ?st s] =>
        destruct (IH Hret st s)
          as (stats' & Hrun & Htotal & Hcount & Havg & Hmin);
        assert (stats_TotalArea st = (stats_TotalArea stats + area)%float
                /\ stats_Count st = stats_Count stats
                /\ stats_AvgArea st = stats_AvgArea stats
                /\ (stats_MinArea stats = 0%float ->
                    PrimFloat.ltb area 0 = false ->
                    stats_MinArea st = 0%float)) as (E1 & E2 & E3 & E4)
    end.
    { destruct (PrimFloat.ltb area (stats_MinArea stats)) eqn:Hlt;
        cbn [stats_Count stats_TotalArea stats_MinArea stats_MaxArea stats_AvgArea];
        destruct (PrimFloat.ltb (stats_MaxArea stats) area);
        cbn [stats_Count stats_TotalArea stats_MinArea stats_MaxArea stats_AvgArea];
        repeat split; try reflexivity; intros H0 Hp; try exact H0;
        rewrite H0 in Hlt; congruence. }
    exists stats'. split; [exact Hrun|]. rewrite E1 in Htotal.
    split; [exact Htotal|]. split; [congruence|]. split; [congruence|].
    intros H0 Hall. apply Forall_cons in Hall as [Hfirst Hall]. apply Hmin.
    + apply E4; [exact H0|]. apply Hfirst. exact Harea.
    + exact Hall.
Qed.

Lemma CalculateStats_loop_panics (shapes : list (option AnyShape)) :
  Exists (fun shape => exists msg, Area shape = Panics msg) shapes ->
  forall (stats : ShapeStats) (s : S),
    exists msg, fold_each shapes CalculateStats_body stats s = (Panics msg, s).
Proof.
  induction 1 as [shape shapes [msg Hmsg]|shape shapes Hex IH]; intros stats s;
    cbn [fold_each]; rewrite Go_bind_run; unfold CalculateStats_body at 1;
    rewrite Go_bind_run; unfold call at 1.
  - rewrite Hmsg. eexists. reflexivity.
  - destruct (Area shape) as [area|msg]; [|eexists; reflexivity].
    cbn [mret Go_ret]. apply IH.
Qed.

(** X17: for a non-empty slice, [CalculateStats] returns when the
    [Area] of every shape returns; its [Count] is then the length of the
    slice, its [TotalArea] is what the function [TotalArea] returns for
    the slice, and its [AvgArea] is that total divided by the length.
    It panics when the [Area] of a shape panics, as it does for a nil
    shape and for a shape that holds a nil [*Ellipse]. *)
Theorem CalculateStats_spec (shapes : list (option AnyShape)) (s : S) :
  shapes <> [] ->
  (Forall (fun shape => exists area, Area shape = Returns area) shapes ->
   exists (stats : ShapeStats) (total : float),
     CalculateStats shapes s = (Returns stats, s) /\
     TotalArea shapes s = (Returns total, s) /\
     stats_Count stats = Z.of_nat (length shapes) /\
     stats_TotalArea stats = total /\
     stats_AvgArea stats
     = (total / float64_of_int (Z.of_nat (length shapes)))%float) /\
  (Exists (fun shape => exists msg, Area shape = Panics msg) shapes ->
   exists msg, CalculateStats shapes s = (Panics msg, s)) /\
  (forall math_Pow : float -> float -> float,
      In None shapes \/ In (nil_Ellipse math_Pow) shapes ->
      exists msg, CalculateStats shapes s = (Panics msg, s)).
Proof.
  intros Hne. destruct shapes as [|first rest]; [congruence|].
  assert (Exists (fun shape => exists msg, Area shape = Panics msg) (first :: rest) ->
          exists msg, CalculateStats (first :: rest) s = (Panics msg, s)) as Hpanics.
  { intros Hex. unfold CalculateStats. rewrite Go_bind_run.
    match goal with
    | |- context [fold_each _ CalculateStats_body ?st s] =>
        destruct (CalculateStats_loop_panics (first :: rest) Hex st s) as [msg ->]
    end.
    eexists. reflexivity. }
  split; [|split; [exact Hpanics|]].
  - intros Hret. unfold CalculateStats, TotalArea. rewrite Go_bind_run.
    match goal with
    | |- context [fold_each _ CalculateStats_body ?st s] =>
        destruct (CalculateStats_loop (first :: rest) Hret st s)
          as (stats' & -> & Htotal & Hcount & _ & _)
    end.
    cbn [stats_TotalArea] in Htotal. eexists _, _. split; [reflexivity|].
    split; [exact Htotal|].
    cbn [stats_Count stats_TotalArea stats_AvgArea]. split; [exact Hcount|].
    split; reflexivity.
  - intros math_Pow Hin. apply Hpanics. apply List.Exists_exists.
    destruct Hin as [Hin|Hin]; eexists; (split; [exact Hin|]); eexists; reflexivity.
Qed.

(** X18: the planted defect of [CalculateStats]: whenever the [Area] of
    every shape of the slice returns and none of the areas is below 0,
    [MinArea] is 0, whatever the areas are. *)
Theorem CalculateStats_MinArea (shapes : list (option AnyShape)) (s : S) :
  Forall (fun shape => exists area,
            Area shape = Returns area /\ PrimFloat.ltb area 0 = false) shapes ->
  exists stats : ShapeStats,
    CalculateStats shapes s = (Returns stats, s) /\ stats_MinArea stats = 0%float.
Proof.
  intros Hall.
  assert (Forall (fun shape => exists area, Area shape = Returns area) shapes) as Hret.
  { eapply Forall_impl; [exact Hall|]. intros shape (area & Harea & _). eauto. }
  assert (Forall (fun shape => forall area, Area shape = Returns area ->
                                            PrimFloat.ltb area 0 = false) shapes) as Hpos.
  { eapply Forall_impl; [exact Hall|]. intros shape (area & Harea & Hlt) area' Harea'.
    congruence. }
  destruct shapes as [|first rest].
  - eexists. split; reflexivity.
  - unfold CalculateStats. rewrite Go_bind_run.
    match goal with
    | |- context [fold_each _ CalculateStats_body ?st s] =>
        destruct (CalculateStats_loop (first :: rest) Hret st s)
          as (stats' & -> & _ & _ & _ & Hmin)
    end.
    eexists. split; [reflexivity|]. cbn [stats_MinArea].
    apply Hmin; [reflexivity|exact Hpos].
Qed.

Lemma last_default {A : Type} (l : list A) :
  forall x d d' : A, List.last (x :: l) d = List.last (x :: l) d'.
Proof.
  induction l as [|y l IH]; intros x d d'; [reflexivity|].
  change (List.last (y :: l) d = List.last (y :: l) d'). apply IH.
Qed.

Lemma foldl_last {A : Type} (l : list A) :
  forall first : A, foldl (fun _ x => x) first l = List.last l first.
Proof.
  induction l as [|x l IH]; intros first; [reflexivity|].
  cbn [foldl]. rewrite IH. destruct l as [|y l]; [reflexivity|].
  change (List.last (x :: y :: l) first) with (List.last (y :: l) first).
  apply last_default.
Qed.

(** X19: the exercise's [FindLargestShape] never panics and never looks
    at an area: it returns nil for the empty slice and the last shape of
    any other slice. *)
Theorem FindLargestShape_returns_last (shapes : list (option AnyShape)) (s : S) :
  FindLargestShape shapes s = (Returns (List.last shapes None), s).
Proof.
  destruct shapes as [|first rest]; [reflexivity|]. unfold FindLargestShape.
  transitivity
    (fold_count 1 (Z.of_nat (length (first :: rest)))
       (fun i acc => index_slice (first :: rest) i ≫= fun v => (fun v _ => mret v) v acc)
       first s).
  { unfold fold_count. apply fold_each_ext. intros i acc s' Hi.
    apply list_elem_of_In, elem_of_seqZ in Hi. unfold FindLargestShape_body.
    destruct (Z.gtb_spec i 0); [|lia]. rewrite Go_bind_run.
    destruct (index_slice (first :: rest) i s') as [[r|msg] s'']; reflexivity. }
  rewrite (fold_count_index (first :: rest) (fun v _ => mret v) (length rest) 1)
    by (cbn; lia).
  change (drop 1 (first :: rest)) with rest.
  rewrite (fold_each_pure _ (fun _ x => x)) by reflexivity.
  rewrite foldl_last. do 2 f_equal. destruct rest as [|y rest]; [reflexivity|].
  change (List.last (first :: y :: rest) None) with (List.last (y :: rest) None).
  apply last_default.
Qed.

End ShapeSliceFacts.

(** ** Fibonacci on negative arguments *)

Section FibonacciNegative.
Import BasicsSolutions.

(** X20: for a negative argument [Fibonacci] returns 1 and
    [AlternativeFibonacciRecursive] returns the argument itself, so the
    two differ on every negative argument. *)
Theorem Fibonacci_negative (n : Z) (fuel : nat) :
  n < 0 ->
  Fibonacci (S fuel) n = Some 1 /\
  AlternativeFibonacciRecursive (S fuel) n = Some n /\
  Fibonacci (S fuel) n <> AlternativeFibonacciRecursive (S fuel) n.
Proof.
  intros Hn.
  assert (Fibonacci (S fuel) n = Some 1) as H1.
  { unfold Fibonacci. destruct (Z.eqb_spec n 0); [lia|].
    destruct (Z.eqb_spec n 1); [lia|]. cbn [Fibonacci_loop].
    destruct (Z.leb_spec 2 n); [lia|reflexivity]. }
  assert (AlternativeFibonacciRecursive (S fuel) n = Some n) as H2.
  { cbn [AlternativeFibonacciRecursive]. destruct (Z.leb_spec n 1); [reflexivity|lia]. }
  split; [exact H1|]. split; [exact H2|]. rewrite H1, H2. intros [= E]. lia.
Qed.

Lemma Fibonacci_negative_witness :
  -5 < 0 /\
  Fibonacci 1 (-5) = Some 1 /\
  AlternativeFibonacciRecursive 1 (-5) = Some (-5) /\
  Fibonacci 1 (-5) <> AlternativeFibonacciRecursive 1 (-5).
Proof.
  assert (-5 < 0) as H by lia. split; [exact H|]. exact (Fibonacci_negative (-5) 0 H).
Defined.

End FibonacciNegative.

(** ** CountVowels *)

Section CountVowelsFacts.
Import BasicsSolutions.

Variable strings_ToLower : string -> string.
Variable range_runes : string -> list Z.
Hypothesis ToLower_ASCII : forall s, is_ASCII s -> strings_ToLower s = ASCII_ToLower s.
Hypothesis runes_ASCII : forall s, is_ASCII s -> range_runes s = ASCII_runes s.

Lemma is_vowel_lower (c : ascii) :
  is_vowel (Z.of_N (N_of_ascii (ASCII_lower c))) = vowel_letter c.
Proof. destruct c as [[] [] [] [] [] [] [] []]; reflexivity. Qed.

Lemma ASCII_lower_ASCII (c : ascii) :
  Z.of_N (N_of_ascii c) < 128 -> Z.of_N (N_of_ascii (ASCII_lower c)) < 128.
Proof. destruct c as [[] [] [] [] [] [] [] []]; vm_compute; congruence. Qed.

Lemma is_ASCII_ToLower (s : string) : is_ASCII s -> is_ASCII (ASCII_ToLower s).
Proof.
  unfold is_ASCII, ASCII_ToLower. rewrite list_ascii_of_string_of_list_ascii.
  intros H. apply List.Forall_forall. intros c Hc.
  apply in_map_iff in Hc as (c0 & <- & Hc0).
  apply ASCII_lower_ASCII. rewrite List.Forall_forall in H. apply H, Hc0.
Qed.

Lemma count_vowels_foldl (l : list ascii) :
  forall count : Z,
    0 <= count -> count + Z.of_nat (length l) <= GoInt.MaxInt ->
    foldl (fun count char => if is_vowel char then GoInt.add count 1 else count) count
      (map (fun c => Z.of_N (N_of_ascii c)) (map ASCII_lower l))
    = count + Z.of_nat (length (List.filter vowel_letter l)).
Proof.
  assert (GoInt.MaxInt = 9223372036854775807) as HM by reflexivity.
  induction l as [|c l IH]; intros count Hlo Hhi; cbn [map foldl List.filter].
  - cbn. lia.
  - cbn [length] in Hhi. rewrite is_vowel_lower. destruct (vowel_letter c).
    + rewrite add_in_range
        by (unfold GoInt.is_int, GoInt.MinInt, GoInt.intSize; lia).
      rewrite IH by lia. cbn [length]. lia.
    + rewrite IH by lia. reflexivity.
Qed.

(** X21: on a string of ASCII characters [CountVowels] returns the
    number of its characters that are one of the letters a, e, i, o, u,
    in either case. *)
Theorem CountVowels_ASCII (s : string) :
  is_ASCII s ->
  Z.of_nat (String.length s) <= GoInt.MaxInt ->
  CountVowels strings_ToLower range_runes s
  = Z.of_nat (length (List.filter vowel_letter (list_ascii_of_string s))).
Proof.
  intros Hascii Hlen. unfold CountVowels. cbv zeta.
  rewrite (ToLower_ASCII s Hascii), (runes_ASCII _ (is_ASCII_ToLower s Hascii)).
  unfold ASCII_runes, ASCII_ToLower. rewrite list_ascii_of_string_of_list_ascii.
  rewrite count_vowels_foldl; [lia|lia|].
  assert (length (list_ascii_of_string s) = String.length s) as ->; [|lia].
  clear. induction s as [|c s IH]; [reflexivity|]. cbn. rewrite IH. reflexivity.
Qed.

End CountVowelsFacts.

Section CountVowelsExample.
Import BasicsSolutions.

Lemma CountVowels_ASCII_witness :
  is_ASCII "Hello, Gophers" /\
  Z.of_nat (String.length "Hello, Gophers") <= GoInt.MaxInt /\
  CountVowels ASCII_ToLower ASCII_runes "Hello, Gophers"
  = Z.of_nat (length (List.filter vowel_letter (list_ascii_of_string "Hello, Gophers"))).
Proof.
  assert (is_ASCII "Hello, Gophers") as H1
    by (unfold is_ASCII; cbn [list_ascii_of_string]; repeat constructor).
  assert (Z.of_nat (String.length "Hello, Gophers") <= GoInt.MaxInt) as H2
    by (vm_compute; discriminate).
  split; [exact H1|]. split; [exact H2|].
  exact (CountVowels_ASCII ASCII_ToLower ASCII_runes
           (fun s _ => eq_refl) (fun s _ => eq_refl) "Hello, Gophers" H1 H2).
Defined.

Example CountVowels_hello : CountVowels ASCII_ToLower ASCII_runes "hello" = 2.
Proof. reflexivity. Qed.

End CountVowelsExample.

(** ** The properties at the inputs of the tests *)

Section FurtherExamples.
Import BasicsSolutions.

Lemma ReverseSlice_reverses_witness :
  GoSlice.valid demo_numbers demo_slices /\
  Z.of_nat (length (GoSlice.contents demo_numbers demo_slices)) <= GoInt.MaxInt /\
  exists h',
    ReverseSlice demo_numbers demo_slices = (Returns demo_numbers, h') /\
    GoSlice.contents demo_numbers h' = reverse (GoSlice.contents demo_numbers demo_slices) /\
    (forall a i, GoSlice.cell a i h'
                 = GoSlice.cell a (GoSlice.mirror demo_numbers a i) demo_slices) /\
    (forall s, GoSlice.valid s demo_slices -> GoSlice.valid s h') /\
    (forall a off n c k, (k < n)%nat ->
       GoSlice.contents (GoSlice.window a off n c) h' !! k
       = GoSlice.cell a (GoSlice.mirror demo_numbers a (off + k)) demo_slices) /\
    (forall s, GoSlice.disjoint s demo_numbers ->
               GoSlice.contents s h' = GoSlice.contents s demo_slices).
Proof.
  assert (GoSlice.valid demo_numbers demo_slices) as Hv by (vm_compute; lia).
  assert (Z.of_nat (length (GoSlice.contents demo_numbers demo_slices)) <= GoInt.MaxInt)
    as H by (vm_compute; discriminate).
  split; [exact Hv|]. split; [exact H|].
  exact (ReverseSlice_reverses demo_numbers demo_slices Hv H).
Defined.

Lemma ReverseSlice_twice_witness :
  GoSlice.valid demo_numbers demo_slices /\
  Z.of_nat (length (GoSlice.contents demo_numbers demo_slices)) <= GoInt.MaxInt /\
  exists h',
    (once ← ReverseSlice demo_numbers; ReverseSlice once) demo_slices
    = (Returns demo_numbers, h') /\
    GoSlice.contents demo_numbers h' = GoSlice.contents demo_numbers demo_slices /\
    forall s, GoSlice.contents s h' = GoSlice.contents s demo_slices.
Proof.
  assert (GoSlice.valid demo_numbers demo_slices) as Hv by (vm_compute; lia).
  assert (Z.of_nat (length (GoSlice.contents demo_numbers demo_slices)) <= GoInt.MaxInt)
    as H by (vm_compute; discriminate).
  split; [exact Hv|]. split; [exact H|].
  exact (ReverseSlice_twice demo_numbers demo_slices Hv H).
Defined.

Example ReverseSlice_demo :
  exists h',
    ReverseSlice demo_numbers demo_slices = (Returns demo_numbers, h') /\
    GoSlice.contents demo_numbers h' = [5; 4; 3; 2; 1].
Proof. eexists. split; vm_compute; reflexivity. Qed.

(** The slice [numbers[:2]] shares the array of [numbers]: it shows
    other elements once [numbers] is reversed.  Reversing [numbers[1:4]]
    leaves the first and the last element of [numbers] in place. *)
Example ReverseSlice_shared_array :
  (exists h',
     ReverseSlice demo_numbers demo_slices = (Returns demo_numbers, h') /\
     GoSlice.contents (GoSlice.reslice demo_numbers 0 2) demo_slices = [1; 2] /\
     GoSlice.contents (GoSlice.reslice demo_numbers 0 2) h' = [5; 4]) /\
  (exists h',
     ReverseSlice (GoSlice.reslice demo_numbers 1 4) demo_slices
     = (Returns (GoSlice.reslice demo_numbers 1 4), h') /\
     GoSlice.contents demo_numbers h' = [1; 4; 3; 2; 5]).
Proof. split; eexists; repeat split; vm_compute; reflexivity. Qed.

Lemma TypeSafeMap_Set_laws_witness :
  Solutions.data Solutions.test_map = GoMap.at_loc 1%positive /\
  (forall v1 v2 : value,
      (Solutions.TypeSafeMap_Set Solutions.test_map "age" v1;;
       Solutions.TypeSafeMap_Set Solutions.test_map "age" v2) Solutions.test_heap
      = Solutions.TypeSafeMap_Set Solutions.test_map "age" v2 Solutions.test_heap).
Proof.
  split; [reflexivity|].
  exact (proj1 (TypeSafeMap_Set_laws Solutions.test_map 1%positive
                  Solutions.test_heap "age" eq_refl)).
Defined.

Lemma Solutions_Count_spec_witness :
  Z.of_nat (size (GoMap.contents (Solutions.data Solutions.test_map) Solutions.test_heap))
  <= GoInt.MaxInt /\
  Solutions.TypeSafeMap_Count map_to_list Solutions.test_map "string" Solutions.test_heap
  = (Returns
       (Z.of_nat
          (length
             (List.filter (Solutions.switch_matches "string")
                ((map_to_list
                    (GoMap.contents (Solutions.data Solutions.test_map)
                       Solutions.test_heap)).*2)))),
     Solutions.test_heap).
Proof.
  assert (Z.of_nat (size (GoMap.contents (Solutions.data Solutions.test_map)
                            Solutions.test_heap)) <= GoInt.MaxInt)
    as H by (vm_compute; discriminate).
  split; [exact H|].
  exact (Solutions_Count_spec map_to_list (fun m => reflexivity _)
           Solutions.test_map "string" Solutions.test_heap H).
Defined.

(** [TestTypeSafeMapCount], [TestFilter], [TestMax], [TestMaxEmpty],
    [TestProcessValue] and [TestGetTypeName] on the solutions. *)
Example Solutions_tests :
  Solutions.TypeSafeMap_Count map_to_list Solutions.test_map "string" Solutions.test_heap
  = (Returns 2, Solutions.test_heap) /\
  Solutions.TypeSafeMap_Count map_to_list Solutions.test_map "int" Solutions.test_heap
  = (Returns 2, Solutions.test_heap) /\
  Solutions.Filter Solutions.test_values "int" tt = (Returns [VInt 1; VInt 2; VInt 3], tt) /\
  Solutions.Filter Solutions.test_values "string" tt
  = (Returns [VString "hello"; VString "world"], tt) /\
  Solutions.Filter Solutions.test_values "float64" tt
  = (Returns [VFloat64 0x1.91eb851eb851fp+1], tt) /\
  Solutions.Max (map VInt [5; 2; 8; 1; 9; 3]) tt = (Returns (VInt 9), tt) /\
  Solutions.Max [] tt = (Returns VNil, tt) /\
  Solutions.ProcessValue (VString "hello") tt = (Returns "String: hello", tt) /\
  Solutions.ProcessValue (VInt 42) tt = (Returns "Integer: 42", tt) /\
  Solutions.ProcessValue (VFloat64 0x1.91eb851eb851fp+1) tt = (Returns "Unknown", tt) /\
  Solutions.GetTypeName (VIntSlice [1; 2; 3]) tt = (Returns "[]int", tt) /\
  Solutions.Stringify (VInt 42) tt = (Returns "42", tt) /\
  Solutions.Stringify VNil tt = (Returns "<nil>", tt).
Proof. repeat split; vm_compute; reflexivity. Qed.

Lemma CalculateStats_spec_witness :
  Exercises.test_shapes <> [] /\
  exists (stats : Exercises.ShapeStats) (total : float),
    Exercises.CalculateStats Exercises.test_shapes tt = (Returns stats, tt) /\
    Exercises.TotalArea Exercises.test_shapes tt = (Returns total, tt) /\
    Exercises.stats_Count stats = Z.of_nat (length Exercises.test_shapes) /\
    Exercises.stats_TotalArea stats = total /\
    Exercises.stats_AvgArea stats
    = (total / float64_of_int (Z.of_nat (length Exercises.test_shapes)))%float.
Proof.
  assert (Exercises.test_shapes <> []) as H1 by discriminate.
  assert (Forall (fun shape => exists area, Exercises.Area shape = Returns area)
            Exercises.test_shapes) as H2
    by (repeat (apply List.Forall_cons; [eexists; reflexivity|]); apply List.Forall_nil).
  split; [exact H1|].
  exact (proj1 (CalculateStats_spec Exercises.test_shapes tt H1) H2).
Defined.

Lemma CalculateStats_MinArea_witness :
  Forall (fun shape => exists area,
            Exercises.Area shape = Returns area /\ PrimFloat.ltb area 0 = false)
    Exercises.test_shapes /\
  exists stats : Exercises.ShapeStats,
    Exercises.CalculateStats Exercises.test_shapes tt = (Returns stats, tt) /\
    Exercises.stats_MinArea stats = 0%float.
Proof.
  assert (Forall (fun shape => exists area,
                    Exercises.Area shape = Returns area /\ PrimFloat.ltb area 0 = false)
            Exercises.test_shapes) as H
    by (repeat (apply List.Forall_cons; [eexists; split; reflexivity|]);
        apply List.Forall_nil).
  split; [exact H|].
  exact (CalculateStats_MinArea Exercises.test_shapes tt H).
Defined.

(** A slice that holds a nil [*Ellipse] after a square: no shape of it
    is the nil interface, and both functions panic. *)
Example nil_Ellipse_panics (math_Pow : float -> float -> float) :
  let shapes := [Some (Exercises.PackShape _ _ {| Exercises.Side := 1 |});
                 Exercises.nil_Ellipse math_Pow] in
  ~ In None shapes /\
  Exercises.TotalArea shapes tt = (Panics Exercises.nil_dereference, tt) /\
  Exercises.CalculateStats shapes tt = (Panics Exercises.nil_dereference, tt).
Proof.
  split; [|split; reflexivity].
  intros [H|[H|[]]]; discriminate.
Qed.

(** [TestCalculateStats] without its circle: the areas are 100 and 40,
    yet [MinArea] is 0. *)
Example CalculateStats_test :
  Exercises.CalculateStats Exercises.test_shapes tt
  = (Returns {| Exercises.stats_Count := 2; Exercises.stats_TotalArea := 140;
                Exercises.stats_MinArea := 0; Exercises.stats_MaxArea := 100;
                Exercises.stats_AvgArea := 70 |}, tt).
Proof. vm_compute. reflexivity. Qed.

End FurtherExamples.

(** ** The exercise's Count *)

Section ExerciseCountFacts.

Variable order : gmap string value -> list (string * value).
Hypothesis order_enumerates : forall m, order m ≡ₚ map_to_list m.

Lemma order_entries (c : gmap string value) (k : string) (v : value) :
  In (k, v) (order c) <-> c !! k = Some v.
Proof.
  rewrite <- list_elem_of_In, (order_enumerates c). apply elem_of_map_to_list.
Qed.

Lemma count_up (l : list (string * value)) :
  forall count : Z,
    0 <= count -> count + Z.of_nat (length l) <= GoInt.MaxInt ->
    foldl (fun count (_ : string * value) => GoInt.add count 1) count l
    = count + Z.of_nat (length l).
Proof.
  assert (GoInt.MaxInt = 9223372036854775807) as HM by reflexivity.
  induction l as [|kv l IH]; intros count Hlo Hhi; cbn [foldl length] in *; [lia|].
  rewrite add_in_range by (unfold GoInt.is_int, GoInt.MinInt, GoInt.intSize; lia).
  rewrite IH by lia. lia.
Qed.

(** X22: the exercise's [Count] for "string" returns the number of keys
    of the map when every value is a string, and panics when some value
    is not, whatever the order in which [range] visits the map; for a
    type name other than "string" and "int" it returns 0. *)
Theorem Exercises_Count_spec (d : GoMap.ref) (h : gmap GoMap.loc (gmap string value)) :
  Z.of_nat (size (GoMap.contents d h)) <= GoInt.MaxInt ->
  ((forall k v, GoMap.contents d h !! k = Some v -> exists str, v = VString str) ->
   Exercises.TypeSafeMap_Count order {| Exercises.data := d |} "string" h
   = (Returns (Z.of_nat (size (GoMap.contents d h))), h)) /\
  ((exists k v, GoMap.contents d h !! k = Some v /\ forall str, v <> VString str) ->
   exists msg,
     Exercises.TypeSafeMap_Count order {| Exercises.data := d |} "string" h
     = (Panics msg, h)) /\
  (forall typeName : string, typeName <> "string" -> typeName <> "int" ->
   Exercises.TypeSafeMap_Count order {| Exercises.data := d |} typeName h
   = (Returns 0, h)).
Proof.
  intros Hsize. unfold Exercises.TypeSafeMap_Count, GoMap.range_fold.
  cbn [Exercises.data].
  pose proof (order_enumerates (GoMap.contents d h)) as Hperm.
  assert (length (order (GoMap.contents d h)) = size (GoMap.contents d h)) as Hlen
    by (rewrite (Permutation_length Hperm); apply length_map_to_list).
  split; [|split].
  - intros Hall.
    rewrite (fold_each_ext _
               (fun (_ : string * value) count => mret (GoInt.add count 1))).
    + rewrite (fold_each_pure _ (fun count _ => GoInt.add count 1)) by reflexivity.
      rewrite count_up by lia. rewrite Hlen. reflexivity.
    + intros [k v] count s Hin. apply order_entries in Hin.
      destruct (Hall k v Hin) as [str ->]. reflexivity.
  - intros (k & v & Hk & Hv).
    apply (fold_each_panics _ (fun kv => negb (assert_string_ok kv.2).2)).
    + intros [k' v'] count s Hbad. destruct v'; try discriminate; eexists; reflexivity.
    + intros [k' v'] count s Hgood. destruct v'; try discriminate. eexists. reflexivity.
    + exists (k, v). split; [apply order_entries; exact Hk|].
      destruct v; try reflexivity. exfalso. eapply Hv. reflexivity.
  - intros typeName H1 H2.
    rewrite (fold_each_pure _ (fun count _ => count)).
    + generalize (order (GoMap.contents d h)). intros l.
      induction l as [|kv l IH]; [reflexivity|exact IH].
    + intros kv count s. unfold Exercises.Count_body.
      destruct (String.eqb_spec typeName "string"); [congruence|].
      destruct (String.eqb_spec typeName "int"); [congruence|]. reflexivity.
Qed.

End ExerciseCountFacts.

Lemma Exercises_Count_spec_witness :
  Z.of_nat (size (GoMap.contents (GoMap.at_loc 1%positive) Solutions.test_heap))
  <= GoInt.MaxInt /\
  exists msg,
    Exercises.TypeSafeMap_Count map_to_list
      {| Exercises.data := GoMap.at_loc 1%positive |} "string" Solutions.test_heap
    = (Panics msg, Solutions.test_heap).
Proof.
  assert (Z.of_nat (size (GoMap.contents (GoMap.at_loc 1%positive) Solutions.test_heap))
          <= GoInt.MaxInt) as H by (vm_compute; discriminate).
  split; [exact H|].
  apply (proj1 (proj2 (Exercises_Count_spec map_to_list (fun m => reflexivity _)
                         (GoMap.at_loc 1%positive) Solutions.test_heap H))).
  exists "age", (VInt 30). split; [vm_compute; reflexivity|discriminate].
Defined.

(** ** The effects of the functions of the exercise files *)

Section StatelessFacts.
Context {S : Type}.

Lemma stateless_ret {A} (a : A) : stateless (mret a : Go S A).
Proof. intros s s'. reflexivity. Qed.

Lemma stateless_panic {A} (msg : string) : stateless (panic msg : Go S A).
Proof. intros s s'. reflexivity. Qed.

Lemma stateless_call {A} (result : outcome A) : stateless (call result : Go S A).
Proof. intros s s'. reflexivity. Qed.

Lemma stateless_bind {A B} (m : Go S A) (k : A -> Go S B) :
  stateless m -> (forall a, stateless (k a)) -> stateless (m ≫= k).
Proof.
  intros Hm Hk s s'. rewrite !Go_bind_run. rewrite (Hm s s'), (Hm s' s').
  destruct (m s').1 as [a|msg]; [apply Hk|reflexivity].
Qed.

Lemma stateless_fold_each {A B} (body : A -> B -> Go S B) (l : list A) :
  (forall x acc, stateless (body x acc)) ->
  forall acc, stateless (fold_each l body acc).
Proof.
  intros Hbody. induction l as [|x l IH]; intros acc; cbn [fold_each].
  - apply stateless_ret.
  - apply stateless_bind; [apply Hbody|exact IH].
Qed.

Lemma stateless_fold_count {B} (lo hi : Z) (body : Z -> B -> Go S B) :
  (forall i acc, stateless (body i acc)) ->
  forall acc, stateless (fold_count lo hi body acc).
Proof. intros Hbody acc. apply stateless_fold_each. exact Hbody. Qed.

Lemma stateless_index_slice {A} (l : list A) (i : Z) :
  stateless (index_slice l i : Go S A).
Proof.
  unfold index_slice. destruct (i <? 0); [apply stateless_panic|].
  destruct (l !! Z.to_nat i); [apply stateless_ret|apply stateless_panic].
Qed.

Lemma stateless_assert_int (v : value) : stateless (assert_int v : Go S Z).
Proof. destruct v; first [apply stateless_ret|apply stateless_panic]. Qed.

Lemma stateless_assert_string (v : value) : stateless (assert_string v : Go S string).
Proof. destruct v; first [apply stateless_ret|apply stateless_panic]. Qed.

Lemma stateless_assert_float64 (v : value) : stateless (assert_float64 v : Go S float).
Proof. destruct v; first [apply stateless_ret|apply stateless_panic]. Qed.

End StatelessFacts.

(** Proves that a computation made of the steps above is stateless. *)
Ltac stateless_steps :=
  repeat first
    [ apply stateless_ret
    | apply stateless_panic
    | apply stateless_call
    | apply stateless_index_slice
    | apply stateless_assert_int
    | apply stateless_assert_string
    | apply stateless_assert_float64
    | apply stateless_bind; [|intros ?]
    | apply stateless_fold_each; intros ? ?
    | apply stateless_fold_count; intros ? ?
    | match goal with
      | |- stateless (if ?b then _ else _) => destruct b
      | |- stateless (match ?x with _ => _ end) => destruct x
      | |- stateless (let '(_, _) := ?x in _) => destruct x
      end
    | progress cbv zeta ].

Section EffectFacts.
Import Exercises.

(** The functions that take no map and do not print. *)
Lemma exercises_stateless {S : Type} :
  (forall shapes, stateless (TotalArea shapes : Go S float)) /\
  (forall shapes, stateless (FindLargestShape shapes : Go S (option AnyShape))) /\
  (forall shapes, stateless (CalculateStats shapes : Go S ShapeStats)) /\
  (forall s1 s2 : option AnyShape, stateless (CompareShapes s1 s2 : Go S Z)) /\
  (forall v, stateless (Stringify v : Go S string)) /\
  (forall v, stateless (GetIntValue v : Go S Z)) /\
  (forall v, stateless (IsNumeric v : Go S bool)) /\
  (forall v, stateless (Sum v : Go S float)) /\
  (forall v, stateless (ProcessValue v : Go S string)) /\
  (forall v, stateless (GetTypeName v : Go S string)) /\
  (forall v, stateless (ConvertToInt v : Go S (Z * option error))) /\
  (forall values typeName, stateless (Filter values typeName : Go S (list value))) /\
  (forall values, stateless (Max values : Go S value)).
Proof.
  repeat split; intros;
    unfold TotalArea, TotalArea_body, FindLargestShape, FindLargestShape_body,
      CalculateStats, CalculateStats_body, CompareShapes, Stringify, GetIntValue,
      IsNumeric, Sum, Sum_body, ProcessValue, GetTypeName, ConvertToInt,
      Filter, Filter_body, Max, Max_body;
    stateless_steps.
Qed.

Lemma same_outcome_refl {A} (r : outcome A) : same_outcome r r.
Proof. destruct r; reflexivity. Qed.

Lemma append_empty_r (s : string) : s +:+ "" = s.
Proof.
  induction s as [|c s IH]; [reflexivity|].
  change (String c (s +:+ "") = String c s). rewrite IH. reflexivity.
Qed.

Lemma append_not_empty (a b : string) : b <> "" -> a +:+ b <> "".
Proof. intros Hb. destruct a; [exact Hb|discriminate]. Qed.

Lemma on_maps_run {A} (m : Go (gmap GoMap.loc (gmap string value)) A) (w : world) :
  on_maps m w = ((m (maps w)).1, {| output := output w; maps := (m (maps w)).2 |}).
Proof. unfold on_maps. destruct (m (maps w)). reflexivity. Qed.

Lemma on_output_run {A} (m : Go stdout A) (w : world) :
  on_output m w = ((m (output w)).1, {| output := (m (output w)).2; maps := maps w |}).
Proof. unfold on_output. destruct (m (output w)). reflexivity. Qed.

(** A method that only reads the map of its receiver: memory is left as
    it is, and the outcome is that of a computation on what the map
    holds. *)
Lemma reader_run {B} (d : GoMap.ref) (key : string)
    (k : option value -> Go (gmap GoMap.loc (gmap string value)) B)
    (as_result : B -> result) (w : world) :
  (forall r, stateless (k r)) ->
  (on_maps (returning as_result (GoMap.index d key ≫= k)) w).2 = w /\
  forall w', GoMap.contents d (maps w') = GoMap.contents d (maps w) ->
    (on_maps (returning as_result (GoMap.index d key ≫= k)) w').1
    = (on_maps (returning as_result (GoMap.index d key ≫= k)) w).1.
Proof.
  intros Hk.
  assert (forall h, returning as_result (GoMap.index d key ≫= k) h
                    = ((returning as_result (k (GoMap.contents d h !! key)) ∅).1, h)) as Hrun.
  { intros h.
    change (returning as_result (GoMap.index d key ≫= k) h)
      with (returning as_result (k (GoMap.contents d h !! key)) h).
    apply stateless_bind; [apply Hk|intros a; apply stateless_ret]. }
  split.
  - rewrite on_maps_run, Hrun. destruct w. reflexivity.
  - intros w' Hsame. rewrite !on_maps_run, !Hrun. cbn [fst]. rewrite Hsame. reflexivity.
Qed.

Lemma stateless_Count_body (typeName : string) (v : value) (count : Z) :
  stateless (Count_body typeName v count).
Proof. unfold Count_body. stateless_steps. Qed.

(** [PrintShapeInfo] appends one text to the standard output, a line
    when the three methods return and nothing when one panics. *)
Lemma PrintShapeInfo_run `{Shape T} (s : T) :
  exists (r : outcome unit) (text : string),
    (forall out, PrintShapeInfo s out = (r, out +:+ text)) /\
    (r = Returns tt <-> text <> "").
Proof.
  unfold PrintShapeInfo, call, Printf, mbind, Go_bind.
  destruct (Name s) as [name|msg].
  2:{ exists (Panics msg), "". split; [intros out; rewrite append_empty_r; reflexivity|].
      split; [discriminate|congruence]. }
  destruct (Area s) as [area|msg].
  2:{ exists (Panics msg), "". split; [intros out; rewrite append_empty_r; reflexivity|].
      split; [discriminate|congruence]. }
  destruct (Perimeter s) as [perimeter|msg].
  2:{ exists (Panics msg), "". split; [intros out; rewrite append_empty_r; reflexivity|].
      split; [discriminate|congruence]. }
  eexists (Returns tt), _. split; [intros out; reflexivity|].
  split; [|reflexivity]. intros _. apply append_not_empty. discriminate.
Qed.

(** A loop whose body, for each element, either panics or returns the
    same function of the variable it assigns has the same outcome in
    whatever order it visits the elements. *)
Lemma fold_each_any_order {S A B : Type} (body : A -> B -> Go S B) (bad : A -> bool)
    (step : B -> B) (l l' : list A) :
  (forall x acc s, bad x = true -> exists msg, body x acc s = (Panics msg, s)) ->
  (forall x acc s, bad x = false -> body x acc s = (Returns (step acc), s)) ->
  l ≡ₚ l' ->
  forall acc s, same_outcome (fold_each l body acc s).1 (fold_each l' body acc s).1.
Proof.
  intros Hbad Hgood Hperm acc s.
  assert (forall x acc s, bad x = false -> exists r, body x acc s = (Returns r, s)) as Hgood'
    by (intros x acc' s' Hx; eexists; apply Hgood; exact Hx).
  destruct (existsb bad l) eqn:Hex.
  - apply existsb_exists in Hex as (x & Hin & Hx).
    destruct (fold_each_panics body bad l Hbad Hgood' (ex_intro _ x (conj Hin Hx)) acc s)
      as [msg ->].
    assert (In x l') as Hin'.
    { apply list_elem_of_In. rewrite <- Hperm. apply list_elem_of_In. exact Hin. }
    destruct (fold_each_panics body bad l' Hbad Hgood' (ex_intro _ x (conj Hin' Hx)) acc s)
      as [msg' ->].
    exact I.
  - assert (forall k, k ≡ₚ l -> fold_each k body acc s
              = (Returns (foldl (fun acc _ => step acc) acc k), s)) as Hret.
    { intros k Hk.
      rewrite (fold_each_ext body (fun _ acc => mret (step acc))).
      - apply fold_each_pure. reflexivity.
      - intros x acc' s' Hin. apply Hgood.
        destruct (bad x) eqn:Hx; [|reflexivity].
        assert (existsb bad l = true) as Habs; [|congruence].
        apply existsb_exists. exists x. split; [|exact Hx].
        apply list_elem_of_In. rewrite <- Hk. apply list_elem_of_In. exact Hin. }
    rewrite (Hret l), (Hret l') by (reflexivity || symmetry; exact Hperm). cbn [fst same_outcome].
    clear -Hperm. revert acc.
    induction Hperm as [|x l1 l2 _ IH|x y l|l1 l2 l3 _ IH1 _ IH2]; intros acc; cbn [foldl].
    + reflexivity.
    + apply IH.
    + reflexivity.
    + rewrite IH1. apply IH2.
Qed.

Lemma Count_any_order (order order' : gmap string value -> list (string * value))
    (m : TypeSafeMap) (typeName : string) (h : gmap GoMap.loc (gmap string value)) :
  (forall c, order c ≡ₚ map_to_list c) -> (forall c, order' c ≡ₚ map_to_list c) ->
  same_outcome (TypeSafeMap_Count order m typeName h).1
    (TypeSafeMap_Count order' m typeName h).1.
Proof.
  intros Horder Horder'. unfold TypeSafeMap_Count, GoMap.range_fold.
  assert (order (GoMap.contents (data m) h) ≡ₚ order' (GoMap.contents (data m) h)) as Hperm
    by (rewrite Horder, Horder'; reflexivity).
  destruct (String.eqb typeName "string") eqn:Hstring.
  - apply (fold_each_any_order _ (fun kv => negb (assert_string_ok kv.2).2)
             (fun count => GoInt.add count 1)); [| |exact Hperm].
    + intros [k v] count s Hv. unfold Count_body. rewrite Hstring.
      destruct v; try discriminate; eexists; reflexivity.
    + intros [k v] count s Hv. unfold Count_body. rewrite Hstring.
      destruct v; try discriminate. reflexivity.
  - destruct (String.eqb typeName "int") eqn:Hint.
    + apply (fold_each_any_order _ (fun kv => negb (assert_int_ok kv.2).2)
               (fun count => GoInt.add count 1)); [| |exact Hperm].
      * intros [k v] count s Hv. unfold Count_body. rewrite Hstring, Hint.
        destruct v; try discriminate; eexists; reflexivity.
      * intros [k v] count s Hv. unfold Count_body. rewrite Hstring, Hint.
        destruct v; try discriminate. reflexivity.
    + apply (fold_each_any_order _ (fun _ => false) (fun count => count));
        [| |exact Hperm].
      * discriminate.
      * intros [k v] count s _. unfold Count_body. rewrite Hstring, Hint. reflexivity.
Qed.


End EffectFacts.

(** ** Sum *)

Section SumFacts.
Context {S : Type}.

Lemma Exercises_Sum_floats (l : list float) :
  forall (total : float) (s : S),
    fold_each (map VFloat64 l) Exercises.Sum_body total s
    = (Returns (foldl (fun total num => (total + num)%float) total l), s).
Proof.
  induction l as [|x l IH]; intros total s; cbn [map fold_each foldl]; [reflexivity|].
  rewrite Go_bind_run.
  change (Exercises.Sum_body (VFloat64 x) total s) with (Returns (total + x)%float, s).
  cbv beta iota. apply IH.
Qed.

Lemma Solutions_Sum_floats (l : list float) :
  forall total : float,
    foldl Solutions.Sum_step total (map VFloat64 l)
    = foldl (fun total num => (total + num)%float) total l.
Proof. induction l as [|x l IH]; intros total; cbn [map foldl]; [reflexivity|apply IH]. Qed.

(** X23: the exercise's [Sum] against the solution's.  On an [[]int]
    the two are the same.  On a [[]float64] the exercise's returns 0
    where the solution's returns the sum from the first element to the
    last.  On an [[]interface{}] whose values are all [float64] both
    return that sum; as soon as one value is not a [float64], an [int]
    included, the exercise's panics, while the solution's returns for
    every argument. *)
Theorem Sum_spec (s : S) :
  (forall l : list Z,
      Exercises.Sum (VIntSlice l) s
      = (Returns (foldl (fun total num => (total + float64_of_int num)%float) 0%float l), s) /\
      Solutions.Sum (VIntSlice l) s = Exercises.Sum (VIntSlice l) s) /\
  (forall l : list float,
      Exercises.Sum (VFloat64Slice l) s = (Returns 0%float, s) /\
      Solutions.Sum (VFloat64Slice l) s
      = (Returns (foldl (fun total num => (total + num)%float) 0%float l), s) /\
      Exercises.Sum (VSlice (map VFloat64 l)) s = Solutions.Sum (VFloat64Slice l) s /\
      Solutions.Sum (VSlice (map VFloat64 l)) s = Solutions.Sum (VFloat64Slice l) s) /\
  (forall values : list value,
      (exists v, In v values /\ forall f, v <> VFloat64 f) ->
      exists msg, Exercises.Sum (VSlice values) s = (Panics msg, s)) /\
  (forall values : value, exists total, Solutions.Sum values s = (Returns total, s)).
Proof.
  split; [|split; [|split]].
  - intros l. split; reflexivity.
  - intros l. split; [reflexivity|]. split; [reflexivity|]. split.
    + cbn [Exercises.Sum Solutions.Sum]. apply Exercises_Sum_floats.
    + cbn [Solutions.Sum]. rewrite Solutions_Sum_floats. reflexivity.
  - intros values (v & Hin & Hv). cbn [Exercises.Sum].
    apply (fold_each_panics _ (fun v => negb (assert_float64_ok v).2)).
    + intros x acc s' Hbad. destruct x; try discriminate; eexists; reflexivity.
    + intros x acc s' Hgood. destruct x; try discriminate. eexists. reflexivity.
    + exists v. split; [exact Hin|]. destruct v; try reflexivity.
      exfalso. eapply Hv. reflexivity.
  - intros values. destruct values; eexists; reflexivity.
Qed.

(** [TestSum]: the three slices of the test. *)
Example Sum_tests :
  Solutions.Sum (VIntSlice [1; 2; 3; 4; 5]) tt = (Returns 15%float, tt) /\
  Solutions.Sum (VFloat64Slice [1.5%float; 2.5%float; 3%float]) tt = (Returns 7%float, tt) /\
  Solutions.Sum (VSlice [VInt 1; VFloat64 2.5%float; VInt 3]) tt = (Returns 6.5%float, tt) /\
  Exercises.Sum (VIntSlice [1; 2; 3; 4; 5]) tt = (Returns 15%float, tt) /\
  Exercises.Sum (VFloat64Slice [1.5%float; 2.5%float; 3%float]) tt = (Returns 0%float, tt) /\
  Exercises.Sum (VSlice [VInt 1; VFloat64 2.5%float; VInt 3]) tt
  = (Panics "interface conversion: interface {} is not float64", tt).
Proof. repeat split; vm_compute; reflexivity. Qed.

End SumFacts.

(** ** The order of a range loop and the message of a panic *)

Section CountOrderExample.
Import Exercises.

(** A map that holds a nil and an [int]: the exercise's [Count] for
    "string" panics in whatever order [range] visits the map, with the
    message of the value it meets first. *)
Example Count_message_depends_on_order :
  let h : gmap GoMap.loc (gmap string value) :=
    <[1%positive := <["a" := VNil]> (<["b" := VInt 1]> ∅)]> ∅ in
  let m := {| data := GoMap.at_loc 1%positive |} in
  TypeSafeMap_Count map_to_list m "string" h
  = (Panics "interface conversion: interface {} is nil, not string", h) /\
  TypeSafeMap_Count (fun c => reverse (map_to_list c)) m "string" h
  = (Panics "interface conversion: interface {} is not string", h).
Proof. split; vm_compute; reflexivity. Qed.

End CountOrderExample.
